(** * mirror_page.py: a shallow embedding and its verified properties

    The script mirrors one HTML page: it classifies URLs, maps them to
    local paths, downloads assets, rewrites [url(...)] references in CSS and
    rewrites the attributes of the parsed document.

    Conventions of the embedding.
    - A Python [str] is a [list ascii]; every character is one code point
      in the range 0..255.  [&"text"] writes a literal.
    - [os.path] is [posixpath] and [pathlib.Path] is [PosixPath].
    - A [Path] is the list of its [parts] (the anchor ["/"] first when the
      path is absolute), compared lexically: [..] components and symbolic
      links are not resolved by the file-system model.
    - The libraries the script calls (urllib.parse, requests, BeautifulSoup)
      are the fields of an environment [Env]; every general theorem holds for
      all environments.  [py_env] is a concrete environment, written after
      CPython's urllib.parse, on which examples are evaluated. *)

From stdpp Require Import base decidable option list gmap sets strings.
From Stdlib Require Import Ascii ZArith Lia.

Open Scope list_scope.

(** ** Strings *)

Abbreviation str := (list ascii).

Notation "& s" := (String.list_ascii_of_string s%string) (at level 1, format "& s").

Definition chr (n : nat) : ascii := ascii_of_nat n.
Definition ord (c : ascii) : nat := nat_of_ascii c.

Definition ceq (a b : ascii) : bool := bool_decide (a = b).

Definition in_range (lo hi : nat) (c : ascii) : bool :=
  (lo <=? ord c) && (ord c <=? hi).

Definition is_upper (c : ascii) : bool := in_range 65 90 c.
Definition is_lower (c : ascii) : bool := in_range 97 122 c.
Definition is_digit (c : ascii) : bool := in_range 48 57 c.
Definition is_ascii_alpha (c : ascii) : bool := is_upper c || is_lower c.

(** [str.lower] on the characters 0..255: A-Z and the Latin-1 capitals
    (all of 192..222 but the multiplication sign 215) move up by 32. *)
Definition lower_char (c : ascii) : ascii :=
  if is_upper c || (in_range 192 222 c && negb (ord c =? 215))
  then chr (ord c + 32) else c.

Definition lower (s : str) : str := map lower_char s.

(** [s.startswith(p)] and [s.endswith(p)]. *)
Definition startswith (s p : str) : bool := bool_decide (p `prefix_of` s).
Definition endswith (s p : str) : bool := bool_decide (p `suffix_of` s).

(** [s.endswith(tuple)]. *)
Definition endswith_any (s : str) (ps : list str) : bool :=
  existsb (endswith s) ps.

(** [c in s] for a one-character [c]. *)
Definition contains (c : ascii) (s : str) : bool := existsb (ceq c) s.

(** [needle in s] for a string [needle]. *)
Fixpoint has_substring (needle s : str) : bool :=
  startswith s needle ||
  match s with
  | [] => false
  | _ :: s' => has_substring needle s'
  end.

(** [s.rfind(c) + 1]: the length of the shortest prefix of [s] that holds
    every [c], and 0 when [c] does not occur. *)
Fixpoint rfind1 (c : ascii) (s : str) : nat :=
  match s with
  | [] => 0
  | x :: s' =>
      match rfind1 c s' with
      | 0 => if ceq x c then 1 else 0
      | S k => S (S k)
      end
  end.

(** [s.find(c)]: [None] stands for -1. *)
Fixpoint find (c : ascii) (s : str) : option nat :=
  match s with
  | [] => None
  | x :: s' => if ceq x c then Some 0 else S <$> find c s'
  end.

Fixpoint lstrip_by (f : ascii -> bool) (s : str) : str :=
  match s with
  | [] => []
  | x :: s' => if f x then lstrip_by f s' else s
  end.

Definition rstrip_by (f : ascii -> bool) (s : str) : str :=
  reverse (lstrip_by f (reverse s)).

Definition strip_by (f : ascii -> bool) (s : str) : str :=
  rstrip_by f (lstrip_by f s).

(** [str.isspace] on 0..255. *)
Definition is_space (c : ascii) : bool :=
  in_range 9 13 c || in_range 28 32 c || (ord c =? 133) || (ord c =? 160).

(** The apostrophe (39) and the double quote (34). *)
Definition is_quote (c : ascii) : bool := (ord c =? 39) || (ord c =? 34).

(** [s.strip()], and [s.strip] with the two quote characters. *)
Definition strip (s : str) : str := strip_by is_space s.
Definition strip_quotes (s : str) : str := strip_by is_quote s.

(** [s.replace(a, b)] for one-character [a] and [b]. *)
Definition replace_char (a b : ascii) (s : str) : str :=
  map (fun c => if ceq c a then b else c) s.

(** [s.split(c)]. *)
Fixpoint split_on (c : ascii) (s : str) : list str :=
  match s with
  | [] => [[]]
  | x :: s' =>
      if ceq x c then [] :: split_on c s'
      else match split_on c s' with
           | h :: t => (x :: h) :: t
           | [] => [[x]]
           end
  end.

(** [sep.join(parts)]. *)
Fixpoint join (sep : str) (l : list str) : str :=
  match l with
  | [] => []
  | [x] => x
  | x :: l' => x ++ sep ++ join sep l'
  end.

(** ** posixpath *)

(** [os.path.basename]: [i = p.rfind('/') + 1; return p[i:]]. *)
Definition basename (p : str) : str := drop (rfind1 "/" p) p.

(** [os.path.dirname]: the head up to the last slash, its trailing slashes
    removed unless it consists of slashes only. *)
Definition dirname (p : str) : str :=
  let head := take (rfind1 "/" p) p in
  if bool_decide (head <> []) && negb (forallb (ceq "/") head)
  then rstrip_by (ceq "/") head
  else head.

(** [os.path.splitext] (genericpath._splitext with sep "/", no altsep):
    split at the last dot when that dot comes after the last slash and
    some character between the slash and the dot is not a dot. *)
Definition splitext (p : str) : str * str :=
  let sep1 := rfind1 "/" p in
  let dot1 := rfind1 "." p in
  if sep1 <? dot1 then
    let dot := dot1 - 1 in
    if existsb (fun c => negb (ceq c ".")) (take (dot - sep1) (drop sep1 p))
    then (take dot p, drop dot p)
    else (p, [])
  else (p, []).

(** ** urllib.parse results *)

Record ParseResult := {
  scheme : str;
  netloc : str;
  path : str;
  params : str;
  query : str;
  fragment : str
}.

(** ** pathlib.PurePosixPath *)

Abbreviation Path := (list str).

(** The anchor of a path string: ["/"], ["//"] for exactly two leading
    slashes, none for a relative path. *)
Definition path_anchor (s : str) : list str :=
  match s with
  | "/"%char :: "/"%char :: "/"%char :: _ => [&"/"]
  | "/"%char :: "/"%char :: _ => [&"//"]
  | "/"%char :: _ => [&"/"]
  | _ => []
  end.

(** The components of a path string: empty and ["."] segments dropped. *)
Definition path_segments (s : str) : list str :=
  filter (fun x => x <> [] /\ x <> &".") (split_on "/" s).

(** [Path(s)]. *)
Definition path_of_str (s : str) : Path := path_anchor s ++ path_segments s.

(** [p / s]: an absolute [s] replaces [p]. *)
Definition path_join (p : Path) (s : str) : Path :=
  match path_anchor s with
  | [] => p ++ path_segments s
  | _ => path_of_str s
  end.

Definition is_anchor (p : Path) : bool :=
  bool_decide (p = []) || bool_decide (p = [&"/"]) || bool_decide (p = [&"//"]).

(** [p.parent]: the parent of an anchor is the anchor. *)
Definition parent (p : Path) : Path :=
  if is_anchor p then p else removelast p.

(** [p.relative_to(base)]: [None] stands for ValueError. *)
Fixpoint relative_to (p base : Path) {struct base} : option Path :=
  match base with
  | [] => Some p
  | b :: base' =>
      match p with
      | x :: p' => if bool_decide (x = b) then relative_to p' base' else None
      | [] => None
      end
  end.

(** [str(p)] for a relative path [p]. *)
Definition str_of_rel (p : Path) : str :=
  match p with
  | [] => &"."
  | _ => join &"/" p
  end.

(** ** The script's pure functions *)

Definition ASSET_EXTENSIONS : list str :=
  [ &".png"; &".jpg"; &".jpeg"; &".gif"; &".webp"; &".svg";
    &".css"; &".js";
    &".woff"; &".woff2"; &".ttf"; &".otf"; &".eot";
    &".ico"; &".mp4"; &".webm" ].

Definition REJECTED_SCHEMES : list str := [ &"data"; &"mailto"; &"javascript" ].

Definition str_in (s : str) (l : list str) : bool := bool_decide (s ∈ l).

(** [re.sub(r"[^0-9A-Za-z._-]", "_", q)]. *)
Definition safe_char (c : ascii) : bool :=
  is_digit c || is_upper c || is_lower c || ceq c "." || ceq c "_" || ceq c "-".

Definition sanitize_query (q : str) : str :=
  map (fun c => if safe_char c then c else "_"%char) q.

Section Pure.

Variable urlparse : str -> ParseResult.

Definition is_absolute_url (u : str) : bool :=
  bool_decide (scheme (urlparse u) <> []).

Definition should_download_asset (url : str) : bool :=
  let parsed := urlparse url in
  if str_in (scheme parsed) REJECTED_SCHEMES then false
  else
    let path := lower (path parsed) in
    endswith_any path ASSET_EXTENSIONS.

(** The file name [asset_local_name] computes, before it is joined to
    the directory. *)
Definition asset_filename (asset_url : str) : str :=
  let parsed := urlparse asset_url in
  let path := path parsed in
  let path := if bool_decide (path = []) then &"/unnamed" else path in
  let filename := basename path in
  let filename := if bool_decide (filename = []) then &"index" else filename in
  let ext := snd (splitext filename) in
  let '(ext, filename) :=
    if bool_decide (ext = []) then (&".bin", filename ++ &".bin")
    else (ext, filename) in
  if bool_decide (query parsed <> []) then
    let safe_q := sanitize_query (query parsed) in
    fst (splitext filename) ++ &"_" ++ safe_q ++ ext
  else filename.

(** The directory part [asset_local_name] takes from the URL path. *)
Definition asset_dir_part (asset_url : str) : str :=
  let parsed := urlparse asset_url in
  let path := path parsed in
  let path := if bool_decide (path = []) then &"/unnamed" else path in
  dirname (lstrip_by (ceq "/") path).

Definition asset_local_name (asset_url : str) (base_dir : Path) : Path :=
  path_join (path_join base_dir (asset_dir_part asset_url))
            (asset_filename asset_url).

End Pure.

(** ** A model of CPython's urllib.parse

    [urlsplit], [urlparse], [urlunparse] and [urljoin] as CPython 3.12
    defines them for [str] arguments, the validation of bracketed hosts
    (which raises ValueError) left out.  The general theorems do not use
    this module: it is the environment examples are evaluated on. *)

Module PyUrl.

Definition uses_relative : list str :=
  [ &""; &"ftp"; &"http"; &"gopher"; &"nntp"; &"imap"; &"wais"; &"file";
    &"https"; &"shttp"; &"mms"; &"prospero"; &"rtsp"; &"rtsps"; &"rtspu";
    &"sftp"; &"svn"; &"svn+ssh"; &"ws"; &"wss" ].

Definition uses_netloc : list str :=
  [ &""; &"ftp"; &"http"; &"gopher"; &"nntp"; &"telnet"; &"imap"; &"wais";
    &"file"; &"mms"; &"https"; &"shttp"; &"snews"; &"prospero"; &"rtsp";
    &"rtsps"; &"rtspu"; &"rsync"; &"svn"; &"svn+ssh"; &"sftp"; &"nfs";
    &"git"; &"git+ssh"; &"ws"; &"wss"; &"itms-services" ].

Definition uses_params : list str :=
  [ &""; &"ftp"; &"hdl"; &"prospero"; &"http"; &"imap"; &"https"; &"shttp";
    &"rtsp"; &"rtsps"; &"rtspu"; &"sip"; &"sips"; &"mms"; &"sftp"; &"tel" ].

Definition is_c0_or_space (c : ascii) : bool := ord c <=? 32.

(** Tab, line feed and carriage return are removed from the URL. *)
Definition is_unsafe (c : ascii) : bool :=
  (ord c =? 9) || (ord c =? 10) || (ord c =? 13).

Definition is_scheme_char (c : ascii) : bool :=
  is_ascii_alpha c || is_digit c || ceq c "+" || ceq c "-" || ceq c ".".

(** [s.split(c, 1)] when [c] occurs in [s]; [(s, "")] otherwise. *)
Fixpoint split1 (c : ascii) (s : str) : str * str :=
  match s with
  | [] => ([], [])
  | x :: s' =>
      if ceq x c then ([], s')
      else let '(a, b) := split1 c s' in (x :: a, b)
  end.

(** [_splitnetloc(url, 2)] applied to [url[2:]]: cut at the first of
    [/], [?] and [#]. *)
Fixpoint splitnetloc (s : str) : str * str :=
  match s with
  | [] => ([], [])
  | x :: s' =>
      if ceq x "/" || ceq x "?" || ceq x "#" then ([], s)
      else let '(a, b) := splitnetloc s' in (x :: a, b)
  end.

Definition urlsplit (url default_scheme : str) : ParseResult :=
  let url := lstrip_by is_c0_or_space url in
  let default_scheme := strip_by is_c0_or_space default_scheme in
  let url := filter (fun c => negb (is_unsafe c)) url in
  let default_scheme := filter (fun c => negb (is_unsafe c)) default_scheme in
  let '(sch, url) :=
    match find ":" url, url with
    | Some (S i), c0 :: _ =>
        if is_ascii_alpha c0 && forallb is_scheme_char (take (S i) url)
        then (lower (take (S i) url), drop (S (S i)) url)
        else (default_scheme, url)
    | _, _ => (default_scheme, url)
    end in
  let '(nl, url) :=
    if startswith url &"//" then splitnetloc (drop 2 url) else ([], url) in
  let '(url, frag) := split1 "#" url in
  let '(url, q) := split1 "?" url in
  {| scheme := sch; netloc := nl; path := url; params := [];
     query := q; fragment := frag |}.

(** [_splitparams]: the parameters follow the first [;] of the last
    path segment. *)
Definition splitparams (url : str) : str * str :=
  let last := rfind1 "/" url in
  let start := last - 1 in
  match find ";" (drop start url) with
  | Some i => (take (start + i) url, drop (S (start + i)) url)
  | None => (url, [])
  end.

Definition urlparse_with (url default_scheme : str) : ParseResult :=
  let r := urlsplit url default_scheme in
  if str_in (scheme r) uses_params && contains ";" (path r) then
    let '(p, ps) := splitparams (path r) in
    {| scheme := scheme r; netloc := netloc r; path := p; params := ps;
       query := query r; fragment := fragment r |}
  else r.

Definition urlparse (url : str) : ParseResult := urlparse_with url [].

Definition urlunsplit (sch nl url q frag : str) : str :=
  let url :=
    if bool_decide (nl <> []) ||
       (bool_decide (sch <> []) && str_in sch uses_netloc
        && negb (startswith url &"//"))
    then
      let url :=
        if bool_decide (url <> []) && negb (startswith url &"/")
        then &"/" ++ url else url in
      &"//" ++ nl ++ url
    else url in
  let url := if bool_decide (sch <> []) then sch ++ &":" ++ url else url in
  let url := if bool_decide (q <> []) then url ++ &"?" ++ q else url in
  if bool_decide (frag <> []) then url ++ &"#" ++ frag else url.

Definition urlunparse (r : ParseResult) : str :=
  let url :=
    if bool_decide (params r <> []) then path r ++ &";" ++ params r
    else path r in
  urlunsplit (scheme r) (netloc r) url (query r) (fragment r).

(** The loop of [urljoin] that removes dot segments. *)
Fixpoint resolve_segments (segs resolved : list str) : list str :=
  match segs with
  | [] => resolved
  | seg :: segs' =>
      if bool_decide (seg = &"..") then resolve_segments segs' (removelast resolved)
      else if bool_decide (seg = &".") then resolve_segments segs' resolved
      else resolve_segments segs' (resolved ++ [seg])
  end.

(** [segments[1:-1] = filter(None, segments[1:-1])]. *)
Definition filter_middle (segs : list str) : list str :=
  match segs with
  | [] => []
  | [x] => [x]
  | x :: rest =>
      x :: filter (fun s => s <> []) (removelast rest)
        ++ [List.last rest []]
  end.

Definition urljoin (base url : str) : str :=
  if bool_decide (base = []) then url
  else if bool_decide (url = []) then base
  else
    let b := urlparse base in
    let u := urlparse_with url (scheme b) in
    if bool_decide (scheme u <> scheme b)
       || negb (str_in (scheme u) uses_relative)
    then url
    else
      let with_netloc :=
        str_in (scheme u) uses_netloc && bool_decide (netloc u <> []) in
      if with_netloc then urlunparse u
      else
        let nl := if str_in (scheme u) uses_netloc then netloc b else netloc u in
        if bool_decide (path u = []) && bool_decide (params u = []) then
          urlunparse
            {| scheme := scheme u; netloc := nl; path := path b;
               params := params b;
               query := if bool_decide (query u = []) then query b else query u;
               fragment := fragment u |}
        else
          let base_parts := split_on "/" (path b) in
          let base_parts :=
            if bool_decide (List.last base_parts [] <> [])
            then removelast base_parts else base_parts in
          let segments :=
            if startswith (path u) &"/" then split_on "/" (path u)
            else filter_middle (base_parts ++ split_on "/" (path u)) in
          let resolved := resolve_segments segments [] in
          let resolved :=
            if str_in (List.last segments []) [ &"."; &".." ]
            then resolved ++ [[]] else resolved in
          let joined := join &"/" resolved in
          urlunparse
            {| scheme := scheme u; netloc := nl;
               path := if bool_decide (joined = []) then &"/" else joined;
               params := params u; query := query u;
               fragment := fragment u |}.

End PyUrl.

(** ** The file system *)

Record FS := {
  files : gmap Path str;
  dirs : gset Path
}.

Definition is_file (fs : FS) (p : Path) : bool :=
  bool_decide (is_Some (files fs !! p)).

Definition is_dir (fs : FS) (p : Path) : bool :=
  is_anchor p || bool_decide (p ∈ dirs fs).

(** [p.exists()]. *)
Definition path_exists (fs : FS) (p : Path) : bool :=
  is_file fs p || is_dir fs p.

(** The path and its ancestors, shortest first. *)
Definition prefixes (p : Path) : list Path :=
  map (fun n => take n p) (seq 1 (length p)).

(** ** Exceptions, responses, events *)

Inductive Exn :=
| RequestException (msg : str)
| OSError (msg : str)
| ValueError (msg : str).

(** [str(e)]. *)
Definition exn_msg (e : Exn) : str :=
  match e with
  | RequestException m | OSError m | ValueError m => m
  end.

Inductive Result (A : Type) :=
| Ok (a : A)
| Raise (e : Exn).
Arguments Ok {A} a.
Arguments Raise {A} e.

(** A response of [requests]: [content] is the body, [text] the decoded
    body, [error_text] the text of the HTTPError that [raise_for_status]
    raises when the status is an error status. *)
Record Response := {
  status : nat;
  content : str;
  text : str;
  error_text : str
}.

(** What the run does to the outside: every GET, with the file system as
    it was when the request was issued, and every line printed. *)
Inductive Event :=
| EvGet (url : str) (snapshot : FS)
| EvPrint (msg : str).

Record World := {
  fs : FS;
  log : list Event
}.

Definition requests (l : list Event) : list str :=
  omap (fun e => match e with EvGet u _ => Some u | EvPrint _ => None end) l.

(** ** The parsed document

    The tags of the tree in document order.  [attrs] keeps the attributes
    in their order; [tag_string] is [tag.string]. *)

Record Tag := {
  tag_name : str;
  attrs : list (str * str);
  tag_string : option str
}.

Abbreviation Doc := (list Tag).

Fixpoint assoc_get (k : str) (l : list (str * str)) : option str :=
  match l with
  | [] => None
  | (k', v) :: l' => if bool_decide (k' = k) then Some v else assoc_get k l'
  end.

Fixpoint assoc_set (k v : str) (l : list (str * str)) : list (str * str) :=
  match l with
  | [] => [(k, v)]
  | (k', v') :: l' =>
      if bool_decide (k' = k) then (k, v) :: l' else (k', v') :: assoc_set k v l'
  end.

(** [tag.get(k)] and [tag[k] = v]. *)
Definition tag_get (k : str) (t : Tag) : option str := assoc_get k (attrs t).

Definition tag_set (k v : str) (t : Tag) : Tag :=
  {| tag_name := tag_name t; attrs := assoc_set k v (attrs t);
     tag_string := tag_string t |}.

Definition set_string (v : str) (t : Tag) : Tag :=
  {| tag_name := tag_name t; attrs := attrs t; tag_string := Some v |}.

(** The positions of the tags a [find_all] call returns. *)
Definition find_positions (f : Tag -> bool) (doc : Doc) : list nat :=
  List.filter (fun i => match doc !! i with Some t => f t | None => false end)
              (seq 0 (length doc)).

(** [soup.find_all(name)]. *)
Definition find_all (name : str) (doc : Doc) : list nat :=
  find_positions (fun t => bool_decide (tag_name t = name)) doc.

(** [soup.find_all(style=True)]. *)
Definition find_all_styled (doc : Doc) : list nat :=
  find_positions (fun t => bool_decide (is_Some (tag_get &"style" t))) doc.

(** [soup.find_all("link", rel=lambda v: v and "stylesheet" in v)]. *)
Definition is_stylesheet_link (t : Tag) : bool :=
  bool_decide (tag_name t = &"link") &&
  match tag_get &"rel" t with
  | Some v => has_substring &"stylesheet" v
  | None => false
  end.

Definition find_all_stylesheets (doc : Doc) : list nat :=
  find_positions is_stylesheet_link doc.

(** ** The environment: the libraries and the network *)

Record Env := {
  env_urlparse : str -> ParseResult;
  env_urljoin : str -> str -> str;
  (** [SESSION.get(url, timeout=20)] after the given earlier requests:
      an exception or a response. *)
  env_get : list str -> str -> Result Response;
  (** [BeautifulSoup(html, "lxml")] and [str(soup)]. *)
  env_parse : str -> Doc;
  env_serialize : Doc -> str
}.

(** ** The monad of the script: state and exceptions *)

Definition M (A : Type) : Type := World -> World * Result A.

Definition ret {A} (a : A) : M A := fun w => (w, Ok a).

Definition raise {A} (e : Exn) : M A := fun w => (w, Raise e).

Definition bind {A B} (m : M A) (k : A -> M B) : M B :=
  fun w =>
    match m w with
    | (w', Ok a) => k a w'
    | (w', Raise e) => (w', Raise e)
    end.

(** [try: m  except Exception as e: h e]. *)
Definition try_catch {A} (m : M A) (h : Exn -> M A) : M A :=
  fun w =>
    match m w with
    | (w', Ok a) => (w', Ok a)
    | (w', Raise e) => h e w'
    end.

Notation "'let*' x ':=' m 'in' k" := (bind m (fun x => k))
  (at level 10, x name, m at level 100, k at level 200).
Notation "m ;; k" := (bind m (fun _ => k))
  (at level 100, k at level 200, right associativity).

(** [for x in xs: s = body x s]. *)
Fixpoint for_each {A S} (body : A -> S -> M S) (xs : list A) (s : S) : M S :=
  match xs with
  | [] => ret s
  | x :: xs' => let* s' := body x s in for_each body xs' s'
  end.

Definition print (msg : str) : M unit :=
  fun w => ({| fs := fs w; log := log w ++ [EvPrint msg] |}, Ok tt).

Definition exists_ (p : Path) : M bool :=
  fun w => (w, Ok (path_exists (fs w) p)).

(** [path.mkdir(parents=True, exist_ok=True)]: fails when the path or an
    ancestor is a regular file, creates every missing ancestor otherwise. *)
Definition ensure_dir (p : Path) : M unit :=
  fun w =>
    if existsb (is_file (fs w)) (prefixes p)
    then (w, Raise (OSError &"FileExistsError"))
    else ({| fs := {| files := files (fs w);
                      dirs := list_to_set (prefixes p) ∪ dirs (fs w) |};
             log := log w |}, Ok tt).

(** [open(p, "w") ... f.write(data)]: fails on a directory and when the
    parent directory is missing. *)
Definition write_file (p : Path) (data : str) : M unit :=
  fun w =>
    if is_dir (fs w) p then (w, Raise (OSError &"IsADirectoryError"))
    else if negb (is_dir (fs w) (parent p))
    then (w, Raise (OSError &"FileNotFoundError"))
    else ({| fs := {| files := <[p := data]> (files (fs w));
                      dirs := dirs (fs w) |};
             log := log w |}, Ok tt).

(** [resp.raise_for_status()]. *)
Definition raise_for_status (r : Response) : M unit :=
  if (400 <=? status r) && (status r <? 600)
  then raise (RequestException (error_text r))
  else ret tt.

(** [str(p)] for any path. *)
Definition str_of_path (p : Path) : str :=
  match p with
  | [] => &"."
  | a :: rest =>
      if is_anchor [a] then a ++ join &"/" rest else join &"/" p
  end.

(** [str(p.relative_to(base)).replace(os.sep, "/")]. *)
Definition relative_str (p base : Path) : M str :=
  match relative_to p base with
  | Some r => ret (replace_char "/" "/" (str_of_rel r))
  | None => raise (ValueError &"not in the subpath")
  end.

(** ** The regular expression [url\((.*?)\)] with IGNORECASE *)

(** One piece of the text [re.sub] walks over: a character outside every
    match, or a match with its whole text and its group 1. *)
Inductive Segment :=
| Lit (c : ascii)
| UrlMatch (whole : str) (group1 : str).

(** The shortest run of characters other than the line feed that a closing
    parenthesis follows: what [(.*?)\)] matches at the head of [s]. *)
Fixpoint scan_group (s : str) : option str :=
  match s with
  | [] => None
  | c :: s' =>
      if ceq c ")" then Some []
      else if ord c =? 10 then None
      else cons c <$> scan_group s'
  end.

(** The match of the pattern at the head of [s]: its group 1. *)
Definition match_at (s : str) : option str :=
  match s with
  | u :: r :: l :: p :: rest =>
      if (ceq u "u" || ceq u "U") && (ceq r "r" || ceq r "R")
         && (ceq l "l" || ceq l "L") && ceq p "("
      then scan_group rest
      else None
  | _ => None
  end.

(** The leftmost non-overlapping matches of the pattern in [s], and the
    characters between them; [skip] counts the characters of the current
    match that are still to be passed over. *)
Fixpoint css_segments (skip : nat) (s : str) : list Segment :=
  match s with
  | [] => []
  | c :: s' =>
      match skip with
      | S k => css_segments k s'
      | 0 =>
          match match_at s with
          | Some g =>
              UrlMatch (take (length g + 5) s) g :: css_segments (length g + 4) s'
          | None => Lit c :: css_segments 0 s'
          end
      end
  end.

(** ** The script's effectful functions *)

Section Script.

Variable E : Env.

Definition session_get (url : str) : M Response :=
  fun w =>
    let w' := {| fs := fs w; log := log w ++ [EvGet url (fs w)] |} in
    (w', env_get E (requests (log w)) url).

Definition download_file (url : str) (target : Path) : M unit :=
  ensure_dir (parent target) ;;
  let* resp := session_get url in
  raise_for_status resp ;;
  write_file target (content resp).

Section Rewrite.

Variables (base_url : str) (assets_dir : Path) (public_prefix : str).

(** The function [repl] of [rewrite_css_urls], applied to a match. *)
Definition repl (whole group1 : str) : M str :=
  let raw := strip_quotes (strip group1) in
  if bool_decide (raw = []) || startswith raw &"data:" then ret whole
  else
    let full_url := env_urljoin E base_url raw in
    if negb (should_download_asset (env_urlparse E) full_url)
    then ret (&"url(" ++ raw ++ &")")
    else
      let local_path := asset_local_name (env_urlparse E) full_url assets_dir in
      let* present := exists_ local_path in
      (if present then ret tt
       else print (&"[CSS] Lade " ++ full_url) ;;
            download_file full_url local_path) ;;
      let* rel := relative_str local_path assets_dir in
      let rel_for_server := public_prefix ++ &"/" ++ rel in
      ret (&"url('" ++ rel_for_server ++ &"')").

(** [url_pattern.sub(repl, ...)] over the segments of the text. *)
Fixpoint sub_segments (segs : list Segment) : M str :=
  match segs with
  | [] => ret []
  | Lit c :: rest =>
      let* out := sub_segments rest in ret (c :: out)
  | UrlMatch whole group1 :: rest =>
      let* r := repl whole group1 in
      let* out := sub_segments rest in
      ret (r ++ out)
  end.

Definition rewrite_css_urls (css_text : str) : M str :=
  sub_segments (css_segments 0 css_text).

End Rewrite.

Section Page.

Variables (start_url : str) (assets_dir : Path) (public_asset_prefix : str).

Definition tag_attr_pairs : list (str * str) :=
  [ (&"img", &"src"); (&"script", &"src"); (&"link", &"href");
    (&"source", &"src"); (&"video", &"src"); (&"audio", &"src") ].

(** The body of the inner loop of phase 1, for the tag at position [i]. *)
Definition direct_step (attr : str) (i : nat) (doc : Doc) : M Doc :=
  match doc !! i with
  | None => ret doc
  | Some tag =>
      match tag_get attr tag with
      | None => ret doc
      | Some url_val =>
          if bool_decide (url_val = []) then ret doc
          else
            let full_url := env_urljoin E start_url url_val in
            if negb (should_download_asset (env_urlparse E) full_url)
            then ret doc
            else
              let local_path :=
                asset_local_name (env_urlparse E) full_url assets_dir in
              let* present := exists_ local_path in
              let* go_on :=
                (if present then ret true
                 else
                   print (&"[HTML] Lade " ++ full_url) ;;
                   try_catch
                     (download_file full_url local_path ;; ret true)
                     (fun e =>
                        print (&"Fehler beim Download " ++ full_url
                               ++ &": " ++ exn_msg e) ;;
                        ret false)) in
              if go_on then
                let* rel := relative_str local_path assets_dir in
                let new_url := public_asset_prefix ++ &"/" ++ rel in
                ret (<[i := tag_set attr new_url tag]> doc)
              else ret doc
      end
  end.

(** Phase 1: assets referenced by attributes. *)
Definition direct_phase (doc : Doc) : M Doc :=
  for_each
    (fun '(tag_name, attr) doc =>
       for_each (direct_step attr) (find_all tag_name doc) doc)
    tag_attr_pairs doc.

(** Phase 2, first loop: the text of [style] elements. *)
Definition style_tag_step (i : nat) (doc : Doc) : M Doc :=
  match doc !! i with
  | None => ret doc
  | Some style_tag =>
      match tag_string style_tag with
      | None => ret doc
      | Some css =>
          if bool_decide (css = []) then ret doc
          else
            let* new_css :=
              rewrite_css_urls start_url assets_dir public_asset_prefix css in
            ret (<[i := set_string new_css style_tag]> doc)
      end
  end.

(** Phase 2, second loop: [style] attributes. *)
Definition style_attr_step (i : nat) (doc : Doc) : M Doc :=
  match doc !! i with
  | None => ret doc
  | Some tag =>
      match tag_get &"style" tag with
      | None => ret doc
      | Some css_inline =>
          let* new_css :=
            rewrite_css_urls start_url assets_dir public_asset_prefix
                             css_inline in
          ret (<[i := tag_set &"style" new_css tag]> doc)
      end
  end.

Definition style_phase (doc : Doc) : M Doc :=
  let* doc := for_each style_tag_step (find_all &"style" doc) doc in
  for_each style_attr_step (find_all_styled doc) doc.

(** Phase 3: the body of the loop over stylesheet links. *)
Definition stylesheet_step (i : nat) (doc : Doc) : M Doc :=
  match doc !! i with
  | None => ret doc
  | Some link =>
      match tag_get &"href" link with
      | None => ret doc
      | Some href =>
          if bool_decide (href = []) then ret doc
          else
            let css_url := env_urljoin E start_url href in
            if negb (should_download_asset (env_urlparse E) css_url)
            then ret doc
            else
              let local_css_path :=
                asset_local_name (env_urlparse E) css_url assets_dir in
              let* present := exists_ local_css_path in
              let* go_on :=
                (if present then ret true
                 else
                   print (&"[CSS] Lade & verarbeite " ++ css_url) ;;
                   try_catch
                     (let* css_resp := session_get css_url in
                      raise_for_status css_resp ;;
                      let* new_css :=
                        rewrite_css_urls css_url assets_dir
                                         public_asset_prefix (text css_resp) in
                      ensure_dir (parent local_css_path) ;;
                      write_file local_css_path new_css ;;
                      ret true)
                     (fun e =>
                        print (&"Fehler bei CSS " ++ css_url
                               ++ &": " ++ exn_msg e) ;;
                        ret false)) in
              if go_on then
                let* rel := relative_str local_css_path assets_dir in
                let new_href := public_asset_prefix ++ &"/" ++ rel in
                ret (<[i := tag_set &"href" new_href link]> doc)
              else ret doc
      end
  end.

Definition stylesheet_phase (doc : Doc) : M Doc :=
  for_each stylesheet_step (find_all_stylesheets doc) doc.

(** Phases 1 to 3: everything [process_page] does to the tree. *)
Definition rewrite_document (doc : Doc) : M Doc :=
  let* doc := direct_phase doc in
  let* doc := style_phase doc in
  stylesheet_phase doc.

End Page.

Definition process_page (start_url out_dir public_asset_prefix html_name : str)
  : M unit :=
  let base_output := path_of_str out_dir in
  ensure_dir base_output ;;
  let assets_dir := path_join base_output &"assets" in
  print (&"Lade HTML: " ++ start_url) ;;
  let* resp := session_get start_url in
  raise_for_status resp ;;
  let html := text resp in
  let soup := env_parse E html in
  let* soup := rewrite_document start_url assets_dir public_asset_prefix soup in
  let out_html_path := path_join base_output html_name in
  write_file out_html_path (env_serialize E soup) ;;
  print (&"Fertig. HTML: " ++ str_of_path out_html_path
         ++ &", Assets unter: " ++ str_of_path assets_dir).

End Script.

(** ** A concrete environment

    urllib.parse as modelled in [PyUrl]; a network that serves a fixed
    table of URLs with status 200 and answers 404 for every other URL; a
    parser given as a function; a plain serializer. *)

Definition ok_response (body : str) : Response :=
  {| status := 200; content := body; text := body; error_text := [] |}.

Definition not_found (url : str) : Response :=
  {| status := 404; content := []; text := [];
     error_text := &"404 Client Error: Not Found for url: " ++ url |}.

Definition site_get (site : list (str * str)) (_ : list str) (url : str)
  : Result Response :=
  match assoc_get url site with
  | Some body => Ok (ok_response body)
  | None => Ok (not_found url)
  end.

(** A network on which every request fails to connect. *)
Definition offline_get (_ : list str) (_ : str) : Result Response :=
  Raise (RequestException &"ConnectionError").

Definition render_attr (kv : str * str) : str :=
  &" " ++ fst kv ++ &"=" ++ [chr 34] ++ snd kv ++ [chr 34].

Definition render_tag (t : Tag) : str :=
  &"<" ++ tag_name t ++ concat (map render_attr (attrs t)) ++ &">"
  ++ default [] (tag_string t).

Definition render_doc (doc : Doc) : str := concat (map render_tag doc).

Definition py_env (get : list str -> str -> Result Response) (parse : str -> Doc)
  : Env :=
  {| env_urlparse := PyUrl.urlparse;
     env_urljoin := PyUrl.urljoin;
     env_get := get;
     env_parse := parse;
     env_serialize := render_doc |}.

Definition empty_fs : FS := {| files := ∅; dirs := ∅ |}.
Definition empty_world : World := {| fs := empty_fs; log := [] |}.

(** ** Vocabulary of the statements *)

Definition nondot (c : ascii) : bool := negb (ceq c ".").

(** A non-empty name that consists of dots only. *)
Definition dots_only (s : str) : bool :=
  negb (bool_decide (s = [])) && negb (existsb nondot s).

(** [p.name]: the last component of a path. *)
Definition name (p : Path) : str := List.last p [].

(** The segments of a path string before its last one, empty and ["."]
    segments dropped. *)
Definition dir_segments (s : str) : list str :=
  filter (fun x => x <> [] /\ x <> &".") (removelast (split_on "/" s)).

(** [os.path.normpath] on the components that follow the anchor: a [..]
    removes the component before it; it is kept at the start of a relative
    path and after another [..], and dropped at the root. *)
Fixpoint norm_components (absolute : bool) (comps done : list str) : list str :=
  match comps with
  | [] => done
  | c :: comps' =>
      if bool_decide (c = &"..") then
        match reverse done with
        | [] => norm_components absolute comps'
                  (if absolute then [] else [c])
        | last :: _ =>
            if bool_decide (last = &"..")
            then norm_components absolute comps' (done ++ [c])
            else norm_components absolute comps' (removelast done)
        end
      else norm_components absolute comps' (done ++ [c])
  end.

Definition normpath (p : Path) : Path :=
  match p with
  | a :: rest =>
      if is_anchor [a] then a :: norm_components true rest []
      else norm_components false p []
  | [] => []
  end.

(** The place the path [p] denotes is inside the directory [base]. *)
Definition lies_beneath (p base : Path) : bool :=
  bool_decide (is_Some (relative_to (normpath p) (normpath base))).

(** The recognised extensions in the order the specification lists them. *)
Definition SPEC_EXTENSIONS : list str :=
  [ &".png"; &".jpg"; &".jpeg"; &".gif"; &".webp"; &".svg"; &".ico";
    &".css"; &".js";
    &".woff"; &".woff2"; &".ttf"; &".otf"; &".eot";
    &".mp4"; &".webm" ].

(** Two parsed URLs that differ in their query and in nothing else. *)
Definition same_but_query (a b : ParseResult) : Prop :=
  scheme a = scheme b /\ netloc a = netloc b /\ path a = path b /\
  params a = params b /\ fragment a = fragment b /\ query a <> query b.

Section FilenameParts.

Variable urlparse : str -> ParseResult.

(** The values of the local variables of [asset_local_name] before the
    query is looked at: [path], [filename] as taken from the path,
    [ext], and [filename] with its extension. *)
Definition url_path (url : str) : str :=
  if bool_decide (path (urlparse url) = []) then &"/unnamed"
  else path (urlparse url).

Definition raw_filename (url : str) : str :=
  if bool_decide (basename (url_path url) = []) then &"index"
  else basename (url_path url).

Definition final_ext (url : str) : str :=
  if bool_decide (snd (splitext (raw_filename url)) = []) then &".bin"
  else snd (splitext (raw_filename url)).

Definition named_file (url : str) : str :=
  if bool_decide (snd (splitext (raw_filename url)) = [])
  then raw_filename url ++ &".bin"
  else raw_filename url.

End FilenameParts.

(** The file system [g] holds every path that [f] holds. *)
Definition fs_le (f g : FS) : Prop :=
  forall p, path_exists f p = true -> path_exists g p = true.

(** [m], run in a world that satisfies [P], ends in a world and with a
    result that satisfy [Q]. *)
Definition hoare {A} (P : World -> Prop) (m : M A)
    (Q : Result A -> World -> Prop) : Prop :=
  forall w, P w -> Q (snd (m w)) (fst (m w)).

(** Every value [m] returns satisfies [Q]. *)
Definition yields {A} (m : M A) (Q : A -> Prop) : Prop :=
  forall w a, snd (m w) = Ok a -> Q a.

(** The request fails: no response, or a response with an error status. *)
Definition request_fails (r : Result Response) : Prop :=
  match r with
  | Raise _ => True
  | Ok resp => (400 <=? status resp) && (status resp <? 600) = true
  end.

Definition is_raise {A} (r : Result A) : Prop :=
  match r with Raise _ => True | Ok _ => False end.

(** Vocabulary of the skip-if-exists property. *)
Section SkipIfExistsDefs.

Variables (E : Env) (assets_dir : Path).

(** The local path an asset URL is stored at. *)
Definition download_target (url : str) : Path :=
  asset_local_name (env_urlparse E) url assets_dir.

(** A request for an asset whose local path existed neither when the
    request was issued nor in the file system [f0]. *)
Definition fresh_download (f0 : FS) (e : Event) : Prop :=
  match e with
  | EvGet url snapshot =>
      path_exists snapshot (download_target url) = false
      /\ path_exists f0 (download_target url) = false
  | EvPrint _ => True
  end.

(** The invariant of a run that started with the file system [f0] and the
    log [l0]: the file system has only grown, and every request logged
    since was issued for a path that did not exist. *)
Definition fresh_event (f0 : FS) (e : Event) : Prop :=
  match e with
  | EvGet url snapshot =>
      path_exists snapshot (download_target url) = false /\ fs_le f0 snapshot
  | EvPrint _ => True
  end.

Definition skip_inv (f0 : FS) (l0 : list Event) (w : World) : Prop :=
  fs_le f0 (fs w)
  /\ exists new, log w = l0 ++ new /\ Forall (fresh_event f0) new.

Definition absent (p : Path) (w : World) : Prop :=
  path_exists (fs w) p = false.

(** [m] keeps the invariant. *)
Definition keeps_inv (f0 : FS) (l0 : list Event) {A} (m : M A) : Prop :=
  hoare (skip_inv f0 l0) m (fun _ => skip_inv f0 l0).

End SkipIfExistsDefs.

(** The log [after] a run of [process_page] that started with the log
    [before]: nothing when the output directory could not be made, and
    otherwise the announcement and the request of the page itself followed
    by the events [new]. *)
Definition run_log (start_url : str) (before after new : list Event) : Prop :=
  (after = before /\ new = [])
  \/ exists snapshot,
       after = before ++ [EvPrint (&"Lade HTML: " ++ start_url);
                          EvGet start_url snapshot] ++ new.

(** What [process_page] does with the response to the request of the page:
    the lines of [process_page] from [resp.raise_for_status()] on. *)
Definition page_body (E : Env) (start_url out_dir public_asset_prefix html_name : str)
    (resp : Response) : M unit :=
  let base_output := path_of_str out_dir in
  let assets_dir := path_join base_output &"assets" in
  raise_for_status resp ;;
  let* soup := rewrite_document E start_url assets_dir public_asset_prefix
                                (env_parse E (text resp)) in
  let out_html_path := path_join base_output html_name in
  write_file out_html_path (env_serialize E soup) ;;
  print (&"Fertig. HTML: " ++ str_of_path out_html_path
         ++ &", Assets unter: " ++ str_of_path assets_dir).

(** The world in which the page has been requested. *)
Definition page_requested (start_url : str) (w1 : World) : World :=
  {| fs := fs w1;
     log := log w1 ++ [EvPrint (&"Lade HTML: " ++ start_url);
                       EvGet start_url (fs w1)] |}.

(** The text of the rewriter's result, as the specification words it:
    every character outside a match is kept; a match whose stripped value
    is empty or a [data:] URI is kept; a match the classifier rejects
    becomes [url(<value>)]; every other match becomes
    [url('<public_prefix>/<local path relative to assets_dir>')]. *)
Section RewrittenText.

Variables (E : Env) (base_url : str) (public_prefix : str).

Definition public_path (full_url : str) : str :=
  public_prefix ++ &"/"
    ++ join &"/" (dir_segments (url_path (env_urlparse E) full_url)
                    ++ [asset_filename (env_urlparse E) full_url]).

Definition replacement (whole group1 : str) : str :=
  let raw := strip_quotes (strip group1) in
  if bool_decide (raw = []) || startswith raw &"data:" then whole
  else
    let full_url := env_urljoin E base_url raw in
    if negb (should_download_asset (env_urlparse E) full_url)
    then &"url(" ++ raw ++ &")"
    else &"url('" ++ public_path full_url ++ &"')".

Definition segment_source (seg : Segment) : str :=
  match seg with
  | Lit c => [c]
  | UrlMatch whole _ => whole
  end.

Definition segment_result (seg : Segment) : str :=
  match seg with
  | Lit c => [c]
  | UrlMatch whole group1 => replacement whole group1
  end.

Definition rewritten_text (css_text : str) : str :=
  concat (map segment_result (css_segments 0 css_text)).

End RewrittenText.

(** The world after a line has been printed. *)
Definition printed (msg : str) (w : World) : World :=
  {| fs := fs w; log := log w ++ [EvPrint msg] |}.

(** The value of a match is one the rewriter downloads: not empty, not a
    [data:] URI, and accepted by the classifier once resolved. *)
Definition downloadable (E : Env) (base_url group1 : str) : Prop :=
  let raw := strip_quotes (strip group1) in
  raw <> [] /\ startswith raw &"data:" = false
  /\ should_download_asset (env_urlparse E) (env_urljoin E base_url raw) = true.

(** The resolved URL of a match. *)
Definition resolved (E : Env) (base_url group1 : str) : str :=
  env_urljoin E base_url (strip_quotes (strip group1)).

(** Tag [t'] is tag [t] but for the value of its [style] attribute. *)
Definition same_but_style (t t' : Tag) : Prop :=
  tag_name t' = tag_name t
  /\ tag_string t' = tag_string t
  /\ (forall k, k <> &"style" -> tag_get k t' = tag_get k t)
  /\ (tag_get &"style" t = None -> t' = t).

(** The tag at position [i] is still [t], but for its [style] attribute. *)
Definition kept_at (i : nat) (t : Tag) (doc : Doc) : Prop :=
  exists t', doc !! i = Some t' /\ same_but_style t t'.

(** The value of a match is empty or a [data:] URI. *)
Definition inert_value (group1 : str) : Prop :=
  strip_quotes (strip group1) = []
  \/ startswith (strip_quotes (strip group1)) &"data:" = true.

Definition inert_segment (seg : Segment) : Prop :=
  match seg with
  | Lit _ => True
  | UrlMatch _ g => inert_value g
  end.

(** [m] never raises. *)
Definition total {A} (m : M A) : Prop :=
  forall w, exists a, snd (m w) = Ok a.

(** ** Vocabulary of further properties *)

(** A tag none of the three phases looks at: its name is not one of the
    names of [tag_attr_pairs], it is not a [style] element, and it carries
    no [style] attribute. *)
Definition plain_tag (t : Tag) : bool :=
  negb (str_in (tag_name t)
          [ &"img"; &"script"; &"link"; &"source"; &"video"; &"audio"; &"style" ])
  && negb (bool_decide (is_Some (tag_get &"style" t))).

(** Tag [t'] is tag [t] but for the values of its [src], [href] and
    [style] attributes and, for a [style] element, its text. *)
Definition tag_rewritten (t t' : Tag) : Prop :=
  tag_name t' = tag_name t
  /\ map fst (attrs t') = map fst (attrs t)
  /\ (forall k, k <> &"src" -> k <> &"href" -> k <> &"style" ->
                tag_get k t' = tag_get k t)
  /\ (tag_name t <> &"style" -> tag_string t' = tag_string t).

(** Document [doc'] has the tags of [doc], each one rewritten. *)
Definition doc_rewritten (doc doc' : Doc) : Prop :=
  Forall2 tag_rewritten doc doc'.

(** The invariant of a run that started with the file system [f0] and the
    log [l0] and whose page is written to [html]: no path has disappeared,
    every directory is still one, every file but [html] holds what it held, and every request logged
    since is one for a URL the classifier accepts. *)
Section RunInvariant.

Variables (E : Env) (f0 : FS) (l0 : list Event) (html : Path).

Definition asset_request (e : Event) : Prop :=
  match e with
  | EvGet url _ => should_download_asset (env_urlparse E) url = true
  | EvPrint _ => True
  end.

Definition files_kept (f : FS) : Prop :=
  forall p c, files f0 !! p = Some c -> p <> html -> files f !! p = Some c.

Definition run_inv (w : World) : Prop :=
  fs_le f0 (fs w)
  /\ dirs f0 ⊆ dirs (fs w)
  /\ files_kept (fs w)
  /\ exists new, log w = l0 ++ new /\ Forall asset_request new.

Definition keeps_run {A} (m : M A) : Prop :=
  hoare run_inv m (fun _ => run_inv).

End RunInvariant.

(** * Properties *)

(** ** Strings *)

Lemma ceq_true a b : ceq a b = true <-> a = b.
Proof. unfold ceq. by rewrite bool_decide_eq_true. Qed.

Lemma ceq_refl a : ceq a a = true.
Proof. by apply ceq_true. Qed.

Lemma ceq_false a b : ceq a b = false <-> a <> b.
Proof. unfold ceq. by rewrite bool_decide_eq_false. Qed.

Lemma rfind1_zero c s : rfind1 c s = 0 <-> c ∉ s.
Proof.
  induction s as [|x s IH]; simpl.
  - split; [intros _; apply not_elem_of_nil | done].
  - destruct (rfind1 c s) as [|k].
    + destruct (ceq x c) eqn:Hx.
      * apply ceq_true in Hx as ->. split; [done|].
        intros H. exfalso. apply H. left.
      * apply ceq_false in Hx. split; [intros _|done].
        apply not_elem_of_cons. split; [congruence | by apply IH].
    + split; [done|]. intros [_ H]%not_elem_of_cons. by apply IH in H.
Qed.

Lemma rfind1_le c s : rfind1 c s <= length s.
Proof.
  induction s as [|x s IH]; simpl; [lia|].
  destruct (rfind1 c s); [destruct (ceq x c)|]; lia.
Qed.

Lemma rfind1_drop c s : c ∉ drop (rfind1 c s) s.
Proof.
  induction s as [|x s IH]; simpl; [apply not_elem_of_nil|].
  destruct (rfind1 c s) as [|k] eqn:Hr; [|done].
  apply rfind1_zero in Hr.
  destruct (ceq x c) eqn:Hx; simpl; [done|].
  apply ceq_false in Hx. apply not_elem_of_cons. split; [congruence|done].
Qed.

Lemma rfind1_lookup c s k : rfind1 c s = S k -> s !! k = Some c.
Proof.
  revert k. induction s as [|x s IH]; intros k; simpl; [done|].
  destruct (rfind1 c s) as [|j] eqn:Hr.
  - destruct (ceq x c) eqn:Hx; [|done].
    apply ceq_true in Hx as ->. by intros [= <-].
  - intros [= <-]. simpl. by apply IH.
Qed.

Lemma rfind1_app_last c s e : c ∉ e -> rfind1 c (s ++ c :: e) = S (length s).
Proof.
  intros He. induction s as [|x s IH]; simpl.
  - apply rfind1_zero in He. by rewrite He, ceq_refl.
  - by rewrite IH.
Qed.

Lemma basename_no_slash p : "/"%char ∉ basename p.
Proof. apply rfind1_drop. Qed.

Lemma lstrip_by_suffix f s : lstrip_by f s `suffix_of` s.
Proof.
  induction s as [|x s IH]; simpl; [done|].
  destruct (f x); [by apply suffix_cons_r | done].
Qed.

Lemma lstrip_by_head f s x s' : lstrip_by f s = x :: s' -> f x = false.
Proof.
  induction s as [|y s IH]; simpl; [done|].
  destruct (f y) eqn:Hy; [done|]. by intros [= <- <-].
Qed.

Lemma rstrip_by_prefix f s : rstrip_by f s `prefix_of` s.
Proof.
  unfold rstrip_by. apply prefix_suffix_reverse.
  rewrite reverse_involutive. apply lstrip_by_suffix.
Qed.

Lemma dirname_prefix p : dirname p `prefix_of` p.
Proof.
  unfold dirname.
  destruct (_ && _).
  - etrans; [apply rstrip_by_prefix|]. apply prefix_take.
  - apply prefix_take.
Qed.

(** ** splitext *)


Lemma splitext_app p : fst (splitext p) ++ snd (splitext p) = p.
Proof.
  unfold splitext. destruct (_ <? _); [|by rewrite app_nil_r].
  destruct (existsb _ _); simpl; [apply take_drop | by rewrite app_nil_r].
Qed.

(** A suffix [.e] without further dots is split off a slash-free name
    exactly when some character before it is not a dot. *)
Lemma splitext_snoc s e :
  "/"%char ∉ s -> "/"%char ∉ e -> "."%char ∉ e ->
  splitext (s ++ "."%char :: e) =
    if existsb nondot s then (s, "."%char :: e) else (s ++ "."%char :: e, []).
Proof.
  intros Hs He Hd. unfold splitext.
  assert (rfind1 "/" (s ++ "."%char :: e) = 0) as ->.
  { apply rfind1_zero.
    intros [H|[H|H]%elem_of_cons]%elem_of_app; [by apply Hs|done|by apply He]. }
  rewrite rfind1_app_last by done. simpl.
  rewrite !Nat.sub_0_r, drop_0, take_app_length, drop_app_length. done.
Qed.

(** A non-empty extension is a dot followed by characters that are neither
    dots nor slashes, and the stem of a slash-free name then holds a
    character other than the dot. *)
Lemma splitext_ext_shape p :
  snd (splitext p) <> [] ->
  exists e, snd (splitext p) = "."%char :: e /\ ("."%char ∉ e) /\ ("/"%char ∉ e)
            /\ ("/"%char ∉ p -> existsb nondot (fst (splitext p)) = true).
Proof.
  unfold splitext.
  destruct (rfind1 "/" p <? rfind1 "." p) eqn:Hlt; [|done].
  apply Nat.ltb_lt in Hlt.
  destruct (rfind1 "." p) as [|k] eqn:Hdot; [lia|].
  simpl. rewrite Nat.sub_0_r.
  destruct (existsb _ _) eqn:Hex; [|done]. simpl. intros _.
  exists (drop (S k) p). split; [|split; [|split]].
  - by apply drop_S, rfind1_lookup.
  - rewrite <- Hdot. apply rfind1_drop.
  - intros Hin. apply (rfind1_drop "/" p).
    replace (S k) with (rfind1 "/" p + (S k - rfind1 "/" p)) in Hin by lia.
    rewrite <- drop_drop in Hin. by apply subseteq_drop in Hin.
  - intros Hp. apply rfind1_zero in Hp. rewrite Hp in Hex.
    by rewrite Nat.sub_0_r in Hex.
Qed.

(** ** The file name and the directory of a local path *)

(** Closed decidable facts are settled by evaluation. *)
Ltac by_compute := apply (bool_decide_unpack _); vm_compute; exact I.

Lemma sanitize_no_slash q : "/"%char ∉ sanitize_query q.
Proof.
  unfold sanitize_query. intros (c & Hc & _)%list_elem_of_fmap.
  destruct (safe_char c) eqn:Hs; [|done]. subst c. done.
Qed.

Lemma existsb_nondot_app a b :
  existsb nondot (a ++ b) = existsb nondot a || existsb nondot b.
Proof. apply existsb_app. Qed.

Section FilenameProps.

Variable urlparse : str -> ParseResult.

Lemma asset_filename_eq url :
  asset_filename urlparse url =
    if bool_decide (query (urlparse url) <> [])
    then fst (splitext (named_file urlparse url)) ++ &"_"
           ++ sanitize_query (query (urlparse url)) ++ final_ext urlparse url
    else named_file urlparse url.
Proof.
  unfold asset_filename, named_file, final_ext, raw_filename, url_path.
  repeat case_bool_decide; done.
Qed.

Lemma asset_dir_part_eq url :
  asset_dir_part urlparse url =
    dirname (lstrip_by (ceq "/") (url_path urlparse url)).
Proof. done. Qed.

Lemma raw_filename_no_slash url : "/"%char ∉ raw_filename urlparse url.
Proof.
  unfold raw_filename. case_bool_decide; [|apply basename_no_slash].
  by_compute.
Qed.

Lemma raw_filename_nonempty url : raw_filename urlparse url <> [].
Proof. unfold raw_filename. by case_bool_decide. Qed.

Lemma final_ext_shape url :
  exists e, final_ext urlparse url = "."%char :: e
            /\ ("."%char ∉ e) /\ ("/"%char ∉ e).
Proof.
  unfold final_ext. case_bool_decide as Hext.
  - exists &"bin". split; [done|]. split; by_compute.
  - destruct (splitext_ext_shape _ Hext) as (e & He & ? & ? & _). eauto.
Qed.

(** The name with its extension is a slash-free stem followed by the
    extension; the extension is the default one or the stem holds a
    character other than the dot. *)
Lemma named_file_split url :
  exists s, named_file urlparse url = s ++ final_ext urlparse url
            /\ ("/"%char ∉ s) /\ s <> []
            /\ (final_ext urlparse url = &".bin" \/ existsb nondot s = true).
Proof.
  unfold named_file, final_ext. case_bool_decide as Hext.
  - exists (raw_filename urlparse url).
    split; [done|]. split; [apply raw_filename_no_slash|].
    split; [apply raw_filename_nonempty|by left].
  - destruct (splitext_ext_shape _ Hext) as (e & He & _ & _ & Hnd).
    specialize (Hnd (raw_filename_no_slash url)).
    exists (fst (splitext (raw_filename urlparse url))).
    split; [by rewrite splitext_app|]. split; [|split; [|by right]].
    + intros Hin. apply (raw_filename_no_slash url).
      rewrite <- (splitext_app (raw_filename urlparse url)).
      apply elem_of_app. by left.
    + intros Hnil. by rewrite Hnil in Hnd.
Qed.

Lemma named_file_no_slash url : "/"%char ∉ named_file urlparse url.
Proof.
  destruct (named_file_split url) as (s & -> & Hs & _).
  destruct (final_ext_shape url) as (e & -> & _ & He).
  intros [H|[H|H]%elem_of_cons]%elem_of_app; [by apply Hs|done|by apply He].
Qed.

(** What [splitext] makes of the name with its extension. *)
Lemma splitext_named_file url :
  splitext (named_file urlparse url) =
    if bool_decide (snd (splitext (raw_filename urlparse url)) = [])
    then if existsb nondot (raw_filename urlparse url)
         then (raw_filename urlparse url, &".bin")
         else (raw_filename urlparse url ++ &".bin", [])
    else splitext (raw_filename urlparse url).
Proof.
  unfold named_file. case_bool_decide; [|done].
  apply (splitext_snoc _ &"bin"); [apply raw_filename_no_slash| |];
    by_compute.
Qed.

Lemma stem_no_slash url :
  "/"%char ∉ fst (splitext (named_file urlparse url)).
Proof.
  intros Hin. apply (named_file_no_slash url).
  rewrite <- (splitext_app (named_file urlparse url)).
  apply elem_of_app. by left.
Qed.

Lemma asset_filename_no_slash url : "/"%char ∉ asset_filename urlparse url.
Proof.
  rewrite asset_filename_eq.
  case_bool_decide as Hq; [|apply named_file_no_slash].
  destruct (final_ext_shape url) as (e & -> & _ & He).
  rewrite !elem_of_app, elem_of_cons.
  intros [H'|[H'|[H'|[H'|H']]]].
  - by apply (stem_no_slash url).
  - by apply list_elem_of_singleton in H'.
  - by apply (sanitize_no_slash (query (urlparse url))).
  - done.
  - by apply He.
Qed.

(** The file name ends in its extension, and a character precedes it. *)
Lemma asset_filename_split url :
  exists s, asset_filename urlparse url = s ++ final_ext urlparse url
            /\ ("/"%char ∉ s) /\ s <> []
            /\ (final_ext urlparse url = &".bin" \/ existsb nondot s = true).
Proof.
  rewrite asset_filename_eq.
  case_bool_decide as Hq; [|apply named_file_split].
  exists (fst (splitext (named_file urlparse url)) ++ &"_"
            ++ sanitize_query (query (urlparse url))).
  split; [by rewrite <- !app_assoc|]. split; [|split].
  - rewrite !elem_of_app. intros [H'|[H'|H']].
    + by apply (stem_no_slash url).
    + by apply list_elem_of_singleton in H'.
    + by apply (sanitize_no_slash (query (urlparse url))).
  - intros Hnil. apply app_eq_nil in Hnil as [_ Hnil]. done.
  - right. rewrite !existsb_app. simpl. apply orb_true_r.
Qed.

Lemma asset_filename_nonempty url : asset_filename urlparse url <> [].
Proof.
  destruct (asset_filename_split url) as (s & -> & _ & Hs & _).
  intros [? _]%app_eq_nil. done.
Qed.

Lemma asset_filename_not_dot url : asset_filename urlparse url <> &".".
Proof.
  destruct (asset_filename_split url) as (s & -> & _ & Hs & _).
  destruct (final_ext_shape url) as (e & -> & _).
  destruct s as [|c s]; [done|]. simpl. intros [= _ H].
  by apply app_eq_nil in H as [_ ?].
Qed.

End FilenameProps.

(** ** Paths *)

Lemma split_on_notin c s : c ∉ s -> split_on c s = [s].
Proof.
  induction s as [|x s IH]; [done|].
  intros [Hx Hs]%not_elem_of_cons. simpl.
  destruct (ceq x c) eqn:E; [apply ceq_true in E; congruence|].
  rewrite IH; done.
Qed.

Lemma path_segments_single f :
  "/"%char ∉ f -> f <> [] -> f <> &"." -> path_segments f = [f].
Proof.
  intros Hs Hne Hd. unfold path_segments. rewrite split_on_notin by done.
  rewrite filter_cons_True by (by split). done.
Qed.

Lemma path_anchor_rel s : ~ (&"/" `prefix_of` s) -> path_anchor s = [].
Proof.
  intros H. destruct s as [|c s]; [done|].
  destruct (decide (c = "/"%char)) as [->|Hc].
  - exfalso. apply H. by exists s.
  - unfold path_anchor.
    destruct c as [[] [] [] [] [] [] [] []]; try done.
Qed.

Lemma path_join_rel p s :
  ~ (&"/" `prefix_of` s) -> path_join p s = p ++ path_segments s.
Proof. intros H. unfold path_join. rewrite path_anchor_rel; [reflexivity|exact H]. Qed.

Lemma relative_to_app base rest : relative_to (base ++ rest) base = Some rest.
Proof.
  induction base as [|b base IH]; [reflexivity|].
  simpl. case_bool_decide; [exact IH|done].
Qed.

Lemma no_slash_not_abs s : "/"%char ∉ s -> ~ (&"/" `prefix_of` s).
Proof. intros Hs [k ->]. apply Hs. left. Qed.

Lemma asset_dir_part_rel urlparse url :
  ~ (&"/" `prefix_of` asset_dir_part urlparse url).
Proof.
  rewrite asset_dir_part_eq. intros Habs.
  pose proof (dirname_prefix (lstrip_by (ceq "/") (url_path urlparse url))) as Hp.
  assert (&"/" `prefix_of` lstrip_by (ceq "/") (url_path urlparse url)) as [k Hk]
    by (by etrans).
  simpl in Hk. by apply lstrip_by_head in Hk.
Qed.

(** The local path is the base directory, the directories of the URL path
    and the file name. *)
Lemma asset_local_name_parts urlparse url base_dir :
  asset_local_name urlparse url base_dir =
    base_dir ++ path_segments (asset_dir_part urlparse url)
             ++ [asset_filename urlparse url].
Proof.
  unfold asset_local_name.
  rewrite (path_join_rel _ (asset_filename urlparse url))
    by apply no_slash_not_abs, asset_filename_no_slash.
  rewrite path_join_rel by apply asset_dir_part_rel.
  rewrite (path_segments_single (asset_filename urlparse url));
    [by rewrite <- (assoc_L (++)) | apply asset_filename_no_slash
     | apply asset_filename_nonempty | apply asset_filename_not_dot].
Qed.

Lemma asset_local_name_relative urlparse url base_dir :
  relative_to (asset_local_name urlparse url base_dir) base_dir =
    Some (path_segments (asset_dir_part urlparse url)
            ++ [asset_filename urlparse url]).
Proof. rewrite asset_local_name_parts. apply relative_to_app. Qed.

Lemma asset_local_name_name urlparse url base_dir :
  name (asset_local_name urlparse url base_dir) = asset_filename urlparse url.
Proof.
  rewrite asset_local_name_parts. unfold name.
  by rewrite !app_assoc, last_last.
Qed.

(** ** The directories of a local path are those of the URL path *)

Lemma split_on_nonempty c s : split_on c s <> [].
Proof.
  destruct s as [|x s]; simpl; [done|].
  destruct (ceq x c); [done|]. by destruct (split_on c s).
Qed.

Lemma split_on_app c a b :
  split_on c (a ++ c :: b) = split_on c a ++ split_on c b.
Proof.
  induction a as [|x a IH]; simpl.
  - by rewrite ceq_refl.
  - destruct (ceq x c); [by rewrite IH|].
    rewrite IH. pose proof (split_on_nonempty c a).
    by destruct (split_on c a).
Qed.

Lemma path_segments_slash_end s :
  path_segments (s ++ ["/"%char]) = path_segments s.
Proof.
  unfold path_segments. simpl. rewrite split_on_app. simpl.
  rewrite filter_app, filter_cons_False by (by intros [? _]).
  by rewrite filter_nil, app_nil_r.
Qed.

Lemma rstrip_by_snoc f s x :
  rstrip_by f (s ++ [x]) = if f x then rstrip_by f s else s ++ [x].
Proof.
  unfold rstrip_by. rewrite reverse_snoc. simpl.
  destruct (f x); [done|]. by rewrite reverse_cons, reverse_involutive.
Qed.

Lemma path_segments_rstrip s :
  path_segments (rstrip_by (ceq "/") s) = path_segments s.
Proof.
  induction s as [|x s IH] using rev_ind; [done|].
  rewrite rstrip_by_snoc. destruct (ceq "/" x) eqn:Hx; [|done].
  apply ceq_true in Hx as <-. by rewrite IH, (path_segments_slash_end s).
Qed.

Lemma dir_segments_lstrip s :
  dir_segments (lstrip_by (ceq "/") s) = dir_segments s.
Proof.
  induction s as [|x s IH]; [done|]. simpl.
  destruct (ceq "/" x) eqn:Hx; [|done].
  apply ceq_true in Hx as <-.
  rewrite IH. unfold dir_segments. simpl.
  pose proof (split_on_nonempty "/" s).
  destruct (split_on "/" s) eqn:Hs; [done|].
  by rewrite filter_cons_False by (by intros [? _]).
Qed.

Lemma path_segments_dirname q : path_segments (dirname q) = dir_segments q.
Proof.
  unfold dirname, dir_segments.
  destruct (rfind1 "/" q) as [|k] eqn:Hk.
  - apply rfind1_zero in Hk. rewrite split_on_notin by done. done.
  - pose proof (rfind1_lookup _ _ _ Hk) as Hlk.
    pose proof (rfind1_drop "/" q) as Hlast. rewrite Hk in Hlast.
    assert (split_on "/" q = split_on "/" (take k q) ++ [drop (S k) q]) as ->.
    { rewrite <- (take_drop k q) at 1. rewrite (drop_S _ _ _ Hlk).
      by rewrite split_on_app, (split_on_notin _ (drop (S k) q)). }
    rewrite removelast_last.
    assert (take (S k) q = take k q ++ ["/"%char]) as ->
        by (by rewrite (take_S_r _ _ _ Hlk)).
    destruct (_ && _).
    + by rewrite path_segments_rstrip, path_segments_slash_end.
    + by rewrite path_segments_slash_end.
Qed.

Lemma asset_dir_segments urlparse url :
  path_segments (asset_dir_part urlparse url) =
    dir_segments (url_path urlparse url).
Proof.
  by rewrite asset_dir_part_eq, path_segments_dirname, dir_segments_lstrip.
Qed.

(** ** The classifier *)

(** C5: [should_download_asset] is a function to [bool] (no state, no
    exception); it answers [false] when the scheme is [data], [mailto] or
    [javascript], and otherwise [true] exactly when the lower-cased path
    ends with one of the sixteen extensions the specification lists. *)
Theorem should_download_asset_spec (urlparse : str -> ParseResult) (url : str) :
  should_download_asset urlparse url =
    negb (str_in (scheme (urlparse url)) [ &"data"; &"mailto"; &"javascript" ])
    && existsb (fun ext => endswith (lower (path (urlparse url))) ext)
               SPEC_EXTENSIONS.
Proof.
  unfold should_download_asset, REJECTED_SCHEMES.
  destruct (str_in _ _); [done|]. simpl negb. rewrite andb_true_l.
  unfold endswith_any. apply Bool.eq_iff_eq_true. rewrite !existsb_exists.
  split; intros (x & Hin & Hx); exists x; (split; [|done]);
    revert Hin; unfold ASSET_EXTENSIONS, SPEC_EXTENSIONS; simpl; tauto.
Qed.

(** ** Query strings *)

Section QueryProps.

Variable urlparse : str -> ParseResult.

Lemma parts_same_path u1 u2 :
  path (urlparse u1) = path (urlparse u2) ->
  url_path urlparse u1 = url_path urlparse u2
  /\ named_file urlparse u1 = named_file urlparse u2
  /\ final_ext urlparse u1 = final_ext urlparse u2
  /\ asset_dir_part urlparse u1 = asset_dir_part urlparse u2.
Proof.
  intros Hp.
  assert (url_path urlparse u1 = url_path urlparse u2) as Hu
      by (unfold url_path; by rewrite Hp).
  unfold named_file, final_ext, raw_filename. rewrite !asset_dir_part_eq.
  by rewrite Hu.
Qed.

Lemma splitext_named_short url :
  length (named_file urlparse url) <=
    length (fst (splitext (named_file urlparse url)))
    + length (final_ext urlparse url).
Proof.
  rewrite <- (splitext_app (named_file urlparse url)) at 1.
  rewrite length_app. apply Nat.add_le_mono_l.
  rewrite splitext_named_file. unfold final_ext.
  case_bool_decide; [|done]. destruct (existsb _ _); simpl; lia.
Qed.

Lemma query_changes_name url sq :
  named_file urlparse url <>
    fst (splitext (named_file urlparse url)) ++ &"_" ++ sq
      ++ final_ext urlparse url.
Proof.
  intros Heq. apply (f_equal length) in Heq.
  rewrite !length_app in Heq. simpl in Heq.
  pose proof (splitext_named_short url). lia.
Qed.

Lemma asset_filename_query_distinct u1 u2 :
  path (urlparse u1) = path (urlparse u2) ->
  sanitize_query (query (urlparse u1)) <> sanitize_query (query (urlparse u2)) ->
  asset_filename urlparse u1 <> asset_filename urlparse u2.
Proof.
  intros Hp Hq. destruct (parts_same_path _ _ Hp) as (_ & Hn & He & _).
  rewrite !asset_filename_eq, Hn, He.
  repeat case_bool_decide.
  - intros Heq. apply app_inv_head, app_inv_head, app_inv_tail in Heq. done.
  - intros Heq. symmetry in Heq. by apply query_changes_name in Heq.
  - apply query_changes_name.
  - intros _. apply Hq.
    assert (query (urlparse u1) = []) as -> by (by destruct (query (urlparse u1)); [|exfalso; auto]).
    assert (query (urlparse u2) = []) as -> by (by destruct (query (urlparse u2)); [|exfalso; auto]).
    done.
Qed.

End QueryProps.

(** C3, counterexample: two URLs that differ only in their query string,
    [v=1] against [v_1], are mapped to the same local path. *)
Lemma query_variants_collide :
  same_but_query (PyUrl.urlparse &"https://example.com/app.js?v=1")
                 (PyUrl.urlparse &"https://example.com/app.js?v_1")
  /\ asset_local_name PyUrl.urlparse &"https://example.com/app.js?v=1" [ &"assets" ]
     = asset_local_name PyUrl.urlparse &"https://example.com/app.js?v_1" [ &"assets" ].
Proof. vm_compute. repeat split; discriminate. Qed.

(** C3, amended: two URLs that differ only in their query string are mapped
    to two distinct local paths whenever their sanitized queries differ (the
    query, every character outside the alphanumerics and [._-] replaced by
    [_], is appended to the stem of the file name, before the extension). *)
Theorem asset_local_name_query_distinct
    (urlparse : str -> ParseResult) (u1 u2 : str) (base_dir : Path) :
  same_but_query (urlparse u1) (urlparse u2) ->
  sanitize_query (query (urlparse u1)) <> sanitize_query (query (urlparse u2)) ->
  asset_local_name urlparse u1 base_dir <> asset_local_name urlparse u2 base_dir.
Proof.
  intros (_ & _ & Hp & _) Hq.
  rewrite !asset_local_name_parts.
  destruct (parts_same_path urlparse _ _ Hp) as (_ & _ & _ & ->).
  intros Heq. apply app_inv_head, app_inv_head in Heq.
  injection Heq. by apply asset_filename_query_distinct.
Qed.

Lemma asset_local_name_query_distinct_witness :
  same_but_query (PyUrl.urlparse &"https://example.com/app.js?v=1")
                 (PyUrl.urlparse &"https://example.com/app.js?v=2")
  /\ sanitize_query (query (PyUrl.urlparse &"https://example.com/app.js?v=1"))
     <> sanitize_query (query (PyUrl.urlparse &"https://example.com/app.js?v=2"))
  /\ asset_local_name PyUrl.urlparse &"https://example.com/app.js?v=1" [ &"assets" ]
     <> asset_local_name PyUrl.urlparse &"https://example.com/app.js?v=2" [ &"assets" ].
Proof.
  assert (same_but_query (PyUrl.urlparse &"https://example.com/app.js?v=1")
                         (PyUrl.urlparse &"https://example.com/app.js?v=2")) as H1
    by (vm_compute; repeat split; discriminate).
  assert (sanitize_query (query (PyUrl.urlparse &"https://example.com/app.js?v=1"))
     <> sanitize_query (query (PyUrl.urlparse &"https://example.com/app.js?v=2"))) as H2
    by (vm_compute; discriminate).
  split; [exact H1|]. split; [exact H2|].
  exact (asset_local_name_query_distinct PyUrl.urlparse _ _ _ H1 H2).
Defined.

(** ** The layout of local paths *)

(** The local path is [base_dir], followed by the directories of the URL
    path (its leading slashes, empty segments and [.] segments dropped) and
    by the computed file name; [relative_to base_dir] succeeds on it, and a
    URL with path [/static/img/logo.png] and no query is mapped to
    [base_dir/static/img/logo.png].  The components are those of the URL
    path: a [..] segment is kept as it is. *)
Lemma asset_local_name_mirrors
    (urlparse : str -> ParseResult) (url : str) (base_dir : Path) :
  asset_local_name urlparse url base_dir =
    base_dir ++ path_segments (dirname (lstrip_by (ceq "/") (url_path urlparse url)))
             ++ [asset_filename urlparse url]
  /\ path_segments (dirname (lstrip_by (ceq "/") (url_path urlparse url)))
     = dir_segments (url_path urlparse url)
  /\ relative_to (asset_local_name urlparse url base_dir) base_dir =
       Some (dir_segments (url_path urlparse url) ++ [asset_filename urlparse url])
  /\ (path (urlparse url) = &"/static/img/logo.png" ->
      query (urlparse url) = [] ->
      asset_local_name urlparse url base_dir =
        base_dir ++ [ &"static"; &"img"; &"logo.png" ]).
Proof.
  pose proof (asset_dir_segments urlparse url) as Hd.
  rewrite asset_dir_part_eq in Hd.
  split; [apply asset_local_name_parts|]. split; [exact Hd|]. split.
  - rewrite asset_local_name_relative, asset_dir_part_eq, Hd. done.
  - intros Hp Hq. rewrite asset_local_name_parts, asset_dir_part_eq, Hd.
    unfold asset_filename, url_path. rewrite Hp, Hq. done.
Qed.

Example asset_local_name_docstring :
  asset_local_name PyUrl.urlparse &"https://example.com/static/img/logo.png"
                   [ &"site_mirror"; &"assets" ]
  = [ &"site_mirror"; &"assets"; &"static"; &"img"; &"logo.png" ].
Proof. reflexivity. Qed.

(** Without [..] among the directories of the URL path, and with a base
    directory that holds none either, the local path lies beneath the base
    directory. *)
Lemma norm_components_plain abs comps done :
  &".." ∉ comps -> norm_components abs comps done = done ++ comps.
Proof.
  revert done. induction comps as [|c comps IH]; intros done Hn; simpl.
  - by rewrite app_nil_r.
  - apply not_elem_of_cons in Hn as [Hc Hn].
    rewrite bool_decide_false by done. rewrite IH by done.
    by rewrite <- (assoc_L (++)).
Qed.

Lemma normpath_plain p : &".." ∉ p -> normpath p = p.
Proof.
  intros Hp. destruct p as [|a rest]; [done|]. unfold normpath.
  destruct (is_anchor [a]).
  - apply not_elem_of_cons in Hp as [_ Hp]. by rewrite norm_components_plain.
  - by rewrite norm_components_plain.
Qed.

Lemma asset_local_name_beneath urlparse url base_dir :
  &".." ∉ base_dir ->
  &".." ∉ dir_segments (url_path urlparse url) ->
  lies_beneath (asset_local_name urlparse url base_dir) base_dir = true.
Proof.
  intros Hb Hd. unfold lies_beneath. apply bool_decide_eq_true.
  destruct (asset_local_name_mirrors urlparse url base_dir) as (Hparts & Hsegs & _).
  assert (asset_filename urlparse url <> &"..") as Hf.
  { destruct (asset_filename_split urlparse url) as (s & Hs & _ & Hne & Hor).
    destruct (final_ext_shape urlparse url) as (e & He & Hdot & _).
    rewrite Hs, He. rewrite He in Hor. intros Heq.
    destruct s as [|c1 [|c2 s]]; [done| |].
    - injection Heq as -> Heq. destruct e; [|done].
      by destruct Hor.
    - injection Heq as _ _ Heq. by destruct s. }
  rewrite (normpath_plain base_dir) by done. rewrite normpath_plain.
  - rewrite Hparts, relative_to_app. eauto.
  - rewrite Hparts, Hsegs, !not_elem_of_app. split; [done|]. split; [done|].
    intros H%list_elem_of_singleton. by apply Hf.
Qed.

(** C6, the code at a failing input: an [img] whose [src] is
    [https://example.com/../../x.png] is accepted by the classifier and
    resolved to itself; its local path is [assets_dir/../../x.png], which
    is a path outside [assets_dir] (and here outside the output directory):
    the function returns the join of the base directory, the directories
    of the URL path and the file name, but that path does not lie beneath
    the base directory, as the claim and the docstring of the function
    say. *)
Theorem asset_local_name_escapes :
  let url := &"https://example.com/../../x.png" in
  let assets_dir := [ &"site_mirror"; &"assets" ] in
  PyUrl.urljoin &"https://example.com/page" url = url
  /\ should_download_asset PyUrl.urlparse url = true
  /\ asset_local_name PyUrl.urlparse url assets_dir
     = assets_dir ++ [ &".."; &".."; &"x.png" ]
  /\ normpath (asset_local_name PyUrl.urlparse url assets_dir) = [ &"x.png" ]
  /\ lies_beneath (asset_local_name PyUrl.urlparse url assets_dir) assets_dir
     = false.
Proof. vm_compute. by repeat split. Qed.

(** ** Extensions *)

Section ExtensionProps.

Variable urlparse : str -> ParseResult.

Lemma dots_only_basename url :
  dots_only (basename (path (urlparse url))) =
    negb (existsb nondot (raw_filename urlparse url)).
Proof.
  unfold raw_filename, url_path, dots_only.
  destruct (decide (path (urlparse url) = [])) as [Hp|Hp].
  - rewrite Hp. reflexivity.
  - rewrite (bool_decide_false _ Hp).
    destruct (decide (basename (path (urlparse url)) = [])) as [Hb|Hb].
    + rewrite Hb. reflexivity.
    + by rewrite !(bool_decide_false _ Hb).
Qed.

Lemma splitext_with_query url :
  snd (splitext (fst (splitext (named_file urlparse url)) ++ &"_"
                 ++ sanitize_query (query (urlparse url))
                 ++ final_ext urlparse url)) = final_ext urlparse url.
Proof.
  destruct (final_ext_shape urlparse url) as (e & -> & Hd & Hs).
  rewrite !(assoc_L (++)), splitext_snoc; [|
    rewrite !elem_of_app;
    intros [[H'|H']|H'];
    [by apply (stem_no_slash urlparse url)
    |by apply list_elem_of_singleton in H'
    |by apply (sanitize_no_slash (query (urlparse url)))] | done | done].
  rewrite !existsb_app. simpl. by rewrite orb_true_r.
Qed.

(** Whether [splitext] finds an extension in the final file name. *)
Lemma asset_filename_has_ext url :
  bool_decide (snd (splitext (asset_filename urlparse url)) <> []) =
    negb (dots_only (basename (path (urlparse url)))
          && bool_decide (query (urlparse url) = [])).
Proof.
  rewrite asset_filename_eq, dots_only_basename.
  destruct (decide (query (urlparse url) = [])) as [Hq|Hq].
  2:{ rewrite (bool_decide_false (query (urlparse url) = [])) by done.
      rewrite (bool_decide_true (query (urlparse url) <> [])) by done.
      rewrite andb_false_r, splitext_with_query. simpl.
      destruct (final_ext_shape urlparse url) as (e & -> & _).
      by apply bool_decide_true. }
  rewrite (bool_decide_true (query (urlparse url) = [])) by done.
  rewrite (bool_decide_false (query (urlparse url) <> [])) by auto.
  rewrite andb_true_r, negb_involutive, splitext_named_file.
  destruct (decide (snd (splitext (raw_filename urlparse url)) = []))
    as [Hext|Hext].
  - rewrite (bool_decide_true _ Hext).
    destruct (existsb nondot _); reflexivity.
  - rewrite (bool_decide_false _ Hext), bool_decide_true by done.
    destruct (splitext_ext_shape _ Hext) as (e & _ & _ & _ & Hnd).
    specialize (Hnd (raw_filename_no_slash urlparse url)).
    rewrite <- (splitext_app (raw_filename urlparse url)), existsb_app, Hnd.
    done.
Qed.

End ExtensionProps.

(** C7, counterexample: the URL path [/files/...] gives the file name
    [....bin], in which [os.path.splitext] finds no extension. *)
Lemma dots_name_has_no_extension :
  name (asset_local_name PyUrl.urlparse &"https://example.com/files/..." [ &"assets" ])
    = &"....bin"
  /\ snd (splitext (name (asset_local_name PyUrl.urlparse
                            &"https://example.com/files/..." [ &"assets" ]))) = [].
Proof. split; reflexivity. Qed.

(** C7, amended: the file name of the local path always ends in the
    suffix [ext], which is the extension of the name taken from the URL or
    the default [.bin]; [os.path.splitext] finds a non-empty extension in
    it unless the URL has no query and the last segment of its path
    consists of dots only.  An empty URL path gives [unnamed.bin], a path
    that ends in a slash gives [index.bin], and a name without extension
    gets [.bin] appended (all three for a URL without query). *)
Theorem asset_local_name_extension
    (urlparse : str -> ParseResult) (url : str) (base_dir : Path) :
  let filename := name (asset_local_name urlparse url base_dir) in
  (exists stem e, filename = stem ++ "."%char :: e /\ stem <> []
                  /\ "."%char :: e = final_ext urlparse url)
  /\ bool_decide (snd (splitext filename) <> []) =
       negb (dots_only (basename (path (urlparse url)))
             && bool_decide (query (urlparse url) = []))
  /\ (query (urlparse url) = [] ->
      (path (urlparse url) = [] -> filename = &"unnamed.bin")
      /\ (path (urlparse url) <> [] -> basename (path (urlparse url)) = [] ->
          filename = &"index.bin")
      /\ (snd (splitext (raw_filename urlparse url)) = [] ->
          filename = raw_filename urlparse url ++ &".bin")).
Proof.
  cbv zeta. rewrite asset_local_name_name. split; [|split].
  - destruct (asset_filename_split urlparse url) as (s & Hs & _ & Hne & _).
    destruct (final_ext_shape urlparse url) as (e & He & _).
    exists s, e. by rewrite Hs, He.
  - apply asset_filename_has_ext.
  - intros Hq. rewrite asset_filename_eq, Hq. simpl.
    unfold named_file, raw_filename, url_path. split; [|split].
    + by intros ->.
    + intros Hp Hb. rewrite (bool_decide_false _ Hp), Hb. done.
    + intros Hext. by rewrite bool_decide_true.
Qed.

Lemma asset_local_name_extension_witness :
  query (PyUrl.urlparse &"https://example.com/docs/") = []
  /\ path (PyUrl.urlparse &"https://example.com/docs/") <> []
  /\ basename (path (PyUrl.urlparse &"https://example.com/docs/")) = []
  /\ name (asset_local_name PyUrl.urlparse &"https://example.com/docs/" [ &"assets" ])
     = &"index.bin".
Proof.
  assert (path (PyUrl.urlparse &"https://example.com/docs/") <> []) as Hp
    by (vm_compute; discriminate).
  split; [reflexivity|]. split; [exact Hp|]. split; [reflexivity|].
  exact (proj1 (proj2 (proj2 (proj2
    (asset_local_name_extension PyUrl.urlparse &"https://example.com/docs/"
       [ &"assets" ])) eq_refl)) Hp eq_refl).
Defined.

(** ** The monad *)

Lemma bind_run {A B} (m : M A) (k : A -> M B) w :
  bind m k w =
    match m w with
    | (w', Ok a) => k a w'
    | (w', Raise e) => (w', Raise e)
    end.
Proof. reflexivity. Qed.

Lemma bind_ok {A B} (m : M A) (k : A -> M B) w w' a :
  m w = (w', Ok a) -> bind m k w = k a w'.
Proof. intros H. by rewrite bind_run, H. Qed.

Lemma bind_raise {A B} (m : M A) (k : A -> M B) w w' e :
  m w = (w', Raise e) -> bind m k w = (w', Raise e).
Proof. intros H. by rewrite bind_run, H. Qed.

Lemma hoare_ret {A} (P : World -> Prop) (a : A) (Q : Result A -> World -> Prop) :
  (forall w, P w -> Q (Ok a) w) -> hoare P (ret a) Q.
Proof. intros H w Hw. by apply H. Qed.

Lemma hoare_bind {A B} (P : World -> Prop) (R : Result A -> World -> Prop)
    (Q : Result B -> World -> Prop) (m : M A) (k : A -> M B) :
  hoare P m R ->
  (forall a, hoare (R (Ok a)) (k a) Q) ->
  (forall e w, R (Raise e) w -> Q (Raise e) w) ->
  hoare P (bind m k) Q.
Proof.
  intros Hm Hk He w Hw. specialize (Hm w Hw). rewrite bind_run.
  destruct (m w) as [w' [a|e]]; simpl in *; [by apply Hk | by apply He].
Qed.

(** Sequencing when the conditions do not look at the result. *)
Lemma hoare_seq {A B} (P R Q : World -> Prop) (m : M A) (k : A -> M B) :
  hoare P m (fun _ => R) ->
  (forall a, hoare R (k a) (fun _ => Q)) ->
  (forall w, R w -> Q w) ->
  hoare P (bind m k) (fun _ => Q).
Proof.
  intros Hm Hk HR. eapply hoare_bind; [exact Hm|exact Hk|]. intros e. exact HR.
Qed.

Lemma hoare_conseq {A} (P P' : World -> Prop) (Q Q' : Result A -> World -> Prop)
    (m : M A) :
  hoare P' m Q' -> (forall w, P w -> P' w) -> (forall r w, Q' r w -> Q r w) ->
  hoare P m Q.
Proof. intros Hm HP HQ w Hw. apply HQ, Hm, HP, Hw. Qed.

Lemma hoare_try {A} (P : World -> Prop) (R Q : Result A -> World -> Prop)
    (m : M A) (h : Exn -> M A) :
  hoare P m R ->
  (forall a w, R (Ok a) w -> Q (Ok a) w) ->
  (forall e, hoare (R (Raise e)) (h e) Q) ->
  hoare P (try_catch m h) Q.
Proof.
  intros Hm Hok Hh w Hw. specialize (Hm w Hw). unfold try_catch.
  destruct (m w) as [w' [a|e]]; simpl in *; [by apply Hok | by apply Hh].
Qed.

(** A loop keeps what each of its rounds keeps. *)
Lemma hoare_for_each {A S} (I : World -> Prop) (body : A -> S -> M S) xs s :
  (forall x s, x ∈ xs -> hoare I (body x s) (fun _ => I)) ->
  hoare I (for_each body xs s) (fun _ => I).
Proof.
  revert s. induction xs as [|x xs IH]; intros s Hb; simpl.
  - by apply hoare_ret.
  - eapply hoare_bind; [apply Hb; left | | done].
    intros s'. apply IH. intros y s'' Hy. apply Hb. by right.
Qed.

Lemma yields_ret {A} (a : A) (Q : A -> Prop) : Q a -> yields (ret a) Q.
Proof. intros H w b [= <-]. done. Qed.

Lemma yields_bind {A B} (m : M A) (k : A -> M B) (P : A -> Prop) (Q : B -> Prop) :
  yields m P -> (forall a, P a -> yields (k a) Q) -> yields (bind m k) Q.
Proof.
  intros Hm Hk w b. rewrite bind_run.
  destruct (m w) as [w' [a|e]] eqn:Hmw; [|done].
  apply Hk. apply (Hm w). by rewrite Hmw.
Qed.

Lemma yields_weaken {A} (m : M A) (P Q : A -> Prop) :
  yields m P -> (forall a, P a -> Q a) -> yields m Q.
Proof. intros Hm H w a Ha. eapply H, Hm, Ha. Qed.

Lemma yields_try {A} (m : M A) (h : Exn -> M A) (Q : A -> Prop) :
  yields m Q -> (forall e, yields (h e) Q) -> yields (try_catch m h) Q.
Proof.
  intros Hm Hh w a. unfold try_catch.
  destruct (m w) as [w' [b|e]] eqn:Hmw; simpl.
  - intros [= <-]. apply (Hm w). by rewrite Hmw.
  - apply Hh.
Qed.

Lemma yields_for_each {A S} (J : S -> Prop) (body : A -> S -> M S) xs s :
  J s ->
  (forall x s, x ∈ xs -> J s -> yields (body x s) J) ->
  yields (for_each body xs s) J.
Proof.
  revert s. induction xs as [|x xs IH]; intros s Hs Hb; simpl.
  - by apply yields_ret.
  - eapply yields_bind; [apply Hb; [left|done]|].
    intros s' Hs'. apply IH; [done|]. intros y s'' Hy. apply Hb. by right.
Qed.

(** ** The file system *)

Lemma fs_le_refl f : fs_le f f.
Proof. by intros p. Qed.

Lemma fs_le_trans f g h : fs_le f g -> fs_le g h -> fs_le f h.
Proof. intros H1 H2 p Hp. by apply H2, H1. Qed.

Lemma path_exists_mkdir f ps p :
  path_exists f p = true ->
  path_exists {| files := files f; dirs := list_to_set ps ∪ dirs f |} p = true.
Proof.
  unfold path_exists, is_file, is_dir. simpl.
  rewrite !orb_true_iff, !bool_decide_eq_true.
  intros [H|[H|H]]; [by left | right; by left |].
  right; right. apply elem_of_union. by right.
Qed.

Lemma path_exists_write f q data p :
  path_exists f p = true ->
  path_exists {| files := <[q := data]> (files f); dirs := dirs f |} p = true.
Proof.
  unfold path_exists, is_file, is_dir. simpl.
  rewrite !orb_true_iff, !bool_decide_eq_true.
  intros [H|H]; [left|by right].
  destruct (decide (q = p)) as [->|Hne].
  - rewrite lookup_insert_eq. eauto.
  - by rewrite lookup_insert_ne.
Qed.

Lemma ensure_dir_fs_le p w : fs_le (fs w) (fs (fst (ensure_dir p w))).
Proof.
  unfold ensure_dir. destruct (existsb _ _); simpl; [apply fs_le_refl|].
  intros q. apply path_exists_mkdir.
Qed.

Lemma write_file_fs_le p data w : fs_le (fs w) (fs (fst (write_file p data w))).
Proof.
  unfold write_file. destruct (is_dir _ _); simpl; [apply fs_le_refl|].
  destruct (negb _); simpl; [apply fs_le_refl|].
  intros q. apply path_exists_write.
Qed.

Lemma prefixes_elem p q : q ∈ prefixes p -> length q <= length p /\ q <> [].
Proof.
  unfold prefixes. intros (n & -> & Hn)%list_elem_of_fmap.
  apply elem_of_seq in Hn. rewrite length_take. split; [lia|].
  destruct p; simpl in *; [lia|]. destruct n; [lia|done].
Qed.

Lemma parent_shorter p : is_anchor p = false -> length (parent p) < length p.
Proof.
  unfold parent. intros H. rewrite H.
  destruct p as [|x p _] using rev_ind; [done|].
  rewrite removelast_last, length_app. simpl. lia.
Qed.

(** Creating the parent directories of a path does not create the path. *)
Lemma ensure_parent_keeps_absent p w :
  path_exists (fs w) p = false ->
  path_exists (fs (fst (ensure_dir (parent p) w))) p = false.
Proof.
  intros Hp. unfold ensure_dir. destruct (existsb _ _); simpl; [done|].
  unfold path_exists, is_file, is_dir in *. simpl.
  apply orb_false_iff in Hp as [Hf Hd]. apply orb_false_iff in Hd as [Ha Hd].
  rewrite Hf, Ha. simpl. apply bool_decide_eq_false.
  apply bool_decide_eq_false in Hd.
  intros [Hin|Hin]%elem_of_union; [|done].
  apply elem_of_list_to_set, prefixes_elem in Hin as [Hlen _].
  pose proof (parent_shorter p Ha). lia.
Qed.

(** ** A failed download *)

(** [download_file], step by step. *)
Lemma download_file_run (E : Env) (url : str) (target : Path) (w : World) :
  download_file E url target w =
    if existsb (is_file (fs w)) (prefixes (parent target))
    then (w, Raise (OSError &"FileExistsError"))
    else
      let made :=
        {| files := files (fs w);
           dirs := list_to_set (prefixes (parent target)) ∪ dirs (fs w) |} in
      let asked := {| fs := made; log := log w ++ [EvGet url made] |} in
      match env_get E (requests (log w)) url with
      | Raise e => (asked, Raise e)
      | Ok resp =>
          if (400 <=? status resp) && (status resp <? 600)
          then (asked, Raise (RequestException (error_text resp)))
          else write_file target (content resp) asked
      end.
Proof.
  unfold download_file, bind, ensure_dir, session_get, raise_for_status.
  destruct (existsb _ _); simpl; [done|].
  destruct (env_get _ _ _); simpl; [|done].
  by destruct (_ && _).
Qed.

(** C10: when [download_file] issues its request (no regular file stands in
    the way of the parent directories) and the request fails, the call
    raises, no file is written or changed, and the parent directories of
    the target have been created before the request: the file system has
    changed whenever one of them was missing. *)
Theorem download_file_failure (E : Env) (url : str) (target : Path) (w : World) :
  existsb (is_file (fs w)) (prefixes (parent target)) = false ->
  request_fails (env_get E (requests (log w)) url) ->
  let w' := fst (download_file E url target w) in
  is_raise (snd (download_file E url target w))
  /\ files (fs w') = files (fs w)
  /\ dirs (fs w') = list_to_set (prefixes (parent target)) ∪ dirs (fs w)
  /\ (forall d, d ∈ prefixes (parent target) -> is_dir (fs w') d = true)
  /\ (forall d, d ∈ prefixes (parent target) -> d ∉ dirs (fs w) -> fs w' <> fs w)
  /\ log w' = log w ++ [EvGet url (fs w')].
Proof.
  intros Hdirs Hfail. cbv zeta.
  rewrite download_file_run, Hdirs. cbv zeta.
  assert (forall d, d ∈ prefixes (parent target) ->
            d ∈ list_to_set (C := gset Path) (prefixes (parent target)) ∪ dirs (fs w))
    as Hin by (intros d Hd; apply elem_of_union; left; by apply elem_of_list_to_set).
  destruct (env_get E (requests (log w)) url) as [resp|e]; simpl in *.
  - rewrite Hfail. simpl.
    repeat split; try done.
    + intros d Hd. unfold is_dir. simpl.
      rewrite (bool_decide_true _ (Hin d Hd)). apply orb_true_r.
    + intros d Hd Hnot Heq. apply Hnot. rewrite <- Heq. simpl. by apply Hin.
  - repeat split; try done.
    + intros d Hd. unfold is_dir. simpl.
      rewrite (bool_decide_true _ (Hin d Hd)). apply orb_true_r.
    + intros d Hd Hnot Heq. apply Hnot. rewrite <- Heq. simpl. by apply Hin.
Qed.

Lemma download_file_failure_witness :
  let E := py_env offline_get (fun _ => []) in
  let target := [ &"assets"; &"img"; &"logo.png" ] in
  existsb (is_file (fs empty_world)) (prefixes (parent target)) = false
  /\ request_fails (env_get E (requests (log empty_world)) &"https://example.com/img/logo.png")
  /\ is_raise (snd (download_file E &"https://example.com/img/logo.png" target empty_world))
  /\ files (fs (fst (download_file E &"https://example.com/img/logo.png" target empty_world)))
     = ∅
  /\ is_dir (fs (fst (download_file E &"https://example.com/img/logo.png" target empty_world)))
            [ &"assets"; &"img" ] = true.
Proof.
  cbv zeta.
  pose proof (download_file_failure (py_env offline_get (fun _ => []))
                &"https://example.com/img/logo.png"
                [ &"assets"; &"img"; &"logo.png" ] empty_world eq_refl I)
    as (Hr & Hf & _ & Hd & _).
  split; [reflexivity|]. split; [exact I|]. split; [exact Hr|].
  split; [exact Hf|]. apply Hd. by_compute.
Defined.

(** ** Skip-if-exists *)

Section SkipIfExists.

Variables (E : Env) (assets_dir : Path) (f0 : FS) (l0 : list Event).

Local Abbreviation inv := (skip_inv E assets_dir f0 l0).
Local Abbreviation target := (download_target E assets_dir).
Local Abbreviation keeps := (keeps_inv E assets_dir f0 l0).

Lemma keeps_ret {A} (a : A) : keeps (ret a).
Proof. by apply hoare_ret. Qed.

Lemma keeps_raise {A} (e : Exn) : keeps (@raise A e).
Proof. by intros w Hw. Qed.

Lemma keeps_bind {A B} (m : M A) (k : A -> M B) :
  keeps m -> (forall a, keeps (k a)) -> keeps (bind m k).
Proof. intros Hm Hk. eapply hoare_bind; [exact Hm|exact Hk|done]. Qed.

Lemma keeps_try {A} (m : M A) (h : Exn -> M A) :
  keeps m -> (forall e, keeps (h e)) -> keeps (try_catch m h).
Proof. intros Hm Hh. eapply hoare_try; [exact Hm|done|exact Hh]. Qed.

Lemma keeps_for_each {A S} (body : A -> S -> M S) xs s :
  (forall x s, keeps (body x s)) -> keeps (for_each body xs s).
Proof. intros H. apply hoare_for_each. intros x s' _. apply H. Qed.

Lemma inv_log_step w msg :
  inv w -> inv {| fs := fs w; log := log w ++ [EvPrint msg] |}.
Proof.
  intros [Hle (new & Hlog & Hall)]. split; [done|].
  exists (new ++ [EvPrint msg]). simpl. split.
  - by rewrite Hlog, (assoc_L (++)).
  - apply Forall_app. split; [done|]. by constructor.
Qed.

Lemma inv_grow w f :
  inv w -> fs_le (fs w) f -> inv {| fs := f; log := log w |}.
Proof.
  intros [Hle Hlog] Hf. split; [|done]. simpl. by eapply fs_le_trans.
Qed.

Lemma keeps_print msg : keeps (print msg).
Proof. intros w Hw. by apply inv_log_step. Qed.

Lemma print_absent p msg :
  hoare (fun w => inv w /\ absent p w) (print msg)
        (fun _ w => inv w /\ absent p w).
Proof. intros w [Hw Hp]. split; [by apply inv_log_step|done]. Qed.

Lemma keeps_ensure_dir p : keeps (ensure_dir p).
Proof.
  intros w Hw. pose proof (ensure_dir_fs_le p w) as Hle. revert Hle.
  unfold ensure_dir. destruct (existsb _ _); simpl; [done|].
  intros Hle. by apply (inv_grow w).
Qed.

Lemma keeps_write_file p data : keeps (write_file p data).
Proof.
  intros w Hw. pose proof (write_file_fs_le p data w) as Hle. revert Hle.
  unfold write_file. destruct (is_dir _ _); simpl; [done|].
  destruct (negb _); simpl; [done|].
  intros Hle. by apply (inv_grow w).
Qed.

Lemma keeps_raise_for_status r : keeps (raise_for_status r).
Proof.
  unfold raise_for_status. destruct (_ && _); [apply keeps_raise|apply keeps_ret].
Qed.

Lemma keeps_relative_str p base : keeps (relative_str p base).
Proof.
  unfold relative_str. destruct (relative_to _ _); [apply keeps_ret|apply keeps_raise].
Qed.

(** A request for a URL whose local path is absent keeps the invariant. *)
Lemma session_get_absent url :
  hoare (fun w => inv w /\ absent (target url) w) (session_get E url)
        (fun _ => inv).
Proof.
  intros w [[Hle (new & Hlog & Hall)] Hp]. unfold session_get. simpl.
  split; [done|]. exists (new ++ [EvGet url (fs w)]). simpl. split.
  - by rewrite Hlog, (assoc_L (++)).
  - apply Forall_app. split; [done|]. constructor; [|constructor].
    by split.
Qed.

Lemma ensure_parent_absent p :
  hoare (fun w => inv w /\ absent p w) (ensure_dir (parent p))
        (fun _ w => inv w /\ absent p w).
Proof.
  intros w [Hw Hp]. split; [by apply keeps_ensure_dir|].
  by apply ensure_parent_keeps_absent.
Qed.

Lemma download_file_absent url :
  hoare (fun w => inv w /\ absent (target url) w)
        (download_file E url (target url)) (fun _ => inv).
Proof.
  unfold download_file.
  eapply hoare_seq; [apply ensure_parent_absent| |by intros w [? _]].
  intros ?. eapply hoare_seq; [apply session_get_absent| |done].
  intros resp. apply keeps_bind; [apply keeps_raise_for_status|].
  intros ?. apply keeps_write_file.
Qed.

(** The existence check: what follows runs with the path present, or
    with the path absent. *)
Lemma keeps_guard {A} p (k : bool -> M A) :
  keeps (k true) ->
  hoare (fun w => inv w /\ absent p w) (k false) (fun _ => inv) ->
  keeps (bind (exists_ p) k).
Proof.
  intros Ht Hf w Hw. rewrite bind_run. unfold exists_.
  destruct (path_exists (fs w) p) eqn:Hp; [by apply Ht|].
  apply Hf. by split.
Qed.

Lemma keeps_repl base_url prefix whole group1 :
  keeps (repl E base_url assets_dir prefix whole group1).
Proof.
  unfold repl. destruct (_ || _); [apply keeps_ret|].
  destruct (negb _); [apply keeps_ret|].
  apply keeps_guard.
  - apply keeps_bind; [apply keeps_ret|]. intros ?.
    apply keeps_bind; [apply keeps_relative_str|]. intros rel. apply keeps_ret.
  - eapply hoare_seq; [| |done].
    + eapply hoare_seq; [apply print_absent| |by intros w [? _]].
      intros ?. apply download_file_absent.
    + intros ?. apply keeps_bind; [apply keeps_relative_str|].
      intros rel. apply keeps_ret.
Qed.

Lemma keeps_sub_segments base_url prefix segs :
  keeps (sub_segments E base_url assets_dir prefix segs).
Proof.
  induction segs as [|[c|whole g] segs IH]; simpl.
  - apply keeps_ret.
  - apply keeps_bind; [done|]. intros out. apply keeps_ret.
  - apply keeps_bind; [apply keeps_repl|]. intros r.
    apply keeps_bind; [done|]. intros out. apply keeps_ret.
Qed.

Lemma keeps_rewrite_css_urls base_url prefix css :
  keeps (rewrite_css_urls E base_url assets_dir prefix css).
Proof. apply keeps_sub_segments. Qed.

Section Phases.

Variables (start_url prefix : str).

Lemma keeps_direct_step attr i doc :
  keeps (direct_step E start_url assets_dir prefix attr i doc).
Proof.
  unfold direct_step. destruct (doc !! i) as [tag|]; [|apply keeps_ret].
  destruct (tag_get attr tag) as [v|]; [|apply keeps_ret].
  case_bool_decide; [apply keeps_ret|].
  destruct (negb _); [apply keeps_ret|].
  apply keeps_guard.
  - apply keeps_bind; [apply keeps_ret|]. intros []; [|apply keeps_ret].
    apply keeps_bind; [apply keeps_relative_str|]. intros rel. apply keeps_ret.
  - eapply hoare_seq; [| |done].
    + eapply hoare_seq; [apply print_absent| |by intros w [? _]].
      intros ?. eapply hoare_try; [| |].
      * eapply hoare_seq; [apply download_file_absent| |done].
        intros ?. apply keeps_ret.
      * done.
      * intros e. apply keeps_bind; [apply keeps_print|].
        intros ?. apply keeps_ret.
    + intros []; [|apply keeps_ret].
      apply keeps_bind; [apply keeps_relative_str|]. intros rel.
      apply keeps_ret.
Qed.

Lemma keeps_direct_phase doc :
  keeps (direct_phase E start_url assets_dir prefix doc).
Proof.
  unfold direct_phase. apply keeps_for_each. intros [n attr] d.
  apply keeps_for_each. intros i d'. apply keeps_direct_step.
Qed.

Lemma keeps_style_phase doc :
  keeps (style_phase E start_url assets_dir prefix doc).
Proof.
  unfold style_phase. apply keeps_bind.
  - apply keeps_for_each. intros i d. unfold style_tag_step.
    destruct (d !! i) as [t|]; [|apply keeps_ret].
    destruct (tag_string t) as [css|]; [|apply keeps_ret].
    case_bool_decide; [apply keeps_ret|].
    apply keeps_bind; [apply keeps_rewrite_css_urls|].
    intros c. apply keeps_ret.
  - intros d0. apply keeps_for_each. intros i d. unfold style_attr_step.
    destruct (d !! i) as [t|]; [|apply keeps_ret].
    destruct (tag_get _ t) as [css|]; [|apply keeps_ret].
    apply keeps_bind; [apply keeps_rewrite_css_urls|].
    intros c. apply keeps_ret.
Qed.

Lemma keeps_stylesheet_step i doc :
  keeps (stylesheet_step E start_url assets_dir prefix i doc).
Proof.
  unfold stylesheet_step. destruct (doc !! i) as [tag|]; [|apply keeps_ret].
  destruct (tag_get _ tag) as [v|]; [|apply keeps_ret].
  case_bool_decide; [apply keeps_ret|].
  destruct (negb _); [apply keeps_ret|].
  apply keeps_guard.
  - apply keeps_bind; [apply keeps_ret|]. intros []; [|apply keeps_ret].
    apply keeps_bind; [apply keeps_relative_str|]. intros rel. apply keeps_ret.
  - eapply hoare_seq; [| |done].
    + eapply hoare_seq; [apply print_absent| |by intros w [? _]].
      intros ?. eapply hoare_try; [| |].
      * eapply hoare_seq; [apply session_get_absent| |done].
        intros resp.
        apply keeps_bind; [apply keeps_raise_for_status|]. intros ?.
        apply keeps_bind; [apply keeps_rewrite_css_urls|]. intros c.
        apply keeps_bind; [apply keeps_ensure_dir|]. intros ?.
        apply keeps_bind; [apply keeps_write_file|]. intros ?.
        apply keeps_ret.
      * done.
      * intros e. apply keeps_bind; [apply keeps_print|].
        intros ?. apply keeps_ret.
    + intros []; [|apply keeps_ret].
      apply keeps_bind; [apply keeps_relative_str|]. intros rel.
      apply keeps_ret.
Qed.

Lemma keeps_rewrite_document doc :
  keeps (rewrite_document E start_url assets_dir prefix doc).
Proof.
  unfold rewrite_document.
  apply keeps_bind; [apply keeps_direct_phase|]. intros d1.
  apply keeps_bind; [apply keeps_style_phase|]. intros d2.
  apply keeps_for_each. intros i d. apply keeps_stylesheet_step.
Qed.

End Phases.

End SkipIfExists.

Lemma fresh_event_download E assets_dir f0 e :
  fresh_event E assets_dir f0 e -> fresh_download E assets_dir f0 e.
Proof.
  destruct e as [url snap|msg]; [|done]. intros [Habs Hle]. split; [done|].
  destruct (path_exists f0 _) eqn:Hp; [|done].
  apply Hle in Hp. unfold download_target in *. congruence.
Qed.

(** [process_page], from its start to the request of the page. *)
Lemma process_page_run (E : Env) (start_url out_dir prefix html_name : str)
    (w : World) :
  process_page E start_url out_dir prefix html_name w =
    match ensure_dir (path_of_str out_dir) w with
    | (w1, Raise e) => (w1, Raise e)
    | (w1, Ok _) =>
        match env_get E (requests (log w1)) start_url with
        | Raise e => (page_requested start_url w1, Raise e)
        | Ok resp =>
            page_body E start_url out_dir prefix html_name resp
                      (page_requested start_url w1)
        end
    end.
Proof.
  unfold process_page, page_body, page_requested.
  rewrite bind_run. destruct (ensure_dir _ w) as [w1 [[]|e]]; [|done].
  rewrite bind_run. unfold print at 1. cbv beta iota.
  rewrite bind_run. unfold session_get at 1. cbv beta iota zeta. cbn [fs log].
  assert (requests (log w1 ++ [EvPrint (&"Lade HTML: " ++ start_url)])
          = requests (log w1)) as ->.
  { unfold requests. rewrite omap_app. simpl. by rewrite app_nil_r. }
  rewrite <- (assoc_L (++)).
  by destruct (env_get E (requests (log w1)) start_url).
Qed.

Lemma ensure_dir_log p w : log (fst (ensure_dir p w)) = log w.
Proof. unfold ensure_dir. by destruct (existsb _ _). Qed.

Lemma keeps_page_body E start_url out_dir prefix html_name resp f0 l0 :
  keeps_inv E (path_join (path_of_str out_dir) &"assets") f0 l0
            (page_body E start_url out_dir prefix html_name resp).
Proof.
  unfold page_body.
  apply keeps_bind; [apply keeps_raise_for_status|]. intros ?.
  apply keeps_bind; [apply keeps_rewrite_document|]. intros soup.
  apply keeps_bind; [apply keeps_write_file|]. intros ?. apply keeps_print.
Qed.

(** One run of [process_page]: every request after that of the page
    itself is issued for a path that existed neither at the request nor
    at the start of the run. *)
Lemma process_page_skips (E : Env) (start_url out_dir prefix html_name : str)
    (w : World) :
  let assets_dir := path_join (path_of_str out_dir) &"assets" in
  let w' := fst (process_page E start_url out_dir prefix html_name w) in
  exists new, run_log start_url (log w) (log w') new
              /\ Forall (fresh_download E assets_dir (fs w)) new.
Proof.
  cbv zeta. rewrite process_page_run.
  pose proof (ensure_dir_fs_le (path_of_str out_dir) w) as Hle.
  pose proof (ensure_dir_log (path_of_str out_dir) w) as Hlog.
  destruct (ensure_dir (path_of_str out_dir) w) as [w1 [[]|e]]; simpl in Hle, Hlog.
  2:{ exists []. split; [left|done]. by split. }
  set (w3 := page_requested start_url w1).
  assert (skip_inv E (path_join (path_of_str out_dir) &"assets") (fs w) (log w3) w3)
    as Hinv.
  { split; [done|]. exists []. split; [by rewrite app_nil_r|done]. }
  assert (forall w4,
            skip_inv E (path_join (path_of_str out_dir) &"assets") (fs w) (log w3) w4 ->
            exists new, run_log start_url (log w) (log w4) new
              /\ Forall (fresh_download E (path_join (path_of_str out_dir) &"assets")
                                        (fs w)) new)
    as Hdone.
  { intros w4 [_ (new & Hl & Hall)]. exists new. split.
    - right. exists (fs w1). rewrite Hl. unfold w3, page_requested. simpl.
      by rewrite Hlog, <- !(assoc_L (++)).
    - eapply Forall_impl; [exact Hall|]. apply fresh_event_download. }
  destruct (env_get E _ start_url) as [resp|e]; [|by apply Hdone].
  apply Hdone. by apply keeps_page_body.
Qed.


(** ** The CSS rewriter *)

Lemma replace_char_same c s : replace_char c c s = s.
Proof.
  unfold replace_char. induction s as [|x s IH]; [done|]. simpl.
  rewrite IH. destruct (ceq x c) eqn:Hx; [|done].
  by apply ceq_true in Hx as ->.
Qed.

Lemma relative_str_local E url assets_dir :
  relative_str (asset_local_name (env_urlparse E) url assets_dir) assets_dir =
    ret (join &"/" (dir_segments (url_path (env_urlparse E) url)
                      ++ [asset_filename (env_urlparse E) url])).
Proof.
  unfold relative_str.
  rewrite asset_local_name_relative, asset_dir_segments, replace_char_same.
  unfold str_of_rel.
  by destruct (dir_segments (url_path (env_urlparse E) url)).
Qed.

(** The segments of a text are the text. *)
Lemma css_segments_source skip s :
  concat (map segment_source (css_segments skip s)) = drop skip s.
Proof.
  revert skip. induction s as [|c s IH]; intros skip.
  - by destruct skip.
  - destruct skip as [|k]; [|apply IH].
    cbn [css_segments]. destruct (match_at (c :: s)) as [g|].
    + cbn [map concat segment_source]. rewrite IH.
      replace (length g + 5) with (S (length g + 4)) by lia.
      cbn [take drop app]. by rewrite take_drop.
    + cbn [map concat segment_source]. rewrite IH. done.
Qed.

Section Rewriter.

Variables (E : Env) (base_url : str) (assets_dir : Path) (prefix : str).

Local Abbreviation repl' := (repl E base_url assets_dir prefix).
Local Abbreviation local_of :=
  (fun g => asset_local_name (env_urlparse E) (resolved E base_url g) assets_dir).

(** A match that is kept or only unquoted changes nothing in the world. *)
Lemma repl_passive whole g w :
  ~ downloadable E base_url g ->
  repl' whole g w = (w, Ok (replacement E base_url prefix whole g)).
Proof.
  intros Hnd. unfold repl, replacement.
  destruct (bool_decide _ || startswith _ _) eqn:Hskip; [done|].
  destruct (should_download_asset _ _) eqn:Hacc; [|done].
  exfalso. apply Hnd. apply orb_false_iff in Hskip as [Hne Hdata].
  apply bool_decide_eq_false in Hne. by repeat split.
Qed.

(** A match that is downloaded: the existence check, the download when
    the path is absent, and the replacement text. *)
Lemma repl_active whole g w :
  downloadable E base_url g ->
  repl' whole g w =
    if path_exists (fs w) (local_of g)
    then (w, Ok (replacement E base_url prefix whole g))
    else
      match download_file E (resolved E base_url g) (local_of g)
              (printed (&"[CSS] Lade " ++ resolved E base_url g) w) with
      | (w', Ok _) => (w', Ok (replacement E base_url prefix whole g))
      | (w', Raise e) => (w', Raise e)
      end.
Proof.
  intros (Hne & Hdata & Hacc). unfold repl, replacement, resolved in *.
  rewrite (bool_decide_false _ Hne), Hdata, Hacc. cbn [orb negb].
  rewrite bind_run. unfold exists_ at 1.
  rewrite relative_str_local.
  destruct (path_exists _ _); [done|].
  rewrite !bind_run. unfold print at 1. fold (printed (&"[CSS] Lade "
    ++ env_urljoin E base_url (strip_quotes (strip g))) w).
  by destruct (download_file _ _ _ _) as [w' [[]|e]].
Qed.

(** Whatever the world, the text a match is replaced by is the one the
    specification describes. *)
Lemma repl_value whole g :
  yields (repl' whole g) (fun r => r = replacement E base_url prefix whole g).
Proof.
  intros w r. destruct (decide (downloadable E base_url g)) as [Hd|Hd].
  - rewrite (repl_active _ _ _ Hd). destruct (path_exists _ _).
    + by intros [= <-].
    + destruct (download_file _ _ _ _) as [w' [[]|e]]; [|done].
      by intros [= <-].
  - rewrite (repl_passive _ _ _ Hd). by intros [= <-].
Qed.

Lemma sub_segments_value segs :
  yields (sub_segments E base_url assets_dir prefix segs)
         (fun out => out = concat (map (segment_result E base_url prefix) segs)).
Proof.
  induction segs as [|[c|whole g] segs IH]; cbn [sub_segments].
  - by apply yields_ret.
  - eapply yields_bind; [exact IH|]. intros out ->. by apply yields_ret.
  - eapply yields_bind; [apply repl_value|]. intros r ->.
    eapply yields_bind; [exact IH|]. intros out ->. by apply yields_ret.
Qed.

Lemma rewrite_css_urls_value css :
  yields (rewrite_css_urls E base_url assets_dir prefix css)
         (fun out => out = rewritten_text E base_url prefix css).
Proof. apply sub_segments_value. Qed.

(** Segments without a downloadable match are rewritten without any
    effect. *)
Lemma sub_segments_passive segs w :
  Forall (fun seg => match seg with
                     | Lit _ => True
                     | UrlMatch _ g => ~ downloadable E base_url g
                     end) segs ->
  sub_segments E base_url assets_dir prefix segs w =
    (w, Ok (concat (map (segment_result E base_url prefix) segs))).
Proof.
  induction 1 as [|[c|whole g] segs Hseg _ IH]; cbn [sub_segments].
  - done.
  - by rewrite bind_run, IH.
  - by rewrite bind_run, (repl_passive _ _ _ Hseg), bind_run, IH.
Qed.

(** A failure of [repl] at a match ends the rewriting with that failure. *)
Lemma sub_segments_raise pre whole g post w0 w out w' e :
  sub_segments E base_url assets_dir prefix pre w0 = (w, Ok out) ->
  repl' whole g w = (w', Raise e) ->
  sub_segments E base_url assets_dir prefix (pre ++ UrlMatch whole g :: post) w0
    = (w', Raise e).
Proof.
  revert w0 out. induction pre as [|[c|wh g'] pre IH]; intros w0 out Hpre Hr.
  - cbn [sub_segments] in Hpre. injection Hpre as <- _.
    cbn [app sub_segments]. by rewrite bind_run, Hr.
  - cbn [app sub_segments] in *. rewrite bind_run in *.
    destruct (sub_segments _ _ _ _ pre w0) as [w1 [o|e1]] eqn:Hp; [|done].
    injection Hpre as <- _. by rewrite (IH _ _ Hp Hr).
  - cbn [app sub_segments] in *. rewrite bind_run in *.
    destruct (repl' wh g' w0) as [w1 [r|e1]]; [|done].
    rewrite bind_run in *.
    destruct (sub_segments _ _ _ _ pre w1) as [w2 [o|e2]] eqn:Hp; [|done].
    injection Hpre as <- _. by rewrite (IH _ _ Hp Hr).
Qed.

End Rewriter.

Lemma sub_segments_lits E base_url assets_dir prefix s rest w :
  sub_segments E base_url assets_dir prefix (map Lit s ++ rest) w =
    match sub_segments E base_url assets_dir prefix rest w with
    | (w', Ok out) => (w', Ok (s ++ out))
    | (w', Raise e) => (w', Raise e)
    end.
Proof.
  induction s as [|c s IH]; cbn [map app sub_segments].
  - by destruct (sub_segments _ _ _ _ rest w) as [w' [out|e]].
  - rewrite bind_run, IH.
    by destruct (sub_segments _ _ _ _ rest w) as [w' [out|e]].
Qed.

Lemma requests_app l1 l2 : requests (l1 ++ l2) = requests l1 ++ requests l2.
Proof. apply omap_app. Qed.

Lemma parent_snoc (p : Path) (a b : str) : parent (p ++ [a; b]) = p ++ [a].
Proof.
  unfold parent.
  assert (is_anchor (p ++ [a; b]) = false) as ->.
  { unfold is_anchor. rewrite !orb_false_iff, !bool_decide_eq_false.
    repeat split; intros H%(f_equal length); rewrite length_app in H;
      simpl in H; lia. }
  change [a; b] with ([a] ++ [b]). by rewrite (assoc_L (++)), removelast_last.
Qed.

Lemma prefixes_self (p : Path) : p <> [] -> p ∈ prefixes p.
Proof.
  intros Hp. unfold prefixes. apply list_elem_of_fmap.
  exists (length p). split; [by rewrite firstn_all|].
  apply elem_of_seq. destruct p; simpl in *; [done|lia].
Qed.

(** The example of the specification, in any environment in which
    [img/bg.png] resolves to a URL with the path [/img/bg.png]. *)
Lemma rewrite_css_example (E : Env) (base_url : str) (assets_dir : Path)
    (prefix : str) (w : World) (full : str) (resp : Response) :
  env_urljoin E base_url &"img/bg.png" = full ->
  str_in (scheme (env_urlparse E full)) REJECTED_SCHEMES = false ->
  path (env_urlparse E full) = &"/img/bg.png" ->
  query (env_urlparse E full) = [] ->
  path_exists (fs w) (assets_dir ++ [ &"img"; &"bg.png" ]) = false ->
  existsb (is_file (fs w)) (prefixes (assets_dir ++ [ &"img" ])) = false ->
  env_get E (requests (log w)) full = Ok resp ->
  (400 <=? status resp) && (status resp <? 600) = false ->
  let res := rewrite_css_urls E base_url assets_dir prefix
               &"body { background: url(img/bg.png); }" w in
  snd res = Ok (&"body { background: url('" ++ prefix ++ &"/img/bg.png'); }")
  /\ requests (log (fst res)) = requests (log w) ++ [full]
  /\ files (fs (fst res)) =
       <[assets_dir ++ [ &"img"; &"bg.png" ] := content resp]> (files (fs w)).
Proof.
  intros Hjoin Hscheme Hpath Hquery Habsent Hdirs Hget Hstatus. cbv zeta.
  assert (should_download_asset (env_urlparse E) full = true) as Hacc.
  { unfold should_download_asset. rewrite Hscheme, Hpath. reflexivity. }
  assert (downloadable E base_url &"img/bg.png") as Hd.
  { unfold downloadable.
    change (strip_quotes (strip &"img/bg.png")) with &"img/bg.png".
    split; [done|]. split; [reflexivity|]. by rewrite Hjoin. }
  assert (resolved E base_url &"img/bg.png" = full) as Hres by exact Hjoin.
  assert (asset_local_name (env_urlparse E) full assets_dir
          = assets_dir ++ [ &"img"; &"bg.png" ]) as Hlocal.
  { rewrite asset_local_name_parts, asset_dir_segments.
    unfold asset_filename, url_path. rewrite Hpath, Hquery. reflexivity. }
  assert (replacement E base_url prefix &"url(img/bg.png)" &"img/bg.png"
          = &"url('" ++ prefix ++ &"/img/bg.png')") as Hrepl.
  { unfold replacement.
    change (strip_quotes (strip &"img/bg.png")) with &"img/bg.png".
    rewrite Hjoin, Hacc. cbn [orb negb].
    change (bool_decide (&"img/bg.png" = []) || startswith &"img/bg.png" &"data:")
      with false. cbv iota.
    unfold public_path, asset_filename, url_path.
    rewrite Hpath, Hquery. cbn. by rewrite <- !(assoc_L (++)). }
  unfold rewrite_css_urls.
  change (css_segments 0 &"body { background: url(img/bg.png); }")
    with (map Lit &"body { background: "
            ++ UrlMatch &"url(img/bg.png)" &"img/bg.png" :: map Lit &"; }" ++ []).
  rewrite sub_segments_lits. cbn [sub_segments]. rewrite bind_run.
  rewrite (repl_active _ _ _ _ _ _ _ Hd), Hres, Hlocal, Habsent, Hrepl.
  rewrite download_file_run. unfold printed. cbn [fs log].
  rewrite parent_snoc, Hdirs. cbv zeta.
  rewrite requests_app, app_nil_r, Hget, Hstatus.
  unfold write_file. cbn [fs log files dirs]. rewrite parent_snoc.
  assert (is_dir
            {| files := files (fs w);
               dirs := list_to_set (prefixes (assets_dir ++ [ &"img" ])) ∪ dirs (fs w) |}
            (assets_dir ++ [ &"img"; &"bg.png" ]) = false) as ->.
  { pose proof (ensure_parent_keeps_absent _ w Habsent) as Hk.
    unfold ensure_dir in Hk. rewrite parent_snoc, Hdirs in Hk. cbn in Hk.
    unfold path_exists in Hk. by apply orb_false_iff in Hk as [_ ?]. }
  assert (is_dir
            {| files := files (fs w);
               dirs := list_to_set (prefixes (assets_dir ++ [ &"img" ])) ∪ dirs (fs w) |}
            (assets_dir ++ [ &"img" ]) = true) as ->.
  { unfold is_dir. cbn [dirs]. rewrite bool_decide_true; [apply orb_true_r|].
    apply elem_of_union. left. apply elem_of_list_to_set, prefixes_self.
    by destruct assets_dir. }
  cbn [negb]. rewrite bind_run, sub_segments_lits. cbn [sub_segments ret fst snd fs log files].
  split; [|split].
  - f_equal. cbn. by rewrite <- !(assoc_L (++)).
  - rewrite !requests_app. cbn. by rewrite app_nil_r.
  - done.
Qed.

(** C8, counterexample: with the base URL [https://example.com/css/site.css]
    the reference [img/bg.png] is rewritten to [/assets/css/img/bg.png]; the
    output does not contain [url('/assets/img/bg.png')], and the one
    download is that of [https://example.com/css/img/bg.png]. *)
Lemma css_example_under_directory :
  let E := py_env (site_get [ (&"https://example.com/css/img/bg.png", &"PNGDATA") ])
                  (fun _ => []) in
  let res := rewrite_css_urls E &"https://example.com/css/site.css"
               [ &"site_mirror"; &"assets" ] &"/assets"
               &"body { background: url(img/bg.png); }" empty_world in
  snd res = Ok &"body { background: url('/assets/css/img/bg.png'); }"
  /\ has_substring &"url('/assets/img/bg.png')"
                   &"body { background: url('/assets/css/img/bg.png'); }" = false
  /\ requests (log (fst res)) = [ &"https://example.com/css/img/bg.png" ].
Proof. vm_compute. by repeat split. Qed.

(** C8, amended: whenever [rewrite_css_urls] returns, its result is the
    text in which every match the classifier accepts has become
    [url('<public_prefix>/<mapped path relative to assets_dir>')], the
    components of the path joined by slashes; such a match is replaced
    without a download when the mapped path exists and after one successful
    download otherwise.  In particular, for the text
    [body { background: url(img/bg.png); }] and a base URL against which
    [img/bg.png] resolves to a URL with the path [/img/bg.png] (a base at
    the root of its site), with no local file yet and a server that
    answers, the result is [body { background: url('<prefix>/img/bg.png'); }]
    and exactly one request, for the resolved URL, is made. *)
Theorem rewrite_css_urls_replaces
    (E : Env) (base_url : str) (assets_dir : Path) (prefix : str) :
  (forall css w w' out,
      rewrite_css_urls E base_url assets_dir prefix css w = (w', Ok out) ->
      out = rewritten_text E base_url prefix css)
  /\ (forall css, concat (map segment_source (css_segments 0 css)) = css)
  /\ (forall whole g,
        downloadable E base_url g ->
        replacement E base_url prefix whole g =
          &"url('" ++ prefix ++ &"/"
            ++ join &"/" (default []
                 (relative_to
                    (asset_local_name (env_urlparse E) (resolved E base_url g)
                                      assets_dir) assets_dir))
            ++ &"')")
  /\ (forall whole g w,
        downloadable E base_url g ->
        path_exists (fs w)
          (asset_local_name (env_urlparse E) (resolved E base_url g) assets_dir)
          = true ->
        repl E base_url assets_dir prefix whole g w =
          (w, Ok (replacement E base_url prefix whole g)))
  /\ (forall whole g w w',
        downloadable E base_url g ->
        path_exists (fs w)
          (asset_local_name (env_urlparse E) (resolved E base_url g) assets_dir)
          = false ->
        download_file E (resolved E base_url g)
          (asset_local_name (env_urlparse E) (resolved E base_url g) assets_dir)
          (printed (&"[CSS] Lade " ++ resolved E base_url g) w) = (w', Ok tt) ->
        repl E base_url assets_dir prefix whole g w =
          (w', Ok (replacement E base_url prefix whole g)))
  /\ (forall w full resp,
        env_urljoin E base_url &"img/bg.png" = full ->
        str_in (scheme (env_urlparse E full)) REJECTED_SCHEMES = false ->
        path (env_urlparse E full) = &"/img/bg.png" ->
        query (env_urlparse E full) = [] ->
        path_exists (fs w) (assets_dir ++ [ &"img"; &"bg.png" ]) = false ->
        existsb (is_file (fs w)) (prefixes (assets_dir ++ [ &"img" ])) = false ->
        env_get E (requests (log w)) full = Ok resp ->
        (400 <=? status resp) && (status resp <? 600) = false ->
        let res := rewrite_css_urls E base_url assets_dir prefix
                     &"body { background: url(img/bg.png); }" w in
        snd res = Ok (&"body { background: url('" ++ prefix ++ &"/img/bg.png'); }")
        /\ requests (log (fst res)) = requests (log w) ++ [full]
        /\ files (fs (fst res)) =
             <[assets_dir ++ [ &"img"; &"bg.png" ] := content resp]> (files (fs w))).
Proof.
  split; [|split; [|split; [|split; [|split]]]].
  - intros css w w' out H.
    apply (rewrite_css_urls_value E base_url assets_dir prefix css w).
    by rewrite H.
  - intros css. by rewrite css_segments_source.
  - intros whole g (Hne & Hdata & Hacc). unfold replacement, public_path.
    fold (resolved E base_url g).
    rewrite (bool_decide_false _ Hne), Hdata. unfold resolved in *.
    rewrite Hacc. cbn [orb negb].
    by rewrite asset_local_name_relative, asset_dir_segments, <- !(assoc_L (++)).
  - intros whole g w Hd Hp. by rewrite (repl_active _ _ _ _ _ _ _ Hd), Hp.
  - intros whole g w w' Hd Hp Hdl.
    by rewrite (repl_active _ _ _ _ _ _ _ Hd), Hp, Hdl.
  - intros w full resp. apply rewrite_css_example.
Qed.

Lemma rewrite_css_urls_replaces_witness :
  let E := py_env (site_get [ (&"https://example.com/img/bg.png", &"PNGDATA") ])
                  (fun _ => []) in
  let full := &"https://example.com/img/bg.png" in
  let assets_dir := [ &"site_mirror"; &"assets" ] in
  let res := rewrite_css_urls E &"https://example.com" assets_dir &"/assets"
               &"body { background: url(img/bg.png); }" empty_world in
  env_urljoin E &"https://example.com" &"img/bg.png" = full
  /\ str_in (scheme (env_urlparse E full)) REJECTED_SCHEMES = false
  /\ path (env_urlparse E full) = &"/img/bg.png"
  /\ query (env_urlparse E full) = []
  /\ path_exists (fs empty_world) (assets_dir ++ [ &"img"; &"bg.png" ]) = false
  /\ existsb (is_file (fs empty_world)) (prefixes (assets_dir ++ [ &"img" ])) = false
  /\ env_get E (requests (log empty_world)) full = Ok (ok_response &"PNGDATA")
  /\ snd res = Ok &"body { background: url('/assets/img/bg.png'); }"
  /\ requests (log (fst res)) = [full].
Proof.
  cbv zeta.
  pose proof (proj2 (proj2 (proj2 (proj2 (proj2
    (rewrite_css_urls_replaces
       (py_env (site_get [ (&"https://example.com/img/bg.png", &"PNGDATA") ])
               (fun _ => []))
       &"https://example.com" [ &"site_mirror"; &"assets" ] &"/assets")))))
    empty_world &"https://example.com/img/bg.png" (ok_response &"PNGDATA")
    eq_refl eq_refl eq_refl eq_refl eq_refl eq_refl eq_refl eq_refl)
    as (Hout & Hreq & _).
  do 7 (split; [reflexivity|]). split; [exact Hout|exact Hreq].
Defined.

(** ** The document *)

Lemma assoc_get_set_ne k k' v l :
  k <> k' -> assoc_get k (assoc_set k' v l) = assoc_get k l.
Proof.
  intros Hne. induction l as [|[a b] l IH]; simpl.
  - by rewrite bool_decide_false by done.
  - destruct (decide (a = k')) as [->|Ha].
    + rewrite (bool_decide_true (k' = k')) by done. simpl.
      by rewrite !(bool_decide_false (k' = k)) by done.
    + rewrite (bool_decide_false (a = k')) by done. simpl. by rewrite IH.
Qed.

Lemma same_but_style_refl t : same_but_style t t.
Proof. by repeat split. Qed.

Lemma same_but_style_set t t' v :
  same_but_style t t' -> tag_get &"style" t' <> None ->
  same_but_style t (tag_set &"style" v t').
Proof.
  intros (Hn & Hs & Hk & Hnone) Hstyle. repeat split; simpl; try done.
  - intros k Hne. unfold tag_get in *. simpl.
    rewrite assoc_get_set_ne by done. by apply Hk.
  - intros Ht. specialize (Hnone Ht). subst t'. done.
Qed.

Lemma kept_at_other i j t t2 doc :
  kept_at i t doc -> j <> i -> kept_at i t (<[j := t2]> doc).
Proof.
  intros (t' & Hl & Hs) Hne. exists t'. split; [|done].
  by rewrite list_lookup_insert_ne.
Qed.

Lemma kept_at_style i t t' v doc :
  kept_at i t doc -> doc !! i = Some t' -> tag_get &"style" t' <> None ->
  kept_at i t (<[i := tag_set &"style" v t']> doc).
Proof.
  intros (t'' & Hl & Hs) Hl' Hstyle. rewrite Hl in Hl'. injection Hl' as ->.
  exists (tag_set &"style" v t'). split.
  - apply list_lookup_insert_eq. by eapply lookup_lt_Some.
  - by apply same_but_style_set.
Qed.

Lemma find_positions_elem f (doc : Doc) j :
  j ∈ find_positions f doc -> exists t, doc !! j = Some t /\ f t = true.
Proof.
  unfold find_positions. intros Hj%list_elem_of_In%filter_In.
  destruct Hj as [_ Hj]. destruct (doc !! j) as [t|]; [|done]. eauto.
Qed.

Section DocumentSteps.

Variables (E : Env) (start_url : str) (assets_dir : Path) (prefix : str).

(** What a round of each loop can do to the document. *)
Lemma direct_step_shape attr j doc :
  yields (direct_step E start_url assets_dir prefix attr j doc)
    (fun doc' =>
       doc' = doc
       \/ exists t v nv,
            doc !! j = Some t /\ tag_get attr t = Some v
            /\ should_download_asset (env_urlparse E)
                 (env_urljoin E start_url v) = true
            /\ doc' = <[j := tag_set attr nv t]> doc).
Proof.
  unfold direct_step. destruct (doc !! j) as [t|]; [|apply yields_ret; by left].
  destruct (tag_get attr t) as [v|] eqn:Hv; [|apply yields_ret; by left].
  case_bool_decide; [apply yields_ret; by left|].
  destruct (should_download_asset _ _) eqn:Hacc;
    [|apply yields_ret; by left].
  cbn [negb].
  eapply yields_bind; [intros ? ? _; exact I|]. intros present _.
  eapply yields_bind; [intros ? ? _; exact I|]. intros [] _.
  - eapply yields_bind; [intros ? ? _; exact I|]. intros rel _.
    apply yields_ret. right. by exists t, v, (prefix ++ &"/" ++ rel).
  - apply yields_ret. by left.
Qed.

Lemma style_tag_step_shape j doc :
  yields (style_tag_step E start_url assets_dir prefix j doc)
    (fun doc' =>
       doc' = doc
       \/ exists t nv, doc !! j = Some t /\ doc' = <[j := set_string nv t]> doc).
Proof.
  unfold style_tag_step. destruct (doc !! j) as [t|]; [|apply yields_ret; by left].
  destruct (tag_string t) as [css|]; [|apply yields_ret; by left].
  case_bool_decide; [apply yields_ret; by left|].
  eapply yields_bind; [intros ? ? _; exact I|]. intros nv _.
  apply yields_ret. right. by exists t, nv.
Qed.

Lemma style_attr_step_shape j doc :
  yields (style_attr_step E start_url assets_dir prefix j doc)
    (fun doc' =>
       doc' = doc
       \/ exists t nv,
            doc !! j = Some t /\ tag_get &"style" t <> None
            /\ doc' = <[j := tag_set &"style" nv t]> doc).
Proof.
  unfold style_attr_step. destruct (doc !! j) as [t|]; [|apply yields_ret; by left].
  destruct (tag_get &"style" t) as [css|] eqn:Hs; [|apply yields_ret; by left].
  eapply yields_bind; [intros ? ? _; exact I|]. intros nv _.
  apply yields_ret. right. exists t, nv. by rewrite Hs.
Qed.

Lemma stylesheet_step_shape j doc :
  yields (stylesheet_step E start_url assets_dir prefix j doc)
    (fun doc' =>
       doc' = doc
       \/ exists t nv,
            doc !! j = Some t /\ doc' = <[j := tag_set &"href" nv t]> doc).
Proof.
  unfold stylesheet_step. destruct (doc !! j) as [t|]; [|apply yields_ret; by left].
  destruct (tag_get &"href" t) as [v|]; [|apply yields_ret; by left].
  case_bool_decide; [apply yields_ret; by left|].
  destruct (negb _); [apply yields_ret; by left|].
  eapply yields_bind; [intros ? ? _; exact I|]. intros present _.
  eapply yields_bind; [intros ? ? _; exact I|]. intros [] _.
  - eapply yields_bind; [intros ? ? _; exact I|]. intros rel _.
    apply yields_ret. right. by exists t, (prefix ++ &"/" ++ rel).
  - apply yields_ret. by left.
Qed.

Section DataTag.

Variables (i : nat) (tag : Tag) (v : str).
Hypothesis Hname : tag_name tag = &"img".
Hypothesis Hsrc : tag_get &"src" tag = Some v.
Hypothesis Hrejected :
  should_download_asset (env_urlparse E) (env_urljoin E start_url v) = false.

Lemma direct_phase_keeps doc :
  kept_at i tag doc ->
  yields (direct_phase E start_url assets_dir prefix doc) (kept_at i tag).
Proof.
  intros Hdoc. unfold direct_phase.
  apply (yields_for_each (kept_at i tag)); [done|].
  intros [n attr] d0 Hpair Hd0.
  apply (yields_for_each (kept_at i tag)); [done|].
  intros j d Hj Hd.
  eapply yields_weaken; [apply direct_step_shape|]. cbv beta.
  intros d' [->|(t & v' & nv & Hl & Hv & Hacc & ->)]; [done|].
  destruct (decide (j = i)) as [->|Hne]; [|by apply kept_at_other].
  exfalso. apply find_positions_elem in Hj as (t0 & Ht0 & Hn0).
  apply bool_decide_eq_true in Hn0.
  destruct Hd0 as (t0' & Ht0' & Hn0' & _). rewrite Ht0 in Ht0'.
  injection Ht0' as <-. rewrite Hn0', Hname in Hn0. subst n.
  assert (attr = &"src") as ->.
  { unfold tag_attr_pairs in Hpair.
    repeat (apply elem_of_cons in Hpair as [Hpair|Hpair];
            [by inversion Hpair|]).
    by apply elem_of_nil in Hpair. }
  destruct Hd as (t' & Ht' & _ & _ & Hk & _). rewrite Hl in Ht'.
  injection Ht' as <-. rewrite Hk, Hsrc in Hv by done.
  injection Hv as <-. congruence.
Qed.

Lemma style_phase_keeps doc :
  kept_at i tag doc ->
  yields (style_phase E start_url assets_dir prefix doc) (kept_at i tag).
Proof.
  intros Hdoc. unfold style_phase.
  eapply yields_bind.
  - apply (yields_for_each (kept_at i tag)); [done|].
    intros j d Hj Hd.
    eapply yields_weaken; [apply style_tag_step_shape|]. cbv beta.
    intros d' [->|(t & nv & Hl & ->)]; [done|].
    destruct (decide (j = i)) as [->|Hne]; [|by apply kept_at_other].
    exfalso. apply find_positions_elem in Hj as (t0 & Ht0 & Hn0).
    apply bool_decide_eq_true in Hn0.
    destruct Hdoc as (t0' & Ht0' & Hn0' & _). rewrite Ht0 in Ht0'.
    injection Ht0' as <-. rewrite Hn0', Hname in Hn0. done.
  - intros d1 Hd1.
    apply (yields_for_each (kept_at i tag)); [done|].
    intros j d Hj Hd.
    eapply yields_weaken; [apply style_attr_step_shape|]. cbv beta.
    intros d' [->|(t & nv & Hl & Hst & ->)]; [done|].
    destruct (decide (j = i)) as [->|Hne]; [|by apply kept_at_other].
    by apply kept_at_style.
Qed.

Lemma stylesheet_phase_keeps doc :
  kept_at i tag doc ->
  yields (stylesheet_phase E start_url assets_dir prefix doc) (kept_at i tag).
Proof.
  intros Hdoc. unfold stylesheet_phase.
  apply (yields_for_each (kept_at i tag)); [done|].
  intros j d Hj Hd.
  eapply yields_weaken; [apply stylesheet_step_shape|]. cbv beta.
  intros d' [->|(t & nv & Hl & ->)]; [done|].
  destruct (decide (j = i)) as [->|Hne]; [|by apply kept_at_other].
  exfalso. apply find_positions_elem in Hj as (t0 & Ht0 & Hn0).
  unfold is_stylesheet_link in Hn0. apply andb_true_iff in Hn0 as [Hn0 _].
  apply bool_decide_eq_true in Hn0.
  destruct Hdoc as (t0' & Ht0' & Hn0' & _). rewrite Ht0 in Ht0'.
  injection Ht0' as <-. rewrite Hn0', Hname in Hn0. done.
Qed.

Lemma rewrite_document_keeps doc :
  doc !! i = Some tag ->
  yields (rewrite_document E start_url assets_dir prefix doc) (kept_at i tag).
Proof.
  intros Hdoc. unfold rewrite_document.
  eapply yields_bind; [apply direct_phase_keeps|].
  { exists tag. split; [done|apply same_but_style_refl]. }
  intros d1 Hd1. eapply yields_bind; [by apply style_phase_keeps|].
  intros d2 Hd2. by apply stylesheet_phase_keeps.
Qed.

Lemma direct_step_rejected doc w :
  doc !! i = Some tag ->
  direct_step E start_url assets_dir prefix &"src" i doc w = (w, Ok doc).
Proof.
  intros Hdoc. unfold direct_step. rewrite Hdoc, Hsrc, Hrejected.
  by case_bool_decide.
Qed.

End DataTag.

End DocumentSteps.

(** When [process_page] completes, the file it wrote is the serialization
    of the document that phases 1 to 3 returned for the parsed page. *)
Lemma process_page_output (E : Env) (start_url out_dir prefix html_name : str)
    (w w' : World) :
  process_page E start_url out_dir prefix html_name w = (w', Ok tt) ->
  exists resp w1 w2 doc',
    rewrite_document E start_url (path_join (path_of_str out_dir) &"assets")
      prefix (env_parse E (text resp)) w1 = (w2, Ok doc')
    /\ files (fs w') !! path_join (path_of_str out_dir) html_name
       = Some (env_serialize E doc').
Proof.
  rewrite process_page_run.
  destruct (ensure_dir _ w) as [wd [[]|e]]; [|done].
  destruct (env_get E _ start_url) as [resp|e]; [|done].
  unfold page_body. rewrite bind_run. unfold raise_for_status at 1.
  destruct (_ && _); [done|]. cbn [ret]. rewrite bind_run.
  destruct (rewrite_document _ _ _ _ _ _) as [w2 [doc'|e]] eqn:Hdoc; [|done].
  rewrite bind_run. unfold write_file at 1.
  destruct (is_dir _ _); [done|]. destruct (negb _); [done|].
  unfold print. intros [= <-].
  exists resp, (page_requested start_url wd), w2, doc'. split; [done|].
  cbn [fs files]. apply lookup_insert_eq.
Qed.

(** C9, counterexample: an [img] tag whose [src] is a [data:] URI and that
    carries a [style] attribute is changed by the processing: the
    reference in the attribute is rewritten, in the document and in the
    serialized page. *)
Lemma data_image_style_rewritten :
  let tag := {| tag_name := &"img";
                attrs := [ (&"src", &"data:image/png;base64,AAAA");
                           (&"style", &"background: url(bg.png)") ];
                tag_string := None |} in
  let tag' := {| tag_name := &"img";
                 attrs := [ (&"src", &"data:image/png;base64,AAAA");
                            (&"style", &"background: url('/assets/bg.png')") ];
                 tag_string := None |} in
  let E := py_env (site_get [ (&"https://example.com/page", &"<img>");
                              (&"https://example.com/bg.png", &"PNGDATA") ])
                  (fun _ => [tag]) in
  let run := process_page E &"https://example.com/page" &"site_mirror" &"/assets"
               &"index.html" empty_world in
  snd (rewrite_document E &"https://example.com/page" [ &"site_mirror"; &"assets" ]
         &"/assets" [tag] empty_world) = Ok [tag']
  /\ tag' <> tag
  /\ files (fs (fst run)) !! [ &"site_mirror"; &"index.html" ]
     = Some (render_doc [tag'])
  /\ render_doc [tag'] <> render_doc [tag].
Proof. vm_compute. repeat split; try reflexivity; discriminate. Qed.

(** C9, amended: a [url(...)] match whose stripped value is empty or begins
    with [data:] is replaced by itself and changes nothing in the world (no
    download), and a text with no other match is returned as it is; an
    [img] tag whose [src] resolves to a URL of scheme [data] is passed over
    by the attribute phase without a download, and in the document that
    phases 1 to 3 return (the one that is serialized) the tag has its name,
    its text and all its attributes as before, [src] among them, but for
    the value of a [style] attribute: a tag without [style] attribute is
    unchanged. *)
Theorem data_references_untouched
    (E : Env) (start_url : str) (assets_dir : Path) (prefix : str) :
  (forall base_url whole g w,
      inert_value g ->
      repl E base_url assets_dir prefix whole g w = (w, Ok whole))
  /\ (forall base_url css w,
        Forall inert_segment (css_segments 0 css) ->
        rewrite_css_urls E base_url assets_dir prefix css w = (w, Ok css))
  /\ (forall doc i tag v,
        doc !! i = Some tag ->
        tag_name tag = &"img" ->
        tag_get &"src" tag = Some v ->
        scheme (env_urlparse E (env_urljoin E start_url v)) = &"data" ->
        (forall w, direct_step E start_url assets_dir prefix &"src" i doc w
                   = (w, Ok doc))
        /\ (forall w w' doc',
              rewrite_document E start_url assets_dir prefix doc w = (w', Ok doc') ->
              exists tag', doc' !! i = Some tag' /\ same_but_style tag tag')).
Proof.
  assert (forall base_url whole g,
            inert_value g ->
            ~ downloadable E base_url g
            /\ replacement E base_url prefix whole g = whole) as Hinert.
  { intros base_url whole g Hg. split.
    - intros (Hne & Hdata & _). destruct Hg; congruence.
    - unfold replacement. destruct Hg as [->| ->]; [done|].
      by rewrite orb_true_r. }
  split; [|split].
  - intros base_url whole g w Hg.
    destruct (Hinert base_url whole g Hg) as [Hnd Hr].
    by rewrite (repl_passive _ _ _ _ _ _ _ Hnd), Hr.
  - intros base_url css w Hall. unfold rewrite_css_urls.
    rewrite sub_segments_passive.
    + f_equal. f_equal. rewrite <- (css_segments_source 0 css) at 2.
      cbn [drop]. f_equal. apply map_ext_Forall.
      eapply Forall_impl; [exact Hall|].
      intros [c|whole g] Hseg; [done|]. by apply Hinert.
    + eapply Forall_impl; [exact Hall|].
      intros [c|whole g] Hseg; [done|]. by apply (Hinert base_url whole).
  - intros doc i tag v Hdoc Hname Hsrc Hscheme.
    assert (should_download_asset (env_urlparse E) (env_urljoin E start_url v)
            = false) as Hrej.
    { unfold should_download_asset. by rewrite Hscheme. }
    split.
    + intros w. by eapply direct_step_rejected.
    + intros w w' doc' Hrun.
      apply (rewrite_document_keeps E start_url assets_dir prefix i tag v
               Hname Hsrc Hrej doc Hdoc w doc').
      by rewrite Hrun.
Qed.

Lemma data_references_untouched_witness :
  let tag := {| tag_name := &"img";
                attrs := [ (&"src", &"data:image/png;base64,AAAA") ];
                tag_string := None |} in
  let E := py_env (site_get []) (fun _ => [tag]) in
  inert_value &" 'data:image/png;base64,AAAA' "
  /\ [tag] !! 0 = Some tag
  /\ tag_name tag = &"img"
  /\ tag_get &"src" tag = Some &"data:image/png;base64,AAAA"
  /\ scheme (env_urlparse E (env_urljoin E &"https://example.com/page"
                               &"data:image/png;base64,AAAA")) = &"data"
  /\ repl E &"https://example.com/page" [ &"site_mirror"; &"assets" ] &"/assets"
          &"url( 'data:image/png;base64,AAAA' )" &" 'data:image/png;base64,AAAA' "
          empty_world
     = (empty_world, Ok &"url( 'data:image/png;base64,AAAA' )")
  /\ direct_step E &"https://example.com/page" [ &"site_mirror"; &"assets" ]
       &"/assets" &"src" 0 [tag] empty_world = (empty_world, Ok [tag]).
Proof.
  cbv zeta.
  assert (inert_value &" 'data:image/png;base64,AAAA' ") as Hin
    by (right; reflexivity).
  pose proof (data_references_untouched
                (py_env (site_get [])
                   (fun _ => [ {| tag_name := &"img";
                                  attrs := [ (&"src", &"data:image/png;base64,AAAA") ];
                                  tag_string := None |} ]))
                &"https://example.com/page" [ &"site_mirror"; &"assets" ] &"/assets")
    as (Hcss & _ & Htag).
  split; [exact Hin|]. do 4 (split; [reflexivity|]). split.
  - by apply Hcss.
  - exact (proj1 (Htag
             [ {| tag_name := &"img";
                  attrs := [ (&"src", &"data:image/png;base64,AAAA") ];
                  tag_string := None |} ] 0
             {| tag_name := &"img";
                attrs := [ (&"src", &"data:image/png;base64,AAAA") ];
                tag_string := None |}
             &"data:image/png;base64,AAAA" eq_refl eq_refl eq_refl eq_refl)
           empty_world).
Defined.

(** ** Failures *)

Lemma total_ret {A} (a : A) : total (ret a).
Proof. intros w. by exists a. Qed.

Lemma total_bind {A B} (m : M A) (k : A -> M B) :
  total m -> (forall a, total (k a)) -> total (bind m k).
Proof.
  intros Hm Hk w. rewrite bind_run. destruct (Hm w) as [a Ha].
  destruct (m w) as [w' [a'|e]]; simpl in Ha; [|done]. apply Hk.
Qed.

Lemma total_try {A} (m : M A) (h : Exn -> M A) :
  (forall e, total (h e)) -> total (try_catch m h).
Proof.
  intros Hh w. unfold try_catch. destruct (m w) as [w' [a|e]]; [by exists a|].
  apply Hh.
Qed.

Lemma total_for_each {A S} (body : A -> S -> M S) xs s :
  (forall x s, total (body x s)) -> total (for_each body xs s).
Proof.
  intros Hb. revert s. induction xs as [|x xs IH]; intros s; simpl.
  - apply total_ret.
  - apply total_bind; [apply Hb|apply IH].
Qed.

Lemma total_print msg : total (print msg).
Proof. intros w. by exists tt. Qed.

(** A round that fails ends the loop with its failure. *)
Lemma for_each_raise {A S} (body : A -> S -> M S) pre x post s w0 w s' w' e :
  for_each body pre s w0 = (w, Ok s') ->
  body x s' w = (w', Raise e) ->
  for_each body (pre ++ x :: post) s w0 = (w', Raise e).
Proof.
  revert s w0. induction pre as [|y pre IH]; intros s w0 Hpre Hx.
  - cbn in Hpre. injection Hpre as <- <-. cbn [app for_each].
    by rewrite bind_run, Hx.
  - cbn [app for_each] in *. rewrite bind_run in *.
    destruct (body y s w0) as [w1 [s1|e1]]; [|done]. by apply IH.
Qed.

Section Failures.

Variables (E : Env) (start_url : str) (assets_dir : Path) (prefix : str).

Lemma direct_step_total attr i doc :
  total (direct_step E start_url assets_dir prefix attr i doc).
Proof.
  unfold direct_step. destruct (doc !! i) as [tag|]; [|apply total_ret].
  destruct (tag_get attr tag) as [v|]; [|apply total_ret].
  case_bool_decide; [apply total_ret|].
  destruct (negb _); [apply total_ret|].
  apply total_bind; [intros w; by eexists|]. intros present.
  apply total_bind.
  - destruct present; [apply total_ret|].
    apply total_bind; [apply total_print|]. intros ?.
    apply total_try. intros e.
    apply total_bind; [apply total_print|]. intros ?. apply total_ret.
  - intros []; [|apply total_ret]. rewrite relative_str_local.
    apply total_bind; [apply total_ret|]. intros rel. apply total_ret.
Qed.

Lemma direct_phase_total doc :
  total (direct_phase E start_url assets_dir prefix doc).
Proof.
  unfold direct_phase. apply total_for_each. intros [n attr] d.
  apply total_for_each. intros i d'. apply direct_step_total.
Qed.

(** A failed download in the attribute phase: the round prints the
    failure and returns the document as it was. *)
Lemma direct_step_failure attr i doc tag v w w' e :
  let full_url := env_urljoin E start_url v in
  let local_path := asset_local_name (env_urlparse E) full_url assets_dir in
  doc !! i = Some tag ->
  tag_get attr tag = Some v ->
  v <> [] ->
  should_download_asset (env_urlparse E) full_url = true ->
  path_exists (fs w) local_path = false ->
  download_file E full_url local_path (printed (&"[HTML] Lade " ++ full_url) w)
    = (w', Raise e) ->
  direct_step E start_url assets_dir prefix attr i doc w =
    (printed (&"Fehler beim Download " ++ full_url ++ &": " ++ exn_msg e) w',
     Ok doc).
Proof.
  cbv zeta. intros Hdoc Hv Hne Hacc Habs Hdl. unfold direct_step.
  rewrite Hdoc, Hv, (bool_decide_false _ Hne), Hacc. cbn [negb].
  rewrite bind_run. unfold exists_ at 1. rewrite Habs.
  rewrite !bind_run. unfold print at 1.
  fold (printed (&"[HTML] Lade " ++ env_urljoin E start_url v) w).
  unfold try_catch. rewrite bind_run, Hdl. rewrite bind_run.
  unfold print at 1. done.
Qed.

Lemma repl_failure whole g w w' e :
  downloadable E start_url g ->
  path_exists (fs w)
    (asset_local_name (env_urlparse E) (resolved E start_url g) assets_dir)
    = false ->
  download_file E (resolved E start_url g)
    (asset_local_name (env_urlparse E) (resolved E start_url g) assets_dir)
    (printed (&"[CSS] Lade " ++ resolved E start_url g) w) = (w', Raise e) ->
  repl E start_url assets_dir prefix whole g w = (w', Raise e).
Proof.
  intros Hd Habs Hdl. by rewrite (repl_active _ _ _ _ _ _ _ Hd), Habs, Hdl.
Qed.

Lemma style_tag_step_raise i doc t css w w' e :
  doc !! i = Some t -> tag_string t = Some css -> css <> [] ->
  rewrite_css_urls E start_url assets_dir prefix css w = (w', Raise e) ->
  style_tag_step E start_url assets_dir prefix i doc w = (w', Raise e).
Proof.
  intros Hdoc Hs Hne Hr. unfold style_tag_step.
  by rewrite Hdoc, Hs, (bool_decide_false _ Hne), bind_run, Hr.
Qed.

Lemma style_attr_step_raise i doc t css w w' e :
  doc !! i = Some t -> tag_get &"style" t = Some css ->
  rewrite_css_urls E start_url assets_dir prefix css w = (w', Raise e) ->
  style_attr_step E start_url assets_dir prefix i doc w = (w', Raise e).
Proof.
  intros Hdoc Hs Hr. unfold style_attr_step.
  by rewrite Hdoc, Hs, bind_run, Hr.
Qed.

Lemma style_phase_raise_tag doc pre i post w0 w d w' e :
  find_all &"style" doc = pre ++ i :: post ->
  for_each (style_tag_step E start_url assets_dir prefix) pre doc w0 = (w, Ok d) ->
  style_tag_step E start_url assets_dir prefix i d w = (w', Raise e) ->
  style_phase E start_url assets_dir prefix doc w0 = (w', Raise e).
Proof.
  intros Hfind Hpre Hstep. unfold style_phase.
  by rewrite bind_run, Hfind, (for_each_raise _ _ _ _ _ _ _ _ _ _ Hpre Hstep).
Qed.

Lemma style_phase_raise_attr doc w0 w1 d1 pre i post w d w' e :
  for_each (style_tag_step E start_url assets_dir prefix)
           (find_all &"style" doc) doc w0 = (w1, Ok d1) ->
  find_all_styled d1 = pre ++ i :: post ->
  for_each (style_attr_step E start_url assets_dir prefix) pre d1 w1 = (w, Ok d) ->
  style_attr_step E start_url assets_dir prefix i d w = (w', Raise e) ->
  style_phase E start_url assets_dir prefix doc w0 = (w', Raise e).
Proof.
  intros Htags Hfind Hpre Hstep. unfold style_phase.
  by rewrite bind_run, Htags, Hfind,
       (for_each_raise _ _ _ _ _ _ _ _ _ _ Hpre Hstep).
Qed.

End Failures.

(** A failure of the style phase is the outcome of [process_page], in the
    world in which it was raised: nothing is written afterwards. *)
Lemma process_page_style_raise (E : Env)
    (start_url out_dir prefix html_name : str) (w0 wd w1 w' : World)
    (resp : Response) (doc1 : Doc) (e : Exn) :
  let assets_dir := path_join (path_of_str out_dir) &"assets" in
  ensure_dir (path_of_str out_dir) w0 = (wd, Ok tt) ->
  env_get E (requests (log wd)) start_url = Ok resp ->
  (400 <=? status resp) && (status resp <? 600) = false ->
  direct_phase E start_url assets_dir prefix (env_parse E (text resp))
               (page_requested start_url wd) = (w1, Ok doc1) ->
  style_phase E start_url assets_dir prefix doc1 w1 = (w', Raise e) ->
  process_page E start_url out_dir prefix html_name w0 = (w', Raise e).
Proof.
  cbv zeta. intros Hdir Hget Hstatus Hdirect Hstyle.
  rewrite process_page_run, Hdir, Hget. unfold page_body.
  rewrite bind_run. unfold raise_for_status at 1. rewrite Hstatus. cbn [ret].
  unfold rewrite_document. rewrite !bind_run, Hdirect.
  by rewrite bind_run, Hstyle.
Qed.



(** ** External stylesheets *)

(** C1, the code at a failing input: a page with one stylesheet link, whose
    stylesheet refers to an image.  Phase 1 handles the pair
    ([link], [href]) first: it stores the stylesheet as fetched and sets
    [href] to the public path, so that phase 3 resolves the public path,
    finds no file for it and requests a URL the server does not have.  At
    the end the file at the mapped path of the stylesheet holds the raw
    text, not the text the rewriter returns for it, and the image was
    never requested. *)
Theorem stylesheet_stored_raw :
  let link := {| tag_name := &"link";
                 attrs := [ (&"rel", &"stylesheet"); (&"href", &"style.css") ];
                 tag_string := None |} in
  let css := &"body { background: url(bg.png); }" in
  let E := py_env (site_get [ (&"https://example.com/page",
                               &"<link rel=stylesheet href=style.css>");
                              (&"https://example.com/style.css", css);
                              (&"https://example.com/bg.png", &"PNGDATA") ])
                  (fun _ => [link]) in
  let assets_dir := [ &"site_mirror"; &"assets" ] in
  let run := process_page E &"https://example.com/page" &"site_mirror" &"/assets"
               &"index.html" empty_world in
  is_stylesheet_link link = true
  /\ should_download_asset (env_urlparse E)
       (env_urljoin E &"https://example.com/page" &"style.css") = true
  /\ asset_local_name (env_urlparse E)
       (env_urljoin E &"https://example.com/page" &"style.css") assets_dir
     = assets_dir ++ [ &"style.css" ]
  /\ snd run = Ok tt
  /\ files (fs (fst run)) !! (assets_dir ++ [ &"style.css" ]) = Some css
  /\ rewritten_text E &"https://example.com/style.css" &"/assets" css
     = &"body { background: url('/assets/bg.png'); }"
  /\ files (fs (fst run)) !! (assets_dir ++ [ &"bg.png" ]) = None
  /\ requests (log (fst run))
     = [ &"https://example.com/page"; &"https://example.com/style.css";
         &"https://example.com/assets/style.css" ]
  /\ files (fs (fst run)) !! [ &"site_mirror"; &"index.html" ]
     = Some (render_doc
               [ {| tag_name := &"link";
                    attrs := [ (&"rel", &"stylesheet");
                               (&"href", &"/assets/style.css") ];
                    tag_string := None |} ]).
Proof. vm_compute. by repeat split. Qed.

(** * Further properties of the code *)

(** ** The local path mapper *)

(** X1: the sanitized query holds only characters of [0-9A-Za-z._-]
    (the underscore among them), it is as long as the query, and
    sanitizing is idempotent. *)
Theorem sanitize_query_safe (q : str) :
  Forall (fun c => safe_char c = true) (sanitize_query q)
  /\ length (sanitize_query q) = length q
  /\ sanitize_query (sanitize_query q) = sanitize_query q.
Proof.
  unfold sanitize_query. split; [|split].
  - apply Forall_fmap, Forall_true. intros c. simpl.
    by destruct (safe_char c) eqn:Hc.
  - apply length_map.
  - rewrite <- list_fmap_compose. apply list_fmap_ext. intros i c _. simpl.
    by destruct (safe_char c) eqn:Hc; [rewrite Hc|].
Qed.

Lemma asset_filename_not_dotdot urlparse url :
  asset_filename urlparse url <> &"..".
Proof.
  destruct (asset_filename_split urlparse url) as (s & Hs & _ & Hne & Hor).
  destruct (final_ext_shape urlparse url) as (e & He & Hdot & _).
  rewrite Hs, He. rewrite He in Hor. intros Heq.
  destruct s as [|c1 [|c2 s]]; [done| |].
  - injection Heq as -> Heq. destruct e; [|done]. by destruct Hor.
  - injection Heq as _ _ Heq. by destruct s.
Qed.

(** X2: whatever the URL and its query hold, the file name
    [asset_local_name] computes is one proper path component: it is not
    empty, holds no slash and is neither [.] nor [..]; so the local path
    has exactly one component more than the base directory and the
    directories of the URL path, and that component is the file name. *)
Theorem asset_filename_component
    (urlparse : str -> ParseResult) (url : str) (base_dir : Path) :
  asset_filename urlparse url <> []
  /\ ("/"%char ∉ asset_filename urlparse url)
  /\ asset_filename urlparse url <> &"."
  /\ asset_filename urlparse url <> &".."
  /\ length (asset_local_name urlparse url base_dir)
     = length base_dir + length (dir_segments (url_path urlparse url)) + 1
  /\ name (asset_local_name urlparse url base_dir) = asset_filename urlparse url.
Proof.
  split; [apply asset_filename_nonempty|].
  split; [apply asset_filename_no_slash|].
  split; [apply asset_filename_not_dot|].
  split; [apply asset_filename_not_dotdot|].
  split; [|apply asset_local_name_name].
  rewrite asset_local_name_parts, asset_dir_segments, !length_app. simpl. lia.
Qed.

Lemma suffix_last (ext s : str) c :
  ext `suffix_of` s -> last ext = Some c -> last s = Some c.
Proof. intros [k ->] Hc. rewrite last_app, Hc. done. Qed.

Lemma lower_char_dot c : lower_char c = "."%char -> c = "."%char.
Proof.
  unfold lower_char. destruct (_ || _) eqn:Hup; [|done].
  intros Hc. exfalso.
  assert (ord (chr (ord c + 32)) = 46) as Hord by (by rewrite Hc).
  unfold ord, chr in Hord.
  assert (65 <= nat_of_ascii c <= 222) as Hrange.
  { unfold is_upper, in_range, ord in Hup.
    apply orb_true_iff in Hup as [Hup|Hup].
    - apply andb_true_iff in Hup as [H1 H2].
      apply Nat.leb_le in H1, H2. lia.
    - apply andb_true_iff in Hup as [Hup _].
      apply andb_true_iff in Hup as [H1 H2].
      apply Nat.leb_le in H1, H2. lia. }
  rewrite nat_ascii_embedding in Hord; lia.
Qed.

(** A path the classifier accepts does not end in a name of dots. *)
Lemma accepted_not_dots (p : str) :
  endswith_any (lower p) ASSET_EXTENSIONS = true ->
  dots_only (basename p) = false.
Proof.
  intros Hacc. unfold endswith_any in Hacc.
  apply existsb_exists in Hacc as (ext & Hin & Hsuf).
  apply bool_decide_eq_true in Hsuf.
  assert (exists c, last ext = Some c /\ c <> "."%char) as (c & Hc & Hnd).
  { unfold ASSET_EXTENSIONS in Hin. simpl in Hin.
    repeat (destruct Hin as [<-|Hin]; [eexists; split; [reflexivity|done]|]).
    done. }
  pose proof (suffix_last _ _ _ Hsuf Hc) as Hlast.
  unfold lower in Hlast. change (map lower_char p) with (lower_char <$> p) in Hlast.
  rewrite fmap_last in Hlast.
  destruct (last p) as [c0|] eqn:Hp; [|done]. injection Hlast as Hc0.
  unfold dots_only. destruct (bool_decide (basename p = [])) eqn:Hb; [done|].
  apply bool_decide_eq_false in Hb. simpl.
  apply negb_false_iff, existsb_exists. exists c0. split.
  - apply list_elem_of_In. unfold basename in *.
    apply last_Some in Hp as [p' ->].
    assert (rfind1 "/" (p' ++ [c0]) <= length p') as Hk.
    { pose proof (rfind1_le "/" (p' ++ [c0])) as Hle.
      rewrite length_app in Hle. simpl in Hle.
      destruct (decide (rfind1 "/" (p' ++ [c0]) = length p' + 1)) as [Heq|]; [|lia].
      exfalso. apply Hb. rewrite Heq.
      replace (length p' + 1) with (length (p' ++ [c0]))
        by (rewrite length_app; simpl; lia).
      apply drop_all. }
    rewrite drop_app_le by done. apply elem_of_app. right. left.
  - unfold nondot. apply negb_true_iff, ceq_false. intros ->.
    apply Hnd. by rewrite <- Hc0.
Qed.

(** X3: for every URL the classifier accepts, hence for every URL the
    pipeline maps to a local path, [os.path.splitext] finds a non-empty
    extension in the file name of the local path. *)
Theorem accepted_has_extension
    (urlparse : str -> ParseResult) (url : str) (base_dir : Path) :
  should_download_asset urlparse url = true ->
  snd (splitext (name (asset_local_name urlparse url base_dir))) <> [].
Proof.
  intros Hacc. rewrite asset_local_name_name.
  unfold should_download_asset in Hacc.
  destruct (str_in _ _); [done|].
  apply accepted_not_dots in Hacc.
  pose proof (asset_filename_has_ext urlparse url) as Hext.
  rewrite Hacc in Hext. simpl in Hext. by apply bool_decide_eq_true in Hext.
Qed.

Lemma accepted_has_extension_witness :
  should_download_asset PyUrl.urlparse &"https://example.com/fonts/Inter.WOFF2?v=3"
    = true
  /\ snd (splitext (name (asset_local_name PyUrl.urlparse
                            &"https://example.com/fonts/Inter.WOFF2?v=3"
                            [ &"assets" ]))) <> [].
Proof.
  split; [reflexivity|].
  exact (accepted_has_extension PyUrl.urlparse
           &"https://example.com/fonts/Inter.WOFF2?v=3" [ &"assets" ] eq_refl).
Defined.

(** X4: when neither the base directory nor the directories of the URL
    path hold a [..] component, the place the local path denotes is
    inside the base directory. *)
Theorem asset_local_name_stays_beneath
    (urlparse : str -> ParseResult) (url : str) (base_dir : Path) :
  &".." ∉ base_dir ->
  &".." ∉ dir_segments (url_path urlparse url) ->
  lies_beneath (asset_local_name urlparse url base_dir) base_dir = true
  /\ normpath (asset_local_name urlparse url base_dir)
     = base_dir ++ dir_segments (url_path urlparse url)
                ++ [asset_filename urlparse url].
Proof.
  intros Hb Hd. split; [by apply asset_local_name_beneath|].
  rewrite asset_local_name_parts, asset_dir_segments.
  apply normpath_plain. rewrite !not_elem_of_app. split; [done|]. split; [done|].
  intros H%list_elem_of_singleton. by apply (asset_filename_not_dotdot urlparse url).
Qed.

Lemma asset_local_name_stays_beneath_witness :
  (&".." ∉ [ &"site_mirror"; &"assets" ])
  /\ (&".." ∉ dir_segments (url_path PyUrl.urlparse
                              &"https://example.com/static/img/logo.png"))
  /\ lies_beneath (asset_local_name PyUrl.urlparse
                     &"https://example.com/static/img/logo.png"
                     [ &"site_mirror"; &"assets" ])
                  [ &"site_mirror"; &"assets" ] = true.
Proof.
  assert (&".." ∉ [ &"site_mirror"; &"assets" ]) as H1 by by_compute.
  assert (&".." ∉ dir_segments (url_path PyUrl.urlparse
                                  &"https://example.com/static/img/logo.png"))
    as H2 by by_compute.
  split; [exact H1|]. split; [exact H2|].
  exact (proj1 (asset_local_name_stays_beneath PyUrl.urlparse
                  &"https://example.com/static/img/logo.png"
                  [ &"site_mirror"; &"assets" ] H1 H2)).
Defined.

(** ** Directories and downloads *)

(** X5: [ensure_dir] is idempotent: after a call that succeeded, every
    ancestor of the path and the path itself are directories, the files
    are as before, and a second call succeeds and changes nothing. *)
Theorem ensure_dir_idempotent (p : Path) (w : World) :
  snd (ensure_dir p w) = Ok tt ->
  let w' := fst (ensure_dir p w) in
  (forall d, d ∈ prefixes p -> is_dir (fs w') d = true)
  /\ files (fs w') = files (fs w)
  /\ log w' = log w
  /\ ensure_dir p w' = (w', Ok tt).
Proof.
  intros Hok.
  assert (existsb (is_file (fs w)) (prefixes p) = false) as Hfile.
  { unfold ensure_dir in Hok. by destruct (existsb _ _). }
  assert (ensure_dir p w
          = ({| fs := {| files := files (fs w);
                         dirs := list_to_set (prefixes p) ∪ dirs (fs w) |};
                log := log w |}, Ok tt)) as Hrun.
  { unfold ensure_dir. by rewrite Hfile. }
  cbv zeta. rewrite Hrun. cbn [fst snd fs files dirs log]. repeat split.
  - intros d Hd. unfold is_dir. cbn [dirs].
    rewrite (bool_decide_true (d ∈ _)); [apply orb_true_r|].
    apply elem_of_union. left. by apply elem_of_list_to_set.
  - unfold ensure_dir. cbn [fs files dirs log].
    unfold is_file in *. cbn [files]. rewrite Hfile.
    do 3 f_equal. apply set_eq. intros x. rewrite !elem_of_union. tauto.
Qed.

Lemma ensure_dir_idempotent_witness :
  snd (ensure_dir [ &"site_mirror"; &"assets" ] empty_world) = Ok tt
  /\ is_dir (fs (fst (ensure_dir [ &"site_mirror"; &"assets" ] empty_world)))
            [ &"site_mirror" ] = true.
Proof.
  split; [reflexivity|].
  apply (proj1 (ensure_dir_idempotent [ &"site_mirror"; &"assets" ] empty_world
                  eq_refl)).
  by_compute.
Defined.

Lemma parent_is_dir_after (f : FS) (target : Path) :
  is_dir {| files := files f;
            dirs := list_to_set (prefixes (parent target)) ∪ dirs f |}
         (parent target) = true.
Proof.
  unfold is_dir. cbn [dirs].
  destruct (decide (parent target = [])) as [->|Hne]; [done|].
  rewrite (bool_decide_true (parent target ∈ _)); [apply orb_true_r|].
  apply elem_of_union. left. by apply elem_of_list_to_set, prefixes_self.
Qed.

Lemma target_not_dir_after (f : FS) (target : Path) :
  is_dir f target = false ->
  is_dir {| files := files f;
            dirs := list_to_set (prefixes (parent target)) ∪ dirs f |}
         target = false.
Proof.
  unfold is_dir. cbn [dirs]. intros [Ha Hd]%orb_false_iff.
  rewrite Ha. simpl. apply bool_decide_eq_false.
  apply bool_decide_eq_false in Hd.
  intros [Hin|Hin]%elem_of_union; [|done].
  apply elem_of_list_to_set, prefixes_elem in Hin as [Hlen _].
  pose proof (parent_shorter target Ha). lia.
Qed.



(** ** The rewriter *)

(** X7: a match that [repl] has replaced is not downloaded again: after a
    successful [repl] of a downloadable match its local path exists, and
    [repl] of the same match in the world it left returns the same text
    and changes nothing. *)
Theorem repl_downloads_once
    (E : Env) (base_url : str) (assets_dir : Path) (prefix whole g r : str)
    (w w' : World) :
  downloadable E base_url g ->
  repl E base_url assets_dir prefix whole g w = (w', Ok r) ->
  path_exists (fs w')
    (asset_local_name (env_urlparse E) (resolved E base_url g) assets_dir) = true
  /\ repl E base_url assets_dir prefix whole g w' = (w', Ok r).
Proof.
  intros Hd Hrun.
  assert (path_exists (fs w')
            (asset_local_name (env_urlparse E) (resolved E base_url g) assets_dir)
          = true /\ r = replacement E base_url prefix whole g) as [Hex ->].
  { rewrite (repl_active _ _ _ _ _ _ _ Hd) in Hrun.
    destruct (path_exists (fs w) _) eqn:Hp.
    - by injection Hrun as <- <-.
    - rewrite download_file_run in Hrun.
      destruct (existsb _ _); [done|]. cbv zeta in Hrun.
      destruct (env_get _ _ _) as [resp|e]; [|done].
      destruct (_ && _); [done|].
      unfold write_file in Hrun.
      destruct (is_dir _ _); [done|]. destruct (negb _); [done|].
      pose proof (f_equal fst Hrun) as Hw. pose proof (f_equal snd Hrun) as Hr.
      cbn [fst snd] in Hw, Hr. subst w'. injection Hr as <-. split; [|done].
      unfold path_exists, is_file. cbn [fs files].
      rewrite lookup_insert_eq. by rewrite bool_decide_true by eauto. }
  split; [done|]. by rewrite (repl_active _ _ _ _ _ _ _ Hd), Hex.
Qed.

Lemma repl_downloads_once_witness :
  let E := py_env (site_get [ (&"https://example.com/bg.png", &"PNGDATA") ])
                  (fun _ => []) in
  let run := repl E &"https://example.com/page" [ &"assets" ] &"/assets"
               &"url(bg.png)" &"bg.png" empty_world in
  downloadable E &"https://example.com/page" &"bg.png"
  /\ snd run = Ok &"url('/assets/bg.png')"
  /\ repl E &"https://example.com/page" [ &"assets" ] &"/assets"
          &"url(bg.png)" &"bg.png" (fst run)
     = (fst run, Ok &"url('/assets/bg.png')").
Proof.
  intros E run.
  assert (downloadable E &"https://example.com/page" &"bg.png") as Hd.
  { split; [vm_compute; discriminate|]. split; vm_compute; reflexivity. }
  assert (run = (fst run, Ok &"url('/assets/bg.png')")) as Hrun
    by (vm_compute; reflexivity).
  split; [exact Hd|]. split; [rewrite Hrun; reflexivity|].
  exact (proj2 (repl_downloads_once E &"https://example.com/page" [ &"assets" ]
                  &"/assets" &"url(bg.png)" &"bg.png" &"url('/assets/bg.png')"
                  empty_world (fst run) Hd Hrun)).
Defined.
(** X8: a text none of whose matches is downloadable (each one is empty,
    a [data:] URI or rejected by the classifier) is rewritten without any
    effect: no request, no file, no line printed, no exception; a rejected
    match loses its quotes and surrounding blanks. *)
Theorem rewrite_css_urls_without_downloads
    (E : Env) (base_url : str) (assets_dir : Path) (prefix css : str) (w : World) :
  Forall (fun seg => match seg with
                     | Lit _ => True
                     | UrlMatch _ g => ~ downloadable E base_url g
                     end) (css_segments 0 css) ->
  rewrite_css_urls E base_url assets_dir prefix css w
    = (w, Ok (rewritten_text E base_url prefix css)).
Proof. intros H. by apply sub_segments_passive. Qed.

Lemma rewrite_css_urls_without_downloads_witness :
  let E := py_env offline_get (fun _ => []) in
  rewrite_css_urls E &"https://example.com/page" [ &"assets" ] &"/assets"
    &"a { b: url( 'page.html' ) }" empty_world
  = (empty_world, Ok &"a { b: url(page.html) }").
Proof.
  intros E.
  etrans; [apply (rewrite_css_urls_without_downloads E)|].
  - match goal with
    | |- Forall ?P ?l => let l' := eval vm_compute in l in change (Forall P l')
    end.
    repeat first [apply Forall_nil_2 | apply Forall_cons_2; [try exact I|]].
    intros (_ & _ & H). vm_compute in H. discriminate H.
  - vm_compute. reflexivity.
Defined.

(** ** The page *)

(** X9: when the page itself cannot be fetched (no response, or one with
    an error status), [process_page] raises; the run has made at most the
    request of the page, and no file has been written or changed. *)
Theorem process_page_root_failure
    (E : Env) (start_url out_dir prefix html_name : str) (w : World) :
  request_fails (env_get E (requests (log w)) start_url) ->
  let run := process_page E start_url out_dir prefix html_name w in
  is_raise (snd run)
  /\ files (fs (fst run)) = files (fs w)
  /\ run_log start_url (log w) (log (fst run)) [].
Proof.
  intros Hfail. cbv zeta. rewrite process_page_run.
  pose proof (ensure_dir_log (path_of_str out_dir) w) as Hlog.
  assert (files (fs (fst (ensure_dir (path_of_str out_dir) w))) = files (fs w))
    as Hfiles by (unfold ensure_dir; by destruct (existsb _ _)).
  destruct (ensure_dir (path_of_str out_dir) w) as [w1 [[]|e]];
    cbn [fst snd] in Hlog, Hfiles.
  2:{ cbn [fst snd]. repeat split; [done|]. left. by rewrite Hlog. }
  rewrite Hlog.
  assert (run_log start_url (log w) (log (page_requested start_url w1)) [])
    as Hrun.
  { right. exists (fs w1). unfold page_requested. cbn [log].
    by rewrite Hlog, app_nil_r. }
  destruct (env_get E (requests (log w)) start_url) as [resp|e].
  - cbn [request_fails] in Hfail.
    assert (page_body E start_url out_dir prefix html_name resp
              (page_requested start_url w1)
            = (page_requested start_url w1,
               Raise (RequestException (error_text resp)))) as ->.
    { unfold page_body. rewrite bind_run. unfold raise_for_status.
      by rewrite Hfail. }
    split; [exact I|]. split; [exact Hfiles|exact Hrun].
  - cbn [fst snd]. split; [exact I|]. split; [exact Hfiles|exact Hrun].
Qed.

Lemma process_page_root_failure_witness :
  let E := py_env (site_get []) (fun _ => []) in
  let run := process_page E &"https://example.com/missing" &"site_mirror"
               &"/assets" &"index.html" empty_world in
  is_raise (snd run) /\ files (fs (fst run)) = ∅.
Proof.
  intros E run.
  destruct (process_page_root_failure E &"https://example.com/missing"
              &"site_mirror" &"/assets" &"index.html" empty_world)
    as (Hraise & Hfiles & _).
  - vm_compute. reflexivity.
  - split; [exact Hraise|exact Hfiles].
Defined.

(** X10: an attribute that references an accepted asset whose local file
    is already there is rewritten to the public path of that file, and
    nothing else happens: no request, no line printed, no file touched. *)
Theorem direct_step_existing
    (E : Env) (start_url : str) (assets_dir : Path) (prefix attr : str)
    (i : nat) (doc : Doc) (tag : Tag) (v : str) (w : World) :
  doc !! i = Some tag ->
  tag_get attr tag = Some v ->
  v <> [] ->
  should_download_asset (env_urlparse E) (env_urljoin E start_url v) = true ->
  path_exists (fs w)
    (asset_local_name (env_urlparse E) (env_urljoin E start_url v) assets_dir)
    = true ->
  direct_step E start_url assets_dir prefix attr i doc w
  = (w, Ok (<[i := tag_set attr
                     (public_path E prefix (env_urljoin E start_url v)) tag]> doc)).
Proof.
  intros Hi Hv Hne Hacc Hex. unfold direct_step. rewrite Hi, Hv.
  rewrite bool_decide_false by done. rewrite Hacc. cbn [negb].
  rewrite bind_run. unfold exists_ at 1. rewrite Hex.
  rewrite bind_run. cbn [ret]. rewrite relative_str_local. by rewrite bind_run.
Qed.

Lemma direct_step_existing_witness :
  let E := py_env offline_get (fun _ => []) in
  let doc := [ {| tag_name := &"img"; attrs := [ (&"src", &"img/logo.png") ];
                  tag_string := None |} ] in
  let w := {| fs := {| files := {[ [ &"assets"; &"img"; &"logo.png" ] := &"PNG" ]};
                       dirs := ∅ |};
              log := [] |} in
  direct_step E &"https://example.com/" [ &"assets" ] &"/assets" &"src" 0 doc w
  = (w, Ok [ {| tag_name := &"img"; attrs := [ (&"src", &"/assets/img/logo.png") ];
                tag_string := None |} ]).
Proof.
  intros E doc w.
  rewrite (direct_step_existing E &"https://example.com/" [ &"assets" ] &"/assets"
             &"src" 0 doc _ &"img/logo.png" w eq_refl eq_refl).
  - reflexivity.
  - discriminate.
  - reflexivity.
  - vm_compute. reflexivity.
Defined.

Lemma stylesheet_step_total (E : Env) (start_url : str) (assets_dir : Path)
    (prefix : str) (i : nat) (doc : Doc) :
  total (stylesheet_step E start_url assets_dir prefix i doc).
Proof.
  unfold stylesheet_step. destruct (doc !! i) as [tag|]; [|apply total_ret].
  destruct (tag_get _ tag) as [v|]; [|apply total_ret].
  case_bool_decide; [apply total_ret|].
  destruct (negb _); [apply total_ret|].
  apply total_bind; [intros w; by eexists|]. intros present.
  apply total_bind.
  - destruct present; [apply total_ret|].
    apply total_bind; [apply total_print|]. intros ?.
    apply total_try. intros e.
    apply total_bind; [apply total_print|]. intros ?. apply total_ret.
  - intros []; [|apply total_ret]. rewrite relative_str_local.
    apply total_bind; [apply total_ret|]. intros rel. apply total_ret.
Qed.


Lemma find_positions_none (f : Tag -> bool) (doc : Doc) :
  Forall (fun t => f t = false) doc -> find_positions f doc = [].
Proof.
  intros Hall. unfold find_positions.
  destruct (List.filter _ _) as [|j js] eqn:Hf; [done|].
  assert (In j (List.filter
                  (fun i => match doc !! i with Some t => f t | None => false end)
                  (seq 0 (length doc)))) as Hin by (rewrite Hf; by left).
  apply filter_In in Hin as [_ Hj].
  destruct (doc !! j) as [t|] eqn:Ht; [|done].
  rewrite Forall_forall in Hall.
  rewrite (Hall t) in Hj; [done|]. by eapply list_elem_of_lookup_2.
Qed.

Lemma plain_tag_name (t : Tag) (n : str) :
  plain_tag t = true ->
  n ∈ [ &"img"; &"script"; &"link"; &"source"; &"video"; &"audio"; &"style" ] ->
  bool_decide (tag_name t = n) = false.
Proof.
  unfold plain_tag. intros [Hn _]%andb_true_iff Hin.
  apply bool_decide_eq_false. intros Heq.
  apply negb_true_iff in Hn. rewrite Heq in Hn.
  unfold str_in in Hn. by rewrite bool_decide_true in Hn.
Qed.

Lemma find_all_plain (doc : Doc) (n : str) :
  Forall (fun t => plain_tag t = true) doc ->
  n ∈ [ &"img"; &"script"; &"link"; &"source"; &"video"; &"audio"; &"style" ] ->
  find_all n doc = [].
Proof.
  intros Hall Hn. apply find_positions_none.
  eapply Forall_impl; [exact Hall|]. intros t Ht. by apply plain_tag_name.
Qed.

Lemma for_each_idle {A S} (body : A -> S -> M S) (xs : list A) (s : S)
    (w : World) :
  (forall x, x ∈ xs -> body x s w = (w, Ok s)) ->
  for_each body xs s w = (w, Ok s).
Proof.
  induction xs as [|x xs IH]; intros Hb; cbn [for_each]; [done|].
  rewrite bind_run, Hb by left. apply IH. intros y Hy. apply Hb. by right.
Qed.

(** X12: a document without [img], [script], [link], [source], [video],
    [audio] and [style] elements and without [style] attributes passes the
    three phases as it is, and they do nothing: no request, no line
    printed, no directory or file made. *)
Theorem rewrite_document_plain
    (E : Env) (start_url : str) (assets_dir : Path) (prefix : str)
    (doc : Doc) (w : World) :
  Forall (fun t => plain_tag t = true) doc ->
  rewrite_document E start_url assets_dir prefix doc w = (w, Ok doc).
Proof.
  intros Hall.
  assert (find_all_styled doc = []) as Hstyled.
  { apply find_positions_none. eapply Forall_impl; [exact Hall|].
    intros t [_ Ht]%andb_true_iff. by apply negb_true_iff. }
  assert (find_all_stylesheets doc = []) as Hsheets.
  { apply find_positions_none. eapply Forall_impl; [exact Hall|].
    intros t Ht. unfold is_stylesheet_link.
    rewrite (plain_tag_name t &"link" Ht); [done|]. by_compute. }
  assert (direct_phase E start_url assets_dir prefix doc w = (w, Ok doc))
    as Hdirect.
  { unfold direct_phase. apply for_each_idle. intros [n attr] Hin.
    rewrite (find_all_plain doc n Hall); [done|].
    unfold tag_attr_pairs in Hin.
    repeat (apply elem_of_cons in Hin as [[= -> ->]|Hin]; [by_compute|]).
    by apply elem_of_nil in Hin. }
  unfold rewrite_document. rewrite bind_run, Hdirect.
  unfold style_phase. rewrite !bind_run.
  rewrite (find_all_plain doc &"style" Hall) by by_compute.
  cbn [for_each ret]. rewrite Hstyled. cbn [for_each ret].
  unfold stylesheet_phase. by rewrite Hsheets.
Qed.

Lemma rewrite_document_plain_witness :
  let E := py_env offline_get (fun _ => []) in
  let doc := [ {| tag_name := &"h1"; attrs := [ (&"class", &"title") ];
                  tag_string := Some &"Hello" |};
               {| tag_name := &"a"; attrs := [ (&"href", &"logo.png") ];
                  tag_string := Some &"logo" |} ] in
  rewrite_document E &"https://example.com/" [ &"assets" ] &"/assets" doc
                   empty_world
  = (empty_world, Ok doc).
Proof.
  intros E doc. apply (rewrite_document_plain E).
  repeat constructor.
Defined.

(** ** The structure of the rewritten document *)

Lemma assoc_set_keys (k v : str) (l : list (str * str)) :
  assoc_get k l <> None -> map fst (assoc_set k v l) = map fst l.
Proof.
  induction l as [|[a b] l IH]; simpl; [done|].
  destruct (decide (a = k)) as [->|Ha].
  - by rewrite (bool_decide_true (k = k)) by done.
  - rewrite (bool_decide_false (a = k)) by done. simpl. intros H.
    by rewrite IH.
Qed.

Lemma tag_rewritten_refl (t : Tag) : tag_rewritten t t.
Proof. by repeat split. Qed.

Lemma tag_rewritten_trans (t1 t2 t3 : Tag) :
  tag_rewritten t1 t2 -> tag_rewritten t2 t3 -> tag_rewritten t1 t3.
Proof.
  intros (Hn1 & Hk1 & Ho1 & Hs1) (Hn2 & Hk2 & Ho2 & Hs2). repeat split.
  - by rewrite Hn2.
  - by rewrite Hk2.
  - intros k H1 H2 H3. by rewrite Ho2, Ho1.
  - intros Hne. rewrite Hs2; [by apply Hs1|]. by rewrite Hn1.
Qed.

Lemma tag_rewritten_set (t : Tag) (k v : str) :
  k = &"src" \/ k = &"href" \/ k = &"style" ->
  tag_get k t <> None -> tag_rewritten t (tag_set k v t).
Proof.
  intros Hk Hsome. repeat split; cbn [tag_set tag_name attrs tag_string].
  - by apply assoc_set_keys.
  - intros k' H1 H2 H3. unfold tag_get. cbn [attrs].
    apply assoc_get_set_ne. by destruct Hk as [->|[->| ->]].
Qed.

Lemma tag_rewritten_string (t : Tag) (v : str) :
  tag_name t = &"style" -> tag_rewritten t (set_string v t).
Proof. intros Hn. by repeat split. Qed.

Lemma doc_rewritten_refl (doc : Doc) : doc_rewritten doc doc.
Proof. apply Forall2_same_length_lookup_2; [done|]. intros i t t' H1 H2.
  rewrite H1 in H2. injection H2 as <-. apply tag_rewritten_refl. Qed.

Lemma doc_rewritten_insert (doc0 doc : Doc) (j : nat) (t t' : Tag) :
  doc_rewritten doc0 doc -> doc !! j = Some t -> tag_rewritten t t' ->
  doc_rewritten doc0 (<[j := t']> doc).
Proof.
  intros Hdoc Hj Ht.
  destruct (Forall2_lookup_r _ _ _ _ _ Hdoc Hj) as (t0 & Hj0 & Ht0).
  unfold doc_rewritten. rewrite <- (list_insert_id doc0 j t0 Hj0).
  apply Forall2_insert; [exact Hdoc|]. by eapply tag_rewritten_trans.
Qed.

Lemma doc_rewritten_name (doc0 doc : Doc) (j : nat) (t : Tag) (n : str) :
  doc_rewritten doc0 doc -> j ∈ find_all n doc0 -> doc !! j = Some t ->
  tag_name t = n.
Proof.
  intros Hdoc Hj Ht.
  destruct (Forall2_lookup_r _ _ _ _ _ Hdoc Ht) as (t0 & Hj0 & Hn & _).
  apply find_positions_elem in Hj as (t0' & Hj0' & Hname).
  rewrite Hj0 in Hj0'. injection Hj0' as <-.
  apply bool_decide_eq_true in Hname. by rewrite Hn.
Qed.

Section Structure.

Variables (E : Env) (start_url : str) (assets_dir : Path) (prefix : str).

Lemma direct_step_rewrites (doc0 doc : Doc) (attr : str) (j : nat) :
  attr = &"src" \/ attr = &"href" ->
  doc_rewritten doc0 doc ->
  yields (direct_step E start_url assets_dir prefix attr j doc)
         (doc_rewritten doc0).
Proof.
  intros Hattr Hdoc. eapply yields_weaken; [apply direct_step_shape|].
  intros d [->|(t & v & nv & Hj & Hv & _ & ->)]; [done|].
  eapply doc_rewritten_insert; [done..|].
  apply tag_rewritten_set; [tauto|by rewrite Hv].
Qed.

Lemma direct_phase_rewrites (doc : Doc) :
  yields (direct_phase E start_url assets_dir prefix doc) (doc_rewritten doc).
Proof.
  unfold direct_phase.
  apply (yields_for_each (doc_rewritten doc)); [apply doc_rewritten_refl|].
  intros [n attr] d Hin Hd.
  apply (yields_for_each (doc_rewritten doc)); [done|].
  intros j d' _ Hd'. apply direct_step_rewrites; [|done].
  unfold tag_attr_pairs in Hin.
  repeat (apply elem_of_cons in Hin as [[= -> ->]|Hin]; [tauto|]).
  by apply elem_of_nil in Hin.
Qed.

Lemma style_phase_rewrites (doc0 doc : Doc) :
  doc_rewritten doc0 doc ->
  yields (style_phase E start_url assets_dir prefix doc) (doc_rewritten doc0).
Proof.
  intros Hdoc. unfold style_phase.
  apply (yields_bind _ _ (doc_rewritten doc0)).
  - apply (yields_weaken _
             (fun d => doc_rewritten doc0 d /\ doc_rewritten doc d));
      [|by intros d [Hd0 _]].
    apply (yields_for_each
             (fun d => doc_rewritten doc0 d /\ doc_rewritten doc d)).
    + split; [done|apply doc_rewritten_refl].
    + intros j d Hj [Hd0 Hd].
      eapply yields_weaken; [apply style_tag_step_shape|].
      intros d' [->|(t & nv & Ht & ->)]; [done|].
      assert (tag_rewritten t (set_string nv t)) as Hrw.
      { apply tag_rewritten_string. by eapply doc_rewritten_name. }
      split; by eapply doc_rewritten_insert.
  - intros d1 Hd1.
    apply (yields_for_each (doc_rewritten doc0)); [done|].
    intros j d _ Hd.
    eapply yields_weaken; [apply style_attr_step_shape|].
    intros d' [->|(t & nv & Ht & Hs & ->)]; [done|].
    eapply doc_rewritten_insert; [done..|].
    apply tag_rewritten_set; tauto.
Qed.

Lemma stylesheet_step_rewrites (doc0 doc : Doc) (j : nat) :
  doc_rewritten doc0 doc ->
  yields (stylesheet_step E start_url assets_dir prefix j doc)
         (doc_rewritten doc0).
Proof.
  intros Hdoc. unfold stylesheet_step.
  destruct (doc !! j) as [t|] eqn:Hj; [|by apply yields_ret].
  destruct (tag_get &"href" t) as [v|] eqn:Hv; [|by apply yields_ret].
  case_bool_decide; [by apply yields_ret|].
  destruct (negb _); [by apply yields_ret|].
  eapply yields_bind; [intros ? ? _; exact I|]. intros present _.
  eapply yields_bind; [intros ? ? _; exact I|]. intros [] _.
  - eapply yields_bind; [intros ? ? _; exact I|]. intros rel _.
    apply yields_ret. eapply doc_rewritten_insert; [done..|].
    apply tag_rewritten_set; [tauto|by rewrite Hv].
  - by apply yields_ret.
Qed.

Lemma rewrite_document_rewrites (doc : Doc) :
  yields (rewrite_document E start_url assets_dir prefix doc)
         (doc_rewritten doc).
Proof.
  unfold rewrite_document.
  eapply yields_bind; [apply direct_phase_rewrites|]. intros d1 Hd1.
  eapply yields_bind; [by apply style_phase_rewrites|]. intros d2 Hd2.
  unfold stylesheet_phase.
  apply (yields_for_each (doc_rewritten doc)); [done|].
  intros j d _ Hd. by apply stylesheet_step_rewrites.
Qed.

End Structure.

(** X13: the three phases keep the structure of the document: the
    document they return has the same tags in the same order, each with
    its name and its attributes' names in their order; only the values of
    [src], [href] and [style] attributes and the text of [style] elements
    can differ. *)
Theorem rewrite_document_structure
    (E : Env) (start_url : str) (assets_dir : Path) (prefix : str)
    (doc doc' : Doc) (w : World) :
  snd (rewrite_document E start_url assets_dir prefix doc w) = Ok doc' ->
  length doc' = length doc
  /\ forall i t t', doc !! i = Some t -> doc' !! i = Some t' ->
       tag_name t' = tag_name t
       /\ map fst (attrs t') = map fst (attrs t)
       /\ (forall k, k <> &"src" -> k <> &"href" -> k <> &"style" ->
                     tag_get k t' = tag_get k t)
       /\ (tag_name t <> &"style" -> tag_string t' = tag_string t).
Proof.
  intros Hrun.
  pose proof (rewrite_document_rewrites E start_url assets_dir prefix doc w doc'
                Hrun) as Hdoc.
  split.
  - symmetry. by eapply Forall2_length.
  - intros i t t' Ht Ht'. exact (Forall2_lookup_lr _ _ _ _ _ _ Hdoc Ht Ht').
Qed.

Lemma rewrite_document_structure_witness :
  let E := py_env (site_get [ (&"https://example.com/logo.png", &"PNG") ])
                  (fun _ => []) in
  let doc := [ {| tag_name := &"img";
                  attrs := [ (&"alt", &"Logo"); (&"src", &"logo.png") ];
                  tag_string := None |} ] in
  let doc' := [ {| tag_name := &"img";
                   attrs := [ (&"alt", &"Logo"); (&"src", &"/assets/logo.png") ];
                   tag_string := None |} ] in
  snd (rewrite_document E &"https://example.com/" [ &"assets" ] &"/assets" doc
         empty_world) = Ok doc'
  /\ length doc' = length doc.
Proof.
  intros E doc doc'.
  assert (snd (rewrite_document E &"https://example.com/" [ &"assets" ]
                 &"/assets" doc empty_world) = Ok doc') as Hrun
    by (vm_compute; reflexivity).
  split; [exact Hrun|].
  exact (proj1 (rewrite_document_structure E &"https://example.com/"
                  [ &"assets" ] &"/assets" doc doc' empty_world Hrun)).
Defined.

(** X14: when [process_page] completes, the page was fetched without an
    error status, the file at [<out_dir>/<html_name>] holds the
    serialization of a document with the structure of the parsed page,
    and the last line printed is the closing message. *)
Theorem process_page_success
    (E : Env) (start_url out_dir prefix html_name : str) (w w' : World) :
  process_page E start_url out_dir prefix html_name w = (w', Ok tt) ->
  exists resp doc',
    env_get E (requests (log w)) start_url = Ok resp
    /\ (400 <=? status resp) && (status resp <? 600) = false
    /\ doc_rewritten (env_parse E (text resp)) doc'
    /\ files (fs w') !! path_join (path_of_str out_dir) html_name
       = Some (env_serialize E doc')
    /\ last (log w')
       = Some (EvPrint
                 (&"Fertig. HTML: "
                  ++ str_of_path (path_join (path_of_str out_dir) html_name)
                  ++ &", Assets unter: "
                  ++ str_of_path (path_join (path_of_str out_dir) &"assets"))).
Proof.
  rewrite process_page_run.
  pose proof (ensure_dir_log (path_of_str out_dir) w) as Hlog.
  destruct (ensure_dir _ w) as [wd [[]|e]]; [|done]. cbn [fst] in Hlog.
  rewrite Hlog.
  destruct (env_get E _ start_url) as [resp|e]; [|done].
  unfold page_body. rewrite bind_run. unfold raise_for_status at 1.
  destruct (_ && _) eqn:Hstatus; [done|]. cbn [ret]. rewrite bind_run.
  destruct (rewrite_document _ _ _ _ _ _) as [w2 [doc'|e]] eqn:Hdoc; [|done].
  rewrite bind_run. unfold write_file at 1.
  destruct (is_dir _ _); [done|]. destruct (negb _); [done|].
  unfold print. intros [= <-].
  exists resp, doc'. split; [done|]. split; [done|]. split.
  - eapply rewrite_document_rewrites. by rewrite Hdoc.
  - cbn [fs files log]. split; [apply lookup_insert_eq|apply last_snoc].
Qed.

Lemma process_page_success_witness :
  let E := py_env (site_get [ (&"https://example.com/", &"<h1>") ])
                  (fun _ => [ {| tag_name := &"h1"; attrs := [];
                                 tag_string := Some &"Hello" |} ]) in
  let run := process_page E &"https://example.com/" &"site_mirror" &"/assets"
               &"index.html" empty_world in
  snd run = Ok tt
  /\ exists doc',
       files (fs (fst run)) !! [ &"site_mirror"; &"index.html" ]
       = Some (render_doc doc').
Proof.
  intros E run.
  assert (run = (fst run, Ok tt)) as Hrun by (vm_compute; reflexivity).
  split; [by rewrite Hrun|].
  destruct (process_page_success E &"https://example.com/" &"site_mirror"
              &"/assets" &"index.html" empty_world (fst run) Hrun)
    as (resp & doc' & _ & _ & _ & Hfile & _).
  exists doc'. exact Hfile.
Defined.

(** ** What a run leaves alone *)

Section RunFrame.

Variables (E : Env) (assets_dir : Path) (f0 : FS) (l0 : list Event)
          (html : Path).

Local Abbreviation rinv := (run_inv E f0 l0 html).
Local Abbreviation runs := (keeps_run E f0 l0 html).

Lemma run_ret {A} (a : A) : runs (ret a).
Proof. by apply hoare_ret. Qed.

Lemma run_raise {A} (e : Exn) : runs (@raise A e).
Proof. by intros w Hw. Qed.

Lemma run_bind {A B} (m : M A) (k : A -> M B) :
  runs m -> (forall a, runs (k a)) -> runs (bind m k).
Proof. intros Hm Hk. eapply hoare_bind; [exact Hm|exact Hk|done]. Qed.

Lemma run_try {A} (m : M A) (h : Exn -> M A) :
  runs m -> (forall e, runs (h e)) -> runs (try_catch m h).
Proof. intros Hm Hh. eapply hoare_try; [exact Hm|done|exact Hh]. Qed.

Lemma run_for_each {A S} (body : A -> S -> M S) xs s :
  (forall x s, runs (body x s)) -> runs (for_each body xs s).
Proof. intros H. apply hoare_for_each. intros x s' _. apply H. Qed.

Lemma run_print msg : runs (print msg).
Proof.
  intros w (Hle & Hdirs & Hkept & new & Hlog & Hall).
  split; [done|]. split; [done|]. split; [done|].
  exists (new ++ [EvPrint msg]). cbn [print fst log]. split.
  - by rewrite Hlog, (assoc_L (++)).
  - apply Forall_app. split; [done|]. by constructor.
Qed.

Lemma run_ensure_dir p : runs (ensure_dir p).
Proof.
  intros w (Hle & Hdirs & Hkept & Hlog).
  pose proof (ensure_dir_fs_le p w) as Hgrow. revert Hgrow.
  unfold ensure_dir. destruct (existsb _ _); cbn [fst snd]; [done|].
  intros Hgrow. split; [by eapply fs_le_trans|]. split; [|by split].
  cbn [fs dirs]. intros d Hd. apply elem_of_union. right. by apply Hdirs.
Qed.

(** A file is written where nothing was when the run started, or where
    the page goes. *)
Lemma run_write_file p data :
  path_exists f0 p = false \/ p = html -> runs (write_file p data).
Proof.
  intros Hp w (Hle & Hdirs & Hkept & Hlog).
  pose proof (write_file_fs_le p data w) as Hgrow. revert Hgrow.
  unfold write_file. destruct (is_dir _ _); cbn [fst snd]; [done|].
  destruct (negb _); cbn [fst snd]; [done|].
  intros Hgrow. split; [by eapply fs_le_trans|]. split; [done|].
  split; [|done].
  intros q c Hq Hne. cbn [fs files].
  rewrite lookup_insert_ne; [by apply Hkept|].
  intros <-. destruct Hp as [Hp|Hp]; [|done].
  unfold path_exists, is_file in Hp. rewrite Hq in Hp.
  by rewrite bool_decide_true in Hp by eauto.
Qed.

Lemma run_raise_for_status r : runs (raise_for_status r).
Proof.
  unfold raise_for_status. destruct (_ && _); [apply run_raise|apply run_ret].
Qed.

Lemma run_relative_str p base : runs (relative_str p base).
Proof.
  unfold relative_str. destruct (relative_to _ _); [apply run_ret|apply run_raise].
Qed.

Lemma run_session_get url :
  should_download_asset (env_urlparse E) url = true -> runs (session_get E url).
Proof.
  intros Hacc w (Hle & Hdirs & Hkept & new & Hlog & Hall). split; [done|].
  split; [done|]. split; [done|]. exists (new ++ [EvGet url (fs w)]).
  cbn [session_get fst log]. split.
  - by rewrite Hlog, (assoc_L (++)).
  - apply Forall_app. split; [done|]. by constructor.
Qed.

Lemma run_download_file url target :
  should_download_asset (env_urlparse E) url = true ->
  path_exists f0 target = false ->
  runs (download_file E url target).
Proof.
  intros Hacc Hp. unfold download_file.
  apply run_bind; [apply run_ensure_dir|]. intros ?.
  apply run_bind; [by apply run_session_get|]. intros resp.
  apply run_bind; [apply run_raise_for_status|]. intros ?.
  apply run_write_file. by left.
Qed.

(** The existence check: a path that is absent now was absent at the
    start. *)
Lemma run_guard {A} p (k : bool -> M A) :
  runs (k true) -> (path_exists f0 p = false -> runs (k false)) ->
  runs (bind (exists_ p) k).
Proof.
  intros Ht Hf w Hw. rewrite bind_run. unfold exists_.
  destruct (path_exists (fs w) p) eqn:Hp; [by apply Ht|].
  apply Hf; [|done]. destruct (path_exists f0 p) eqn:H0; [|done].
  destruct Hw as (Hle & _). apply Hle in H0. congruence.
Qed.

Lemma run_repl base_url prefix whole group1 :
  runs (repl E base_url assets_dir prefix whole group1).
Proof.
  unfold repl. destruct (_ || _); [apply run_ret|].
  destruct (should_download_asset _ _) eqn:Hacc; [|apply run_ret].
  cbn [negb]. apply run_guard.
  - apply run_bind; [apply run_ret|]. intros ?.
    apply run_bind; [apply run_relative_str|]. intros rel. apply run_ret.
  - intros Hp. apply run_bind.
    + apply run_bind; [apply run_print|]. intros ?.
      by apply run_download_file.
    + intros ?. apply run_bind; [apply run_relative_str|].
      intros rel. apply run_ret.
Qed.

Lemma run_rewrite_css_urls base_url prefix css :
  runs (rewrite_css_urls E base_url assets_dir prefix css).
Proof.
  unfold rewrite_css_urls.
  induction (css_segments 0 css) as [|[c|whole g] segs IH]; simpl.
  - apply run_ret.
  - apply run_bind; [done|]. intros out. apply run_ret.
  - apply run_bind; [apply run_repl|]. intros r.
    apply run_bind; [done|]. intros out. apply run_ret.
Qed.

Section Phases.

Variables (start_url prefix : str).

Lemma run_direct_step attr i doc :
  runs (direct_step E start_url assets_dir prefix attr i doc).
Proof.
  unfold direct_step. destruct (doc !! i) as [tag|]; [|apply run_ret].
  destruct (tag_get attr tag) as [v|]; [|apply run_ret].
  case_bool_decide; [apply run_ret|].
  destruct (should_download_asset _ _) eqn:Hacc; [|apply run_ret].
  cbn [negb]. apply run_guard.
  - apply run_bind; [apply run_ret|]. intros []; [|apply run_ret].
    apply run_bind; [apply run_relative_str|]. intros rel. apply run_ret.
  - intros Hp. apply run_bind.
    + apply run_bind; [apply run_print|]. intros ?. apply run_try.
      * apply run_bind; [by apply run_download_file|]. intros ?.
        apply run_ret.
      * intros e. apply run_bind; [apply run_print|]. intros ?.
        apply run_ret.
    + intros []; [|apply run_ret].
      apply run_bind; [apply run_relative_str|]. intros rel. apply run_ret.
Qed.

Lemma run_style_phase doc :
  runs (style_phase E start_url assets_dir prefix doc).
Proof.
  unfold style_phase. apply run_bind.
  - apply run_for_each. intros i d. unfold style_tag_step.
    destruct (d !! i) as [t|]; [|apply run_ret].
    destruct (tag_string t) as [css|]; [|apply run_ret].
    case_bool_decide; [apply run_ret|].
    apply run_bind; [apply run_rewrite_css_urls|].
    intros c. apply run_ret.
  - intros d0. apply run_for_each. intros i d. unfold style_attr_step.
    destruct (d !! i) as [t|]; [|apply run_ret].
    destruct (tag_get _ t) as [css|]; [|apply run_ret].
    apply run_bind; [apply run_rewrite_css_urls|].
    intros c. apply run_ret.
Qed.

Lemma run_stylesheet_step i doc :
  runs (stylesheet_step E start_url assets_dir prefix i doc).
Proof.
  unfold stylesheet_step. destruct (doc !! i) as [tag|]; [|apply run_ret].
  destruct (tag_get _ tag) as [v|]; [|apply run_ret].
  case_bool_decide; [apply run_ret|].
  destruct (should_download_asset _ _) eqn:Hacc; [|apply run_ret].
  cbn [negb]. apply run_guard.
  - apply run_bind; [apply run_ret|]. intros []; [|apply run_ret].
    apply run_bind; [apply run_relative_str|]. intros rel. apply run_ret.
  - intros Hp. apply run_bind.
    + apply run_bind; [apply run_print|]. intros ?. apply run_try.
      * apply run_bind; [by apply run_session_get|]. intros resp.
        apply run_bind; [apply run_raise_for_status|]. intros ?.
        apply run_bind; [apply run_rewrite_css_urls|]. intros c.
        apply run_bind; [apply run_ensure_dir|]. intros ?.
        apply run_bind; [apply run_write_file; by left|]. intros ?.
        apply run_ret.
      * intros e. apply run_bind; [apply run_print|]. intros ?.
        apply run_ret.
    + intros []; [|apply run_ret].
      apply run_bind; [apply run_relative_str|]. intros rel. apply run_ret.
Qed.

Lemma run_rewrite_document doc :
  runs (rewrite_document E start_url assets_dir prefix doc).
Proof.
  unfold rewrite_document. apply run_bind.
  - unfold direct_phase. apply run_for_each. intros [n attr] d.
    apply run_for_each. intros i d'. apply run_direct_step.
  - intros d1. apply run_bind; [apply run_style_phase|]. intros d2.
    apply run_for_each. intros i d. apply run_stylesheet_step.
Qed.

End Phases.

End RunFrame.

Lemma run_page_body E start_url out_dir prefix html_name resp f0 l0 :
  keeps_run E f0 l0 (path_join (path_of_str out_dir) html_name)
            (page_body E start_url out_dir prefix html_name resp).
Proof.
  unfold page_body.
  apply run_bind; [apply run_raise_for_status|]. intros ?.
  apply run_bind; [apply run_rewrite_document|]. intros soup.
  apply run_bind; [apply run_write_file; by right|]. intros ?. apply run_print.
Qed.

Lemma ensure_dir_dirs p w : dirs (fs w) ⊆ dirs (fs (fst (ensure_dir p w))).
Proof.
  unfold ensure_dir. destruct (existsb _ _); cbn [fst fs dirs]; [done|].
  intros d Hd. apply elem_of_union. by right.
Qed.

(** One run of [process_page] keeps the invariant of the run. *)
Lemma process_page_frame (E : Env) (start_url out_dir prefix html_name : str)
    (w : World) :
  let w' := fst (process_page E start_url out_dir prefix html_name w) in
  fs_le (fs w) (fs w')
  /\ dirs (fs w) ⊆ dirs (fs w')
  /\ files_kept (fs w) (path_join (path_of_str out_dir) html_name) (fs w')
  /\ exists new, run_log start_url (log w) (log w') new
                 /\ Forall (asset_request E) new.
Proof.
  cbv zeta. rewrite process_page_run.
  pose proof (ensure_dir_fs_le (path_of_str out_dir) w) as Hle.
  pose proof (ensure_dir_log (path_of_str out_dir) w) as Hlog.
  assert (files (fs (fst (ensure_dir (path_of_str out_dir) w))) = files (fs w))
    as Hfiles by (unfold ensure_dir; by destruct (existsb _ _)).
  pose proof (ensure_dir_dirs (path_of_str out_dir) w) as Hdirs.
  destruct (ensure_dir (path_of_str out_dir) w) as [w1 [[]|e]];
    cbn [fst snd] in Hle, Hlog, Hfiles, Hdirs.
  2:{ cbn [fst]. split; [done|]. split; [done|]. split.
      - intros p c Hp _. by rewrite Hfiles.
      - exists []. split; [left|done]. by split. }
  set (html := path_join (path_of_str out_dir) html_name).
  set (w3 := page_requested start_url w1).
  assert (run_inv E (fs w) (log w3) html w3) as Hinv.
  { split; [done|]. split; [done|]. split.
    - intros p c Hp _. unfold w3, page_requested. cbn [fs]. by rewrite Hfiles.
    - exists []. split; [by rewrite app_nil_r|done]. }
  assert (forall w4,
            run_inv E (fs w) (log w3) html w4 ->
            fs_le (fs w) (fs w4) /\ dirs (fs w) ⊆ dirs (fs w4)
            /\ files_kept (fs w) html (fs w4)
            /\ exists new, run_log start_url (log w) (log w4) new
                           /\ Forall (asset_request E) new) as Hdone.
  { intros w4 (Hle4 & Hdirs4 & Hkept & new & Hl & Hall). split; [done|].
    split; [done|]. split; [done|]. exists new. split; [|done].
    right. exists (fs w1). rewrite Hl. unfold w3, page_requested. cbn [log].
    by rewrite Hlog, <- !(assoc_L (++)). }
  destruct (env_get E _ start_url) as [resp|e]; [|by apply Hdone].
  apply Hdone. by apply run_page_body.
Qed.


(** X16: whatever the page holds, every request of a run of
    [process_page] after that of the page itself is a request for a URL
    the classifier accepts. *)
Theorem process_page_requests_assets
    (E : Env) (start_url out_dir prefix html_name : str) (w : World) :
  let w' := fst (process_page E start_url out_dir prefix html_name w) in
  exists new,
    run_log start_url (log w) (log w') new
    /\ Forall (fun e => match e with
                        | EvGet url _ =>
                            should_download_asset (env_urlparse E) url = true
                        | EvPrint _ => True
                        end) new.
Proof.
  cbv zeta.
  destruct (process_page_frame E start_url out_dir prefix html_name w)
    as (_ & _ & _ & new & Hlog & Hall).
  exists new. split; [exact Hlog|exact Hall].
Qed.

(** X17: when a directory stands where the page is to be written,
    [process_page] cannot complete: whatever the page and the network,
    the run ends with an exception. *)
Theorem process_page_page_is_directory
    (E : Env) (start_url out_dir prefix html_name : str) (w : World) :
  is_dir (fs w) (path_join (path_of_str out_dir) html_name) = true ->
  is_raise (snd (process_page E start_url out_dir prefix html_name w)).
Proof.
  intros Hdir. rewrite process_page_run.
  pose proof (ensure_dir_fs_le (path_of_str out_dir) w) as Hle.
  pose proof (ensure_dir_dirs (path_of_str out_dir) w) as Hdirs.
  assert (files (fs (fst (ensure_dir (path_of_str out_dir) w))) = files (fs w))
    as Hfiles by (unfold ensure_dir; by destruct (existsb _ _)).
  destruct (ensure_dir (path_of_str out_dir) w) as [w1 [[]|e]];
    cbn [fst snd] in Hle, Hdirs, Hfiles; [|done].
  destruct (env_get E _ start_url) as [resp|e]; [|done].
  set (html := path_join (path_of_str out_dir) html_name) in *.
  set (w3 := page_requested start_url w1).
  assert (run_inv E (fs w) (log w3) html w3) as Hinv.
  { split; [done|]. split; [done|]. split.
    - intros p c Hp _. unfold w3, page_requested. cbn [fs]. by rewrite Hfiles.
    - exists []. split; [by rewrite app_nil_r|done]. }
  unfold page_body. rewrite bind_run. unfold raise_for_status at 1.
  destruct (_ && _); [done|]. cbn [ret]. rewrite bind_run.
  pose proof (run_rewrite_document E (path_join (path_of_str out_dir) &"assets")
                (fs w) (log w3) html start_url prefix (env_parse E (text resp))
                w3 Hinv) as Hdoc.
  destruct (rewrite_document _ _ _ _ _ _) as [w2 [doc'|e]]; [|done].
  cbn [fst snd] in Hdoc. destruct Hdoc as (_ & Hdirs2 & _).
  rewrite bind_run. unfold write_file at 1. fold html.
  assert (is_dir (fs w2) html = true) as ->; [|done].
  revert Hdir. unfold is_dir.
  intros [Ha|Hd%bool_decide_eq_true]%orb_true_iff; [by rewrite Ha|].
  rewrite (bool_decide_true (html ∈ _)); [apply orb_true_r|]. by apply Hdirs2.
Qed.

Lemma process_page_page_is_directory_witness :
  let E := py_env (site_get [ (&"https://example.com/", &"<h1>") ])
                  (fun _ => []) in
  let w := {| fs := {| files := ∅;
                       dirs := {[ [ &"site_mirror" ];
                                  [ &"site_mirror"; &"index.html" ] ]} |};
              log := [] |} in
  is_raise (snd (process_page E &"https://example.com/" &"site_mirror"
                   &"/assets" &"index.html" w)).
Proof.
  intros E w. apply (process_page_page_is_directory E).
  vm_compute. reflexivity.
Defined.

(** ** The matches of the pattern *)

Lemma scan_group_shape (s g : str) :
  scan_group s = Some g ->
  exists rest, s = g ++ ")"%char :: rest
               /\ Forall (fun c => c <> ")"%char /\ ord c <> 10) g.
Proof.
  revert g. induction s as [|c s IH]; intros g; cbn [scan_group]; [done|].
  destruct (ceq c ")") eqn:Hc.
  - intros [= <-]. apply ceq_true in Hc as ->. by exists s.
  - destruct (ord c =? 10) eqn:Hlf; [done|].
    destruct (scan_group s) as [g'|]; [|done]. intros [= <-].
    destruct (IH g' eq_refl) as (rest & -> & Hall). exists rest. split; [done|].
    constructor; [|done]. split.
    + by apply ceq_false.
    + by apply Nat.eqb_neq.
Qed.

Lemma match_at_shape (s g : str) :
  match_at s = Some g ->
  exists u r l rest,
    s = u :: r :: l :: "("%char :: g ++ ")"%char :: rest
    /\ lower [u; r; l] = &"url"
    /\ Forall (fun c => c <> ")"%char /\ ord c <> 10) g.
Proof.
  unfold match_at. destruct s as [|u [|r [|l [|p s]]]]; try done.
  destruct (_ && _) eqn:Hhead; [|done]. intros Hg.
  apply andb_true_iff in Hhead as [Hhead Hp].
  apply andb_true_iff in Hhead as [Hhead Hl].
  apply andb_true_iff in Hhead as [Hu Hr].
  apply ceq_true in Hp as ->.
  destruct (scan_group_shape _ _ Hg) as (rest & -> & Hall).
  exists u, r, l, rest. split; [done|]. split; [|done].
  apply orb_true_iff in Hu as [->%ceq_true| ->%ceq_true];
    apply orb_true_iff in Hr as [->%ceq_true| ->%ceq_true];
    apply orb_true_iff in Hl as [->%ceq_true| ->%ceq_true]; reflexivity.
Qed.

(** X18: the pattern cuts a text into matches and the characters between
    them, which together make up the text; every match is [url(] in any
    letter case, a value that holds neither a closing parenthesis nor a
    line feed, and the closing parenthesis. *)
Theorem css_segments_matches (s : str) :
  concat (map segment_source (css_segments 0 s)) = s
  /\ Forall (fun seg =>
               match seg with
               | Lit _ => True
               | UrlMatch whole g =>
                   exists head,
                     whole = head ++ g ++ &")" /\ lower head = &"url("
                     /\ Forall (fun c => c <> ")"%char /\ ord c <> 10) g
               end) (css_segments 0 s).
Proof.
  split; [by rewrite css_segments_source|].
  match goal with
  | |- Forall ?P _ =>
      cut (forall skip, Forall P (css_segments skip s)); [intros H; apply H|]
  end.
  induction s as [|c s IH]; intros skip.
  - destruct skip; constructor.
  - destruct skip as [|k]; [|apply IH]. cbn [css_segments].
    destruct (match_at (c :: s)) as [g|] eqn:Hm.
    + constructor; [|apply IH].
      destruct (match_at_shape _ _ Hm) as (u & r & l & rest & Hs & Hurl & Hall).
      exists [u; r; l; "("%char]. rewrite Hs. split; [|split; [|done]].
      * replace (length g + 5) with (4 + (length g + 1)) by lia.
        cbn [take Nat.add app]. do 4 f_equal.
        change (")"%char :: rest) with (&")" ++ rest).
        rewrite (assoc_L (++)). rewrite take_app_length'; [done|].
        rewrite length_app. cbn. lia.
      * change [u; r; l; "("%char] with ([u; r; l] ++ &"(").
        unfold lower in *. rewrite map_app, Hurl. reflexivity.
    + constructor; [done|apply IH].
Qed.

(** ** The output directory *)

(** X19: when the output directory cannot be made, because its path or
    one of its ancestors is a regular file, [process_page] raises an
    OSError at once: nothing is printed, requested, made or written. *)
Theorem process_page_blocked_directory
    (E : Env) (start_url out_dir prefix html_name : str) (w : World) :
  existsb (is_file (fs w)) (prefixes (path_of_str out_dir)) = true ->
  exists msg,
    process_page E start_url out_dir prefix html_name w
    = (w, Raise (OSError msg)).
Proof.
  intros Hfile. rewrite process_page_run. unfold ensure_dir. rewrite Hfile.
  by eexists.
Qed.

Lemma process_page_blocked_directory_witness :
  let E := py_env (site_get []) (fun _ => []) in
  let w := {| fs := {| files := {[ [ &"site_mirror" ] := &"a file" ]};
                       dirs := ∅ |};
              log := [] |} in
  exists msg,
    process_page E &"https://example.com/" &"site_mirror/pages" &"/assets"
                 &"index.html" w
    = (w, Raise (OSError msg)).
Proof.
  intros E w. apply (process_page_blocked_directory E).
  vm_compute. reflexivity.
Defined.

(** ** The rounds that download *)

Lemma requests_print (l : list Event) (msg : str) :
  requests (l ++ [EvPrint msg]) = requests l.
Proof. rewrite requests_app. cbn. apply app_nil_r. Qed.



(** X21: a round of the stylesheet phase for an accepted stylesheet whose
    local file is not there yet ends in one of two ways: something failed,
    the failure is printed and the document is as before; or the
    stylesheet was fetched, the file at its local path holds the
    rewriter's output for the text of the response, with the stylesheet's
    URL as base, and the [href] is rewritten to the public path of the
    file. *)
Theorem stylesheet_step_stores_rewritten
    (E : Env) (start_url : str) (assets_dir : Path) (prefix : str)
    (i : nat) (doc doc' : Doc) (link : Tag) (v : str) (w w' : World) :
  let css_url := env_urljoin E start_url v in
  let local_css_path := asset_local_name (env_urlparse E) css_url assets_dir in
  doc !! i = Some link ->
  tag_get &"href" link = Some v ->
  v <> [] ->
  should_download_asset (env_urlparse E) css_url = true ->
  path_exists (fs w) local_css_path = false ->
  stylesheet_step E start_url assets_dir prefix i doc w = (w', Ok doc') ->
  (exists e,
     doc' = doc
     /\ last (log w')
        = Some (EvPrint (&"Fehler bei CSS " ++ css_url ++ &": " ++ exn_msg e)))
  \/ (exists resp,
        env_get E (requests (log w)) css_url = Ok resp
        /\ files (fs w') !! local_css_path
           = Some (rewritten_text E css_url prefix (text resp))
        /\ doc' = <[i := tag_set &"href" (public_path E prefix css_url) link]> doc).
Proof.
  cbv zeta. intros Hdoc Hv Hne Hacc Habs.
  set (css_url := env_urljoin E start_url v) in *.
  set (local_css_path := asset_local_name (env_urlparse E) css_url assets_dir) in *.
  unfold stylesheet_step.
  rewrite Hdoc, Hv, (bool_decide_false _ Hne).
  fold css_url. rewrite Hacc. cbn [negb]. fold local_css_path.
  rewrite bind_run. unfold exists_ at 1. rewrite Habs.
  rewrite !bind_run. unfold print at 1. unfold try_catch.
  set (w1 := {| fs := fs w;
                log := log w ++ [EvPrint (&"[CSS] Lade & verarbeite " ++ css_url)] |}).
  rewrite bind_run. unfold session_get at 1. cbn [fs log].
  assert (requests (log w1) = requests (log w)) as ->
    by apply requests_print.
  destruct (env_get E (requests (log w)) css_url) as [resp|e] eqn:Hget.
  2:{ rewrite bind_run. unfold print at 1. cbn [ret]. intros [= <- <-].
      left. exists e. split; [done|]. cbn [log]. apply last_snoc. }
  rewrite bind_run. unfold raise_for_status at 1.
  destruct (_ && _).
  { cbn [raise]. rewrite bind_run. unfold print at 1. cbn [ret].
    intros [= <- <-]. left. exists (RequestException (error_text resp)).
    split; [done|]. cbn [log]. apply last_snoc. }
  cbn [ret]. rewrite bind_run.
  pose proof (rewrite_css_urls_value E css_url assets_dir prefix (text resp))
    as Hvalue.
  match goal with
  | |- context [rewrite_css_urls E css_url assets_dir prefix (text resp) ?w2] =>
      specialize (Hvalue w2);
      destruct (rewrite_css_urls E css_url assets_dir prefix (text resp) w2)
        as [w3 [new_css|e]]
  end.
  2:{ rewrite bind_run. unfold print at 1. cbn [ret]. intros [= <- <-].
      left. exists e. split; [done|]. cbn [log]. apply last_snoc. }
  cbn [snd] in Hvalue. rewrite (Hvalue new_css eq_refl).
  rewrite bind_run. unfold ensure_dir at 1.
  destruct (existsb _ _).
  { rewrite bind_run. unfold print at 1. cbn [ret]. intros [= <- <-].
    left. exists (OSError &"FileExistsError"). split; [done|].
    apply last_snoc. }
  rewrite bind_run. unfold write_file at 1.
  destruct (is_dir _ _).
  { rewrite bind_run. unfold print at 1. cbn [ret]. intros [= <- <-].
    left. exists (OSError &"IsADirectoryError"). split; [done|].
    apply last_snoc. }
  destruct (negb _).
  { rewrite bind_run. unfold print at 1. cbn [ret]. intros [= <- <-].
    left. exists (OSError &"FileNotFoundError"). split; [done|].
    apply last_snoc. }
  pose proof (relative_str_local E css_url assets_dir) as Hrel.
  fold local_css_path in Hrel. cbn [ret]. rewrite Hrel.
  rewrite bind_run. cbn [ret]. intros [= <- <-].
  right. exists resp. split; [done|]. split; [|done].
  cbn [fs files]. apply lookup_insert_eq.
Qed.

Lemma stylesheet_step_stores_rewritten_witness :
  let E := py_env (site_get [ (&"https://example.com/css/site.css",
                               &"a { b: url( 'page.html' ) }") ])
                  (fun _ => []) in
  let doc := [ {| tag_name := &"link";
                  attrs := [ (&"rel", &"stylesheet"); (&"href", &"css/site.css") ];
                  tag_string := None |} ] in
  let run := stylesheet_step E &"https://example.com/" [ &"assets" ] &"/assets"
               0 doc empty_world in
  files (fs (fst run)) !! [ &"assets"; &"css"; &"site.css" ]
  = Some &"a { b: url(page.html) }".
Proof.
  intros E doc run.
  assert (run = (fst run, Ok [ {| tag_name := &"link";
                                  attrs := [ (&"rel", &"stylesheet");
                                             (&"href", &"/assets/css/site.css") ];
                                  tag_string := None |} ])) as Hrun
    by (vm_compute; reflexivity).
  pose proof (stylesheet_step_stores_rewritten E &"https://example.com/"
                [ &"assets" ] &"/assets" 0 doc
                [ {| tag_name := &"link";
                     attrs := [ (&"rel", &"stylesheet");
                                (&"href", &"/assets/css/site.css") ];
                     tag_string := None |} ]
                {| tag_name := &"link";
                   attrs := [ (&"rel", &"stylesheet"); (&"href", &"css/site.css") ];
                   tag_string := None |}
                &"css/site.css" empty_world (fst run)) as H.
  cbv zeta in H.
  destruct H as [(e & Hsame & _)|(resp & Hget & Hfile & _)].
  - reflexivity.
  - reflexivity.
  - discriminate.
  - vm_compute. reflexivity.
  - vm_compute. reflexivity.
  - exact Hrun.
  - vm_compute in Hsame. discriminate Hsame.
  - vm_compute in Hget. injection Hget as <-.
    assert (asset_local_name (env_urlparse E)
              (env_urljoin E &"https://example.com/" &"css/site.css")
              [ &"assets" ]
            = [ &"assets"; &"css"; &"site.css" ]) as Hpath
      by (vm_compute; reflexivity).
    rewrite Hpath in Hfile. etrans; [exact Hfile|]. vm_compute. reflexivity.
Defined.
